(** * JRadiance storefront: role checks, route guard, admin actions,
      FTP upload helper and cart total

    A shallow embedding of the server actions ([checkPermission],
    [promoteUser], [demoteUser], [getSalesStats], ...), of the request
    [middleware], of the FTP upload service and of the cart total of
    [CartOverlay].  Asynchronous functions become computations in a small
    state-and-exception monad over an explicit [World]: the database
    tables, the session, the environment and the list of verdicts that
    the outside world gives to the external calls, in call order. *)

From Stdlib Require Import ZArith String Ascii List Lia Bool Floats.
From stdpp Require Import base option list strings gmap pretty sorting.

Set Warnings "-register-all".

(** ** JavaScript values and strings *)

Module Js.

(** JSON-like runtime values.  [VNull] stands for both [null] and
    [undefined]: the code only ever tests them for truthiness. *)
Inductive value :=
| VNull
| VBool (b : bool)
| VNum (n : Z)
| VStr (s : string)
| VArr (xs : list value)
| VObj (fields : gmap string value).

(** A thrown value: an [Error] instance or a plain error object such as
    the one a database response carries. *)
Record JsErr := {
  is_Error : bool;      (* [e instanceof Error] *)
  e_message : string;   (* [e.message] *)
  e_code : string;      (* [e.code] *)
}.

Definition truthy (v : value) : bool :=
  match v with
  | VNull => false
  | VBool b => b
  | VNum n => negb (Z.eqb n 0)
  | VStr s => negb (String.eqb s "")
  | VArr _ | VObj _ => true
  end.

(** [v?.k] *)
Definition opt_field (v : value) (k : string) : value :=
  match v with
  | VObj m => default VNull (m !! k)
  | _ => VNull
  end.

(** [v === "s"] for a string literal [s] *)
Definition is_str (v : value) (s : string) : bool :=
  match v with
  | VStr s' => String.eqb s' s
  | _ => false
  end.

(** [xs.join(sep)] on strings *)
Fixpoint join_with (sep : string) (xs : list string) : string :=
  match xs with
  | [] => ""
  | [x] => x
  | x :: xs' => x +:+ sep +:+ join_with sep xs'
  end.

(** [`${v}`], reading [VNull] as [null]; an array is its elements joined
    by commas, where [null] gives the empty text. *)
Fixpoint to_text (v : value) : string :=
  match v with
  | VNull => "null"
  | VBool true => "true"
  | VBool false => "false"
  | VNum n => pretty n
  | VStr s => s
  | VArr xs => join_with "," (map (fun x => match x with
                                            | VNull => ""
                                            | _ => to_text x
                                            end) xs)
  | VObj _ => "[object Object]"
  end.

(** [Number(v)] of a value that is [null], a boolean or a number *)
Definition to_number (v : value) : Z :=
  match v with
  | VBool true => 1
  | VNum n => n
  | _ => 0
  end.

Definition startsWith (s p : string) : bool := String.prefix p s.

(** [s.split(sep)] for a one-character separator *)
Fixpoint split (sep : ascii) (s : string) : list string :=
  match s with
  | EmptyString => [EmptyString]
  | String c s' =>
      if Ascii.eqb c sep then EmptyString :: split sep s'
      else match split sep s' with
           | seg :: segs => String c seg :: segs
           | [] => [String c EmptyString]
           end
  end.

(** [xs.pop()]: the last element, [undefined] on an empty array *)
Definition pop (xs : list string) : option string := last xs.

(** [a || dflt] on strings, [a] possibly [undefined] *)
Definition str_or (a : option string) (dflt : string) : string :=
  match a with
  | Some s => if String.eqb s "" then dflt else s
  | None => dflt
  end.

(** [s.replace(/\/$/, "")]: drops one slash at the very end *)
Fixpoint strip_trailing_slash (s : string) : string :=
  match s with
  | EmptyString => EmptyString
  | String c EmptyString => if Ascii.eqb c "/" then EmptyString else s
  | String c s' => String c (strip_trailing_slash s')
  end.

(** [s.substring(a, b)] for [a <= b] *)
Definition substring (a b : nat) (s : string) : string :=
  String.substring a (b - a) s.

(** [s.lastIndexOf("/") + 1], counted from the left; [-1 + 1 = 0] when
    there is no slash *)
Fixpoint after_last_slash (s : string) : string :=
  match s with
  | EmptyString => EmptyString
  | String c s' =>
      if existsb (Ascii.eqb "/") (list_ascii_of_string s')
      then after_last_slash s'
      else if Ascii.eqb c "/" then s' else s
  end.

Definition is_digit (c : ascii) : bool :=
  let n := nat_of_ascii c in (48 <=? n)%nat && (n <=? 57)%nat.

Fixpoint digits_prefix (s : string) (acc : option Z) : option Z :=
  match s with
  | String c s' =>
      if is_digit c
      then digits_prefix s'
             (Some (10 * default 0%Z acc + (Z.of_nat (nat_of_ascii c) - 48))%Z)
      else acc
  | EmptyString => acc
  end.

(** The white space among the characters of these strings: the space
    and the control characters from tab to carriage return.  The other
    white space of the language, such as the no-break space, is no
    single character here. *)
Definition is_space (c : ascii) : bool :=
  let n := nat_of_ascii c in (n =? 32)%nat || ((9 <=? n)%nat && (n <=? 13)%nat).

Fixpoint skip_spaces (s : string) : string :=
  match s with
  | String c s' => if is_space c then skip_spaces s' else s
  | EmptyString => s
  end.

(** [parseInt(s, 10)]: leading white space is skipped, then a sign is
    read, then the longest run of decimal digits; [None] is [NaN], the
    result when no digit follows. *)
Definition parseInt (s : string) : option Z :=
  match skip_spaces s with
  | String c s' =>
      if Ascii.eqb c "-" then Z.opp <$> digits_prefix s' None
      else if Ascii.eqb c "+" then digits_prefix s' None
      else digits_prefix (String c s') None
  | EmptyString => None
  end.

End Js.
Export Js.

(** ** Computations: state, exceptions, [try]/[catch]/[finally] *)

Module Eff.

Inductive outcome (A : Type) :=
| Returns (a : A)
| Raises (e : JsErr).
Arguments Returns {A} a.
Arguments Raises {A} e.

Section WithState.
Context {S : Type}.

Definition Eff (A : Type) : Type := S -> outcome A * S.

Definition ret {A} (a : A) : Eff A := fun s => (Returns a, s).

Definition raise {A} (e : JsErr) : Eff A := fun s => (Raises e, s).

Definition bind {A B} (m : Eff A) (k : A -> Eff B) : Eff B :=
  fun s =>
    match m s with
    | (Returns a, s') => k a s'
    | (Raises e, s') => (Raises e, s')
    end.

Definition try_catch {A} (body : Eff A) (handler : JsErr -> Eff A) : Eff A :=
  fun s =>
    match body s with
    | (Returns a, s') => (Returns a, s')
    | (Raises e, s') => handler e s'
    end.

(** The [finally] block runs on every exit of the protected block; an
    exception of its own replaces the pending result. *)
Definition try_finally {A} (body : Eff A) (fin : Eff unit) : Eff A :=
  fun s =>
    match body s with
    | (o, s') =>
        match fin s' with
        | (Returns _, s'') => (o, s'')
        | (Raises e, s'') => (Raises e, s'')
        end
    end.

Definition gets {A} (f : S -> A) : Eff A := fun s => (Returns (f s), s).

Definition modify (f : S -> S) : Eff unit := fun s => (Returns tt, f s).
End WithState.
Arguments Eff S A : clear implicits.

(** A block with one mutable local variable of type [L] *)
Definition lift {S L A} (m : Eff S A) : Eff (L * S) A :=
  fun ls =>
    match m (snd ls) with
    | (o, s') => (o, (fst ls, s'))
    end.

Definition get_local {S L} : Eff (L * S) L := gets fst.

Definition set_local {S L} (l : L) : Eff (L * S) unit :=
  modify (fun ls => (l, snd ls)).

Definition with_local {S L A} (init : L) (m : Eff (L * S) A) : Eff S A :=
  fun s =>
    match m (init, s) with
    | (o, ls) => (o, snd ls)
    end.

End Eff.
Export Eff.

Declare Scope eff_scope.
Delimit Scope eff_scope with eff.
Notation "x <- c1 ;; c2" := (bind c1 (fun x => c2))
  (at level 100, c1 at next level, right associativity) : eff_scope.
Notation "c1 ;; c2" := (bind c1 (fun _ => c2))
  (at level 100, right associativity) : eff_scope.
Notation "x |> f" := (f x) (at level 45, left associativity, only parsing).
Open Scope eff_scope.

(** ** The outside world *)

Module World.

Abbreviation row := (gmap string value).

(** The verdict of the outside world on one external call. *)
Inductive Fault :=
| NoFault                    (* the call does its work *)
| ErrorResult (e : JsErr)    (* it resolves with [{ data: null, error: e }] *)
| Throws (e : JsErr).        (* the call throws, or its promise rejects *)

Record Cookie := {
  cookie_name : string;
  cookie_value : string;
  cookie_options : string;
}.

(** [Date] methods; they depend on the time zone of the host. *)
Record DateRuntime := {
  setDate_back : Z -> Z -> Z;       (* [d.setDate(d.getDate() - n)] in ms *)
  setMonth_back : Z -> Z -> Z;      (* [d.setMonth(d.getMonth() - n)] in ms *)
  toISOString : Z -> string;
}.

(** What a call reads but never writes. *)
Record Runtime := {
  session : option string;                 (* id of the signed-in user *)
  refresh_cookies : option (list Cookie);  (* cookies the auth client sets *)
  related : string -> string -> string -> row -> gmap string (list row)
            -> value;                      (* embedded resources of a select *)
  pg_is_Error : bool;                      (* database errors are [Error]s *)
  now : Z;                                 (* [Date.now()] *)
  dates : DateRuntime;
  random36 : string;                       (* [Math.random().toString(36)] *)
  env : gmap string string;                (* [process.env] *)
  url_pathname : string -> option string;  (* [new URL(u).pathname] *)
}.

Record FTPConfig := {
  host : string;
  port : option Z;
  user : string;
  password : string;
  baseUrl : string;
}.

Inductive FtpCmd :=
| Connect (cfg : FTPConfig)
| Cwd (path : string)
| Mkdir (path : string)
| Put (path : string) (content : string)
| Dele (path : string)
| End_.

(** One command sent by client object number [conn] and whether the
    server accepted it. *)
Record FtpEvent := {
  conn : nat;
  cmd : FtpCmd;
  accepted : bool;
}.

Record World := {
  rt : Runtime;
  oracle : list Fault;                 (* verdicts for the calls to come *)
  tables : gmap string (list row);
  next_id : nat;                       (* ids the database hands out *)
  revalidated : list string;           (* [revalidatePath] calls *)
  console : list string;
  ftp_trace : list FtpEvent;
}.

Definition set_oracle (o : list Fault) (w : World) : World :=
  {| rt := rt w; oracle := o; tables := tables w; next_id := next_id w;
     revalidated := revalidated w; console := console w;
     ftp_trace := ftp_trace w |}.

Definition set_tables (t : gmap string (list row)) (w : World) : World :=
  {| rt := rt w; oracle := oracle w; tables := t; next_id := next_id w;
     revalidated := revalidated w; console := console w;
     ftp_trace := ftp_trace w |}.

Definition set_next_id (n : nat) (w : World) : World :=
  {| rt := rt w; oracle := oracle w; tables := tables w; next_id := n;
     revalidated := revalidated w; console := console w;
     ftp_trace := ftp_trace w |}.

Definition set_revalidated (l : list string) (w : World) : World :=
  {| rt := rt w; oracle := oracle w; tables := tables w; next_id := next_id w;
     revalidated := l; console := console w; ftp_trace := ftp_trace w |}.

Definition set_console (l : list string) (w : World) : World :=
  {| rt := rt w; oracle := oracle w; tables := tables w; next_id := next_id w;
     revalidated := revalidated w; console := l; ftp_trace := ftp_trace w |}.

Definition set_ftp_trace (l : list FtpEvent) (w : World) : World :=
  {| rt := rt w; oracle := oracle w; tables := tables w; next_id := next_id w;
     revalidated := revalidated w; console := console w; ftp_trace := l |}.

Abbreviation M := (Eff World).

(** The world once the verdict at the head of the list is used. *)
Definition advance (w : World) : World := set_oracle (tail (oracle w)) w.

(** Every external call consumes one verdict; when the list is used up
    the world is well behaved. *)
Definition next_fault : M Fault :=
  fun w => (Returns (hd NoFault (oracle w)), advance w).

(** An external call that can only succeed or throw. *)
Definition external {A} (work : M A) : M A :=
  f <- next_fault ;;
  match f with
  | NoFault => work
  | ErrorResult e | Throws e => raise e
  end.

Definition console_error (label : string) : M unit :=
  modify (fun w => set_console (console w ++ [label]) w).

Definition console_warn (label : string) : M unit :=
  modify (fun w => set_console (console w ++ [label]) w).

(** [revalidatePath(p)] of the framework *)
Definition revalidatePath (p : string) : M unit :=
  external (modify (fun w => set_revalidated (revalidated w ++ [p]) w)).

(** [Date.now()], and [new Date().toISOString()] *)
Definition Date_now : M Z := gets (fun w => now (rt w)).

Definition now_iso : M string :=
  gets (fun w => toISOString (dates (rt w)) (now (rt w))).

End World.
Export World.

(** ** The database client *)

Module Supabase.

Inductive selector :=
| Col (c : string)
| Star
| Embed (child spec : string).    (* [child (spec)]: an embedded resource *)

Inductive verb :=
| Select (cols : list selector)
| Insert (r : row) (returning : option (list selector))
| Update (changes : row)
| Delete.

(** A query as the builder chain describes it. *)
Record query := {
  q_table : string;
  q_verb : verb;
  q_filters : list (string * string);   (* [.eq(column, text)] *)
  q_order : option (string * bool);     (* column, ascending *)
  q_limit : option nat;
  q_single : bool;
}.

Record response := {
  resp_data : value;
  resp_error : option JsErr;
}.

Definition from (t : string) (v : verb) : query :=
  {| q_table := t; q_verb := v; q_filters := []; q_order := None;
     q_limit := None; q_single := false |}.

Definition select (cols : list selector) (t : verb -> query) : query :=
  t (Select cols).

Definition insert (r : row) (t : verb -> query) : query := t (Insert r None).

Definition update (changes : row) (t : verb -> query) : query :=
  t (Update changes).

Definition delete (t : verb -> query) : query := t Delete.

(** [.select(cols)] after [.insert(r)]: return the inserted row *)
Definition returning (cols : list selector) (q : query) : query :=
  {| q_table := q_table q;
     q_verb := match q_verb q with
               | Insert r _ => Insert r (Some cols)
               | v => v
               end;
     q_filters := q_filters q; q_order := q_order q; q_limit := q_limit q;
     q_single := q_single q |}.

Definition eq_ (c v : string) (q : query) : query :=
  {| q_table := q_table q; q_verb := q_verb q;
     q_filters := q_filters q ++ [(c, v)]; q_order := q_order q;
     q_limit := q_limit q; q_single := q_single q |}.

Definition order (c : string) (ascending : bool) (q : query) : query :=
  {| q_table := q_table q; q_verb := q_verb q; q_filters := q_filters q;
     q_order := Some (c, ascending); q_limit := q_limit q;
     q_single := q_single q |}.

Definition limit (n : nat) (q : query) : query :=
  {| q_table := q_table q; q_verb := q_verb q; q_filters := q_filters q;
     q_order := q_order q; q_limit := Some n; q_single := q_single q |}.

Definition single (q : query) : query :=
  {| q_table := q_table q; q_verb := q_verb q; q_filters := q_filters q;
     q_order := q_order q; q_limit := q_limit q; q_single := true |}.

(** *** What the database does with a query *)

Definition table (w : World) (t : string) : list row :=
  default [] (tables w !! t).

Definition column (r : row) (c : string) : value := default VNull (r !! c).

Definition matches (fs : list (string * string)) (r : row) : bool :=
  forallb (fun f => is_str (column r (fst f)) (snd f)) fs.

Definition project (w : World) (t : string) (cols : list selector) (r : row)
  : row :=
  foldr (fun sel acc =>
           match sel with
           | Col c => <[c := column r c]> acc
           | Star => r ∪ acc
           | Embed child spec =>
               <[child := related (rt w) t child spec r (tables w)]> acc
           end) ∅ cols.

Definition value_leb (a b : value) : bool :=
  match a, b with
  | VNum x, VNum y => Z.leb x y
  | VStr x, VStr y => String.leb x y
  | _, _ => true
  end.

Definition row_le (c : string) (ascending : bool) (r1 r2 : row) : Prop :=
  Is_true (if ascending then value_leb (column r1 c) (column r2 c)
           else value_leb (column r2 c) (column r1 c)).

#[global] Instance row_le_dec c asc r1 r2 : Decision (row_le c asc r1 r2).
Proof. unfold row_le. apply _. Defined.

Definition pg_error (w : World) (c msg : string) : JsErr :=
  {| is_Error := pg_is_Error (rt w); e_message := msg; e_code := c |}.

Definition ok (v : value) : response :=
  {| resp_data := v; resp_error := None |}.

Definition failed (e : JsErr) : response :=
  {| resp_data := VNull; resp_error := Some e |}.

Definition run_select (w : World) (q : query) (cols : list selector)
  : response :=
  let rows := List.filter (matches (q_filters q)) (table w (q_table q)) in
  let rows := match q_order q with
              | Some (c, asc) => merge_sort (row_le c asc) rows
              | None => rows
              end in
  let rows := match q_limit q with
              | Some n => take n rows
              | None => rows
              end in
  let rows := map (project w (q_table q) cols) rows in
  if q_single q then
    match rows with
    | [r] => ok (VObj r)
    | _ => failed (pg_error w "PGRST116"
                     "JSON object requested, multiple (or no) rows returned")
    end
  else ok (VArr (map VObj rows)).

Definition same_id (r1 r2 : row) : bool :=
  match r1 !! "id", r2 !! "id" with
  | Some (VStr a), Some (VStr b) => String.eqb a b
  | _, _ => false
  end.

(** Modelled from the spec: the schema is not part of the sources; the
    spec leaves uniqueness to the database and names duplicate-key
    errors.  Every table has the primary key [id]: a row that comes
    without one gets a generated id, and a row that repeats the id of a
    stored row is refused with the duplicate-key code 23505. *)
Definition run_insert (w : World) (q : query) (r : row)
  (ret_cols : option (list selector)) : response * World :=
  let t := q_table q in
  let keyed :=
    match r !! "id" with
    | Some _ => (r, w)
    | None => (<["id" := VStr ("id-" +:+ pretty (next_id w))]> r,
               set_next_id (S (next_id w)) w)
    end in
  let r' := fst keyed in
  let w1 := snd keyed in
  if existsb (same_id r') (table w t)
  then (failed (pg_error w "23505"
                  "duplicate key value violates unique constraint"), w)
  else
    let w2 := set_tables (<[t := table w t ++ [r']]> (tables w1)) w1 in
    (match ret_cols with
     | None => ok VNull
     | Some cols =>
         if q_single q then ok (VObj (project w2 t cols r'))
         else ok (VArr [VObj (project w2 t cols r')])
     end, w2).

Definition run_update (w : World) (q : query) (changes : row)
  : response * World :=
  let t := q_table q in
  let rows :=
    map (fun r => if matches (q_filters q) r then changes ∪ r else r)
        (table w t) in
  (ok VNull, set_tables (<[t := rows]> (tables w)) w).

Definition run_delete (w : World) (q : query) : response * World :=
  let t := q_table q in
  let rows := List.filter (fun r => negb (matches (q_filters q) r))
                          (table w t) in
  (ok VNull, set_tables (<[t := rows]> (tables w)) w).

Definition run_query (w : World) (q : query) : response * World :=
  match q_verb q with
  | Select cols => (run_select w q cols, w)
  | Insert r ret_cols => run_insert w q r ret_cols
  | Update changes => run_update w q changes
  | Delete => run_delete w q
  end.

(** [await query]: the client reports a failure in [error], and an
    exception is possible as for any call. *)
Definition await (q : query) : M response :=
  f <- next_fault ;;
  match f with
  | NoFault => fun w => match run_query w q with
                        | (r, w') => (Returns r, w')
                        end
  | ErrorResult e => ret (failed e)
  | Throws e => raise e
  end.

(** [createClient()] and [createStaticClient()] of the project's utils *)
Definition createClient : M unit := external (ret tt).

Definition createStaticClient : M unit := external (ret tt).

(** [supabase.auth.getUser()]: the user, [null] on an auth error *)
Definition auth_getUser : M (option string) :=
  f <- next_fault ;;
  match f with
  | NoFault => gets (fun w => session (rt w))
  | ErrorResult _ => ret None
  | Throws e => raise e
  end.

(** [if (error) throw error] *)
Definition throw_if_error (r : response) : M unit :=
  match resp_error r with
  | Some e => raise e
  | None => ret tt
  end.

End Supabase.
Export Supabase.

(** ** Admin management actions *)

Module AdminActions.

Inductive UserRole := customer | agent | admin | chief_admin.

Definition role_name (r : UserRole) : string :=
  match r with
  | customer => "customer"
  | agent => "agent"
  | admin => "admin"
  | chief_admin => "chief_admin"
  end.

Definition role_eqb (a b : UserRole) : bool :=
  String.eqb (role_name a) (role_name b).

(** The result object of an action; absent fields are [None]. *)
Record ActionResult := {
  success : bool;
  error : option string;
  message : option string;
  productId : option value;
  data : option value;
}.

Definition failure (msg : string) : ActionResult :=
  {| success := false; error := Some msg; message := None;
     productId := None; data := None |}.

Definition done_ (msg : string) : ActionResult :=
  {| success := true; error := None; message := Some msg;
     productId := None; data := None |}.

Definition with_data (v : value) : ActionResult :=
  {| success := true; error := None; message := None;
     productId := None; data := Some v |}.

Definition failed_fetch (msg : string) : ActionResult :=
  {| success := false; error := Some msg; message := None;
     productId := None; data := Some VNull |}.

(** [error instanceof Error ? error.message : dflt] *)
Definition err_message (e : JsErr) (dflt : string) : string :=
  if is_Error e then e_message e else dflt.

Definition TypeError : JsErr :=
  {| is_Error := true; e_message := "Cannot read properties of null";
     e_code := "" |}.

(** [v.k]: reading a property of [null] throws *)
Definition prop (v : value) (k : string) : M value :=
  match v with
  | VNull => raise TypeError
  | _ => ret (opt_field v k)
  end.

(** [a || b] *)
Definition or_else (a b : value) : value := if truthy a then a else b.

Definition roleHierarchy : gmap string Z :=
  {[ "customer" := 0%Z; "agent" := 1%Z; "admin" := 2%Z;
     "chief_admin" := 3%Z ]}.

(** [roleHierarchy[k]] for a key read from the database *)
Definition hierarchy_at (k : value) : option Z :=
  match k with
  | VStr s => roleHierarchy !! s
  | _ => None
  end.

(** [a >= b] on numbers; a comparison with [undefined] is false *)
Definition js_ge (a b : option Z) : bool :=
  match a, b with
  | Some x, Some y => Z.geb x y
  | _, _ => false
  end.

Definition select_role (uid : string) : query :=
  from "profiles" |> select [Col "role"] |> eq_ "id" uid |> single.

Definition checkPermission (requiredRole : UserRole) : M bool :=
  try_catch
    (createClient ;;
     user <- auth_getUser ;;
     match user with
     | None => ret false
     | Some user_id =>
         r <- await (select_role user_id) ;;
         let profile := resp_data r in
         if negb (truthy profile) then ret false
         else
           role <- prop profile "role" ;;
           ret (js_ge (hierarchy_at role)
                      (roleHierarchy !! role_name requiredRole))
     end)
    (fun error => console_error "Error checking permission:" ;; ret false).

Record Permissions := {
  canManageUsers : bool;
  canManageProducts : bool;
  canManageOrders : bool;
  canViewAuditLogs : bool;
  canViewSalesLogs : bool;
  canManageAgents : bool;
  role : value;
}.

Definition getAdminPermissions : M (option Permissions) :=
  try_catch
    (createClient ;;
     user <- auth_getUser ;;
     match user with
     | None => ret None
     | Some user_id =>
         r <- await (select_role user_id) ;;
         let profile := resp_data r in
         if negb (truthy profile) then ret None
         else
           role <- prop profile "role" ;;
           let isChiefAdmin := is_str role "chief_admin" in
           let isAdmin := is_str role "admin" || isChiefAdmin in
           let isAgent := is_str role "agent" || isAdmin in
           ret (Some {| canManageUsers := isChiefAdmin;
                        canManageProducts := isAgent;
                        canManageOrders := isAgent;
                        canViewAuditLogs := isAgent;
                        canViewSalesLogs := isAgent;
                        canManageAgents := isChiefAdmin;
                        role := role |})
     end)
    (fun error => console_error "Error getting permissions:" ;; ret None).

Definition user_columns : list selector :=
  [Col "id"; Col "email"; Col "full_name"; Col "role"; Col "is_active";
   Col "created_at"].

Definition getAllUsers : M ActionResult :=
  try_catch
    (createStaticClient ;;
     r <- await (from "profiles" |> select user_columns
                 |> order "created_at" false) ;;
     throw_if_error r ;;
     ret (with_data (resp_data r)))
    (fun error =>
       console_error "Error fetching users:" ;;
       ret (failed_fetch "Failed to fetch users")).

Definition log_entry (admin_id action resource_type : string)
  (resource_id : value) (changes : option value) : row :=
  let base : row :=
    {[ "admin_id" := VStr admin_id; "action" := VStr action;
       "resource_type" := VStr resource_type;
       "resource_id" := resource_id ]} in
  match changes with
  | Some c => <["changes" := c]> base
  | None => base
  end.

Definition staff_row (targetUserId : string) (newRole : UserRole) (ts : Z)
  : row :=
  {[ "id" := VStr targetUserId;
     "profile_id" := VStr targetUserId;
     "staff_id" := VStr ("STAFF-" +:+ pretty ts);
     "department" := VStr "Team";
     "position" := VStr (if role_eqb newRole agent then "Support Agent"
                         else "Administrator");
     "is_active" := VBool true ]}.

Definition promoteUser (targetUserId : string) (newRole : UserRole)
  : M ActionResult :=
  try_catch
    (createClient ;;
     currentUser <- auth_getUser ;;
     match currentUser with
     | None => ret (failure "Not authenticated")
     | Some currentUser_id =>
         r <- await (select_role currentUser_id) ;;
         let callerProfile := resp_data r in
         if negb (is_str (opt_field callerProfile "role") "chief_admin")
         then ret (failure "Only chief admin can promote users")
         else
           r <- await (from "profiles"
                       |> update {[ "role" := VStr (role_name newRole) ]}
                       |> eq_ "id" targetUserId) ;;
           throw_if_error r ;;
           (if negb (role_eqb newRole customer) then
              ts <- Date_now ;;
              r <- await (from "admin_staff"
                          |> insert (staff_row targetUserId newRole ts)) ;;
              match resp_error r with
              | Some staffError =>
                  if negb (String.eqb (e_code staffError) "23505")
                  then raise staffError
                  else ret tt
              | None => ret tt
              end
            else ret tt) ;;
           await (from "admin_activity_logs"
                  |> insert (log_entry currentUser_id "user_promoted" "user"
                               (VStr targetUserId)
                               (Some (VObj {[ "new_role" :=
                                                VStr (role_name newRole) ]})))) ;;
           revalidatePath "/admin/users" ;;
           ret (done_ ("User promoted to " +:+ role_name newRole))
     end)
    (fun error =>
       console_error "Error promoting user:" ;;
       ret (failure (err_message error "Failed to promote user"))).

Definition demoteUser (targetUserId : string) : M ActionResult :=
  try_catch
    (createClient ;;
     currentUser <- auth_getUser ;;
     match currentUser with
     | None => ret (failure "Not authenticated")
     | Some currentUser_id =>
         r <- await (select_role currentUser_id) ;;
         let callerProfile := resp_data r in
         if negb (is_str (opt_field callerProfile "role") "chief_admin")
         then ret (failure "Only chief admin can demote users")
         else
           r <- await (select_role targetUserId) ;;
           let targetProfile := resp_data r in
           let oldRole := opt_field targetProfile "role" in
           r <- await (from "profiles"
                       |> update {[ "role" := VStr "customer" ]}
                       |> eq_ "id" targetUserId) ;;
           throw_if_error r ;;
           await (from "admin_staff" |> delete |> eq_ "id" targetUserId) ;;
           await (from "admin_activity_logs"
                  |> insert (log_entry currentUser_id "user_demoted" "user"
                               (VStr targetUserId)
                               (Some (VObj {[ "old_role" := oldRole;
                                              "new_role" := VStr "customer" ]})))) ;;
           revalidatePath "/admin/users" ;;
           ret (done_ "User demoted to customer")
     end)
    (fun error =>
       console_error "Error demoting user:" ;;
       ret (failure (err_message error "Failed to demote user"))).

Definition deleteUser (targetUserId : string) : M ActionResult :=
  try_catch
    (createClient ;;
     currentUser <- auth_getUser ;;
     match currentUser with
     | None => ret (failure "Not authenticated")
     | Some currentUser_id =>
         r <- await (select_role currentUser_id) ;;
         let callerProfile := resp_data r in
         if negb (is_str (opt_field callerProfile "role") "chief_admin")
         then ret (failure "Only chief admin can delete users")
         else
           await (from "admin_staff" |> delete |> eq_ "id" targetUserId) ;;
           r <- await (from "profiles" |> delete |> eq_ "id" targetUserId) ;;
           throw_if_error r ;;
           await (from "admin_activity_logs"
                  |> insert (log_entry currentUser_id "user_deleted" "user"
                               (VStr targetUserId) None)) ;;
           revalidatePath "/admin/users" ;;
           ret (done_ "User deleted successfully")
     end)
    (fun error =>
       console_error "Error deleting user:" ;;
       ret (failure (err_message error "Failed to delete user"))).

Definition toggleUserStatus (targetUserId : string) : M ActionResult :=
  try_catch
    (createClient ;;
     currentUser <- auth_getUser ;;
     match currentUser with
     | None => ret (failure "Not authenticated")
     | Some currentUser_id =>
         r <- await (select_role currentUser_id) ;;
         let callerProfile := resp_data r in
         if negb (is_str (opt_field callerProfile "role") "chief_admin")
         then ret (failure "Only chief admin can toggle user status")
         else
           r <- await (from "profiles" |> select [Col "is_active"]
                       |> eq_ "id" targetUserId |> single) ;;
           let targetProfile := resp_data r in
           let is_active := truthy (opt_field targetProfile "is_active") in
           r <- await (from "profiles"
                       |> update {[ "is_active" := VBool (negb is_active) ]}
                       |> eq_ "id" targetUserId) ;;
           throw_if_error r ;;
           await (from "admin_activity_logs"
                  |> insert (log_entry currentUser_id
                               ("user_" +:+ (if is_active then "deactivated"
                                             else "activated"))
                               "user" (VStr targetUserId) None)) ;;
           revalidatePath "/admin/users" ;;
           ret (done_ ("User " +:+ (if is_active then "deactivated"
                                    else "activated")))
     end)
    (fun error =>
       console_error "Error toggling user status:" ;;
       ret (failure (err_message error "Failed to toggle user status"))).

Record ProductData := {
  name : string;
  slug : string;
  description : option string;
  category : string;
  price : Z;
  discount_price : option Z;
  stock_quantity : Z;
  sku : option string;
  images : list string;
  attributes : gmap string value;
}.

Definition nullable {A} (f : A -> value) (o : option A) : value :=
  match o with
  | Some a => f a
  | None => VNull
  end.

Definition product_row (p : ProductData) : row :=
  {[ "name" := VStr (name p);
     "slug" := VStr (slug p);
     "description" := nullable VStr (description p);
     "category" := VStr (category p);
     "price" := VNum (price p);
     "discount_price" := nullable VNum (discount_price p);
     "stock_quantity" := VNum (stock_quantity p);
     "sku" := nullable VStr (sku p);
     "images" := VArr (map VStr (images p));
     "attributes" := VObj (attributes p) ]}.

Definition createProduct (productData : ProductData) : M ActionResult :=
  try_catch
    (createClient ;;
     user <- auth_getUser ;;
     match user with
     | None => ret (failure "Not authenticated")
     | Some user_id =>
         r <- await (from "admin_staff" |> select [Col "id"]
                     |> eq_ "id" user_id |> single) ;;
         let adminStaff := resp_data r in
         r <- await (from "products"
                     |> insert (<["created_by" :=
                                    or_else (opt_field adminStaff "id") VNull]>
                                  (product_row productData))
                     |> returning [Col "id"] |> single) ;;
         throw_if_error r ;;
         id <- prop (resp_data r) "id" ;;
         await (from "admin_activity_logs"
                |> insert (log_entry user_id "product_created" "product" id
                             (Some (VObj {[ "name" :=
                                              VStr (name productData) ]})))) ;;
         revalidatePath "/admin/catalog" ;;
         revalidatePath "/shop" ;;
         revalidatePath "/sitemap.xml" ;;
         ret {| success := true; error := None;
                message := Some "Product created successfully";
                productId := Some id; data := None |}
     end)
    (fun error =>
       console_error "Error creating product:" ;;
       ret (failure (err_message error "Failed to create product"))).

Definition updateProduct (productId : string) (updates : row)
  : M ActionResult :=
  try_catch
    (createClient ;;
     user <- auth_getUser ;;
     match user with
     | None => ret (failure "Not authenticated")
     | Some user_id =>
         iso <- now_iso ;;
         r <- await (from "products"
                     |> update (<["updated_at" := VStr iso]> updates)
                     |> eq_ "id" productId) ;;
         throw_if_error r ;;
         await (from "admin_activity_logs"
                |> insert (log_entry user_id "product_updated" "product"
                             (VStr productId) (Some (VObj updates)))) ;;
         revalidatePath "/admin/catalog" ;;
         revalidatePath "/shop" ;;
         revalidatePath ("/products/" +:+ productId) ;;
         ret (done_ "Product updated successfully")
     end)
    (fun error =>
       console_error "Error updating product:" ;;
       ret (failure (err_message error "Failed to update product"))).

Definition deleteProduct (productId : string) : M ActionResult :=
  try_catch
    (createClient ;;
     user <- auth_getUser ;;
     match user with
     | None => ret (failure "Not authenticated")
     | Some user_id =>
         r <- await (from "products" |> delete |> eq_ "id" productId) ;;
         throw_if_error r ;;
         await (from "admin_activity_logs"
                |> insert (log_entry user_id "product_deleted" "product"
                             (VStr productId) None)) ;;
         revalidatePath "/admin/catalog" ;;
         revalidatePath "/shop" ;;
         revalidatePath "/sitemap.xml" ;;
         ret (done_ "Product deleted successfully")
     end)
    (fun error =>
       console_error "Error deleting product:" ;;
       ret (failure (err_message error "Failed to delete product"))).

Definition toggleProductStatus (productId : string) : M ActionResult :=
  try_catch
    (createClient ;;
     user <- auth_getUser ;;
     match user with
     | None => ret (failure "Not authenticated")
     | Some user_id =>
         r <- await (from "products" |> select [Col "is_active"]
                     |> eq_ "id" productId |> single) ;;
         let product := resp_data r in
         let is_active := truthy (opt_field product "is_active") in
         r <- await (from "products"
                     |> update {[ "is_active" := VBool (negb is_active) ]}
                     |> eq_ "id" productId) ;;
         throw_if_error r ;;
         await (from "admin_activity_logs"
                |> insert (log_entry user_id
                             ("product_" +:+ (if is_active then "deactivated"
                                              else "activated"))
                             "product" (VStr productId) None)) ;;
         revalidatePath "/admin/catalog" ;;
         revalidatePath "/shop" ;;
         ret (done_ ("Product " +:+ (if is_active then "deactivated"
                                     else "activated")))
     end)
    (fun error =>
       console_error "Error toggling product status:" ;;
       ret (failure (err_message error "Failed to toggle product status"))).

Definition getAllOrders : M ActionResult :=
  try_catch
    (createStaticClient ;;
     r <- await (from "orders"
                 |> select [Star;
                            Embed "profiles" "email, full_name";
                            Embed "order_items"
                              "*, product_id, product_name, quantity, unit_price"]
                 |> order "created_at" false) ;;
     throw_if_error r ;;
     ret (with_data (resp_data r)))
    (fun error =>
       console_error "Error fetching orders:" ;;
       ret (failed_fetch "Failed to fetch orders")).

Definition updateOrderStatus (orderId status : string) : M ActionResult :=
  try_catch
    (createClient ;;
     user <- auth_getUser ;;
     match user with
     | None => ret (failure "Not authenticated")
     | Some user_id =>
         iso <- now_iso ;;
         r <- await (from "orders"
                     |> update {[ "status" := VStr status;
                                  "updated_at" := VStr iso ]}
                     |> eq_ "id" orderId) ;;
         throw_if_error r ;;
         await (from "admin_activity_logs"
                |> insert (log_entry user_id "order_status_updated" "order"
                             (VStr orderId)
                             (Some (VObj {[ "new_status" := VStr status ]})))) ;;
         revalidatePath "/admin/orders" ;;
         ret (done_ ("Order status updated to " +:+ status))
     end)
    (fun error =>
       console_error "Error updating order status:" ;;
       ret (failure (err_message error "Failed to update order status"))).

(** [limit] defaults to 100 *)
Definition getActivityLogs (limit_ : option nat) : M ActionResult :=
  try_catch
    (createStaticClient ;;
     r <- await (from "admin_activity_logs"
                 |> select [Star;
                            Embed "admin_staff" "profile_id, position";
                            Embed "profiles" "email, full_name"]
                 |> order "created_at" false
                 |> limit (default 100%nat limit_)) ;;
     throw_if_error r ;;
     ret (with_data (resp_data r)))
    (fun error =>
       console_error "Error fetching activity logs:" ;;
       ret (failed_fetch "Failed to fetch activity logs")).

Inductive Period := Pday | Pweek | Pmonth | Pall.

(** The date range of [getSalesStats]: the text of [dateFilter] after
    the [if (period !== "all")] block. *)
Definition dateFilter (period : Period) : M string :=
  match period with
  | Pall => ret ""
  | _ =>
      now_ms <- Date_now ;;
      d <- gets (fun w => dates (rt w)) ;;
      let startDate :=
        match period with
        | Pday => setDate_back d now_ms 1
        | Pweek => setDate_back d now_ms 7
        | Pmonth => setMonth_back d now_ms 1
        | Pall => 0%Z
        end in
      ret ("created_at >= '" +:+ toISOString d startDate +:+ "'")
  end.

(** [a + b] of the language.  An operand that is a string, an array or
    an object makes it the concatenation of the two texts; otherwise the
    operands are added as numbers, [null] counting as 0 and a boolean as
    0 or 1.  The column [total_amount] is always selected, so a [VNull]
    met by the sum below is a [null] of the database. *)
Definition is_textual (v : value) : bool :=
  match v with
  | VStr _ | VArr _ | VObj _ => true
  | _ => false
  end.

Definition plus (a b : value) : value :=
  if is_textual a || is_textual b
  then VStr (to_text a +:+ to_text b)
  else VNum (to_number a + to_number b).

Definition sum_total_amount (orders : list value) : value :=
  fold_left (fun sum order => plus sum (opt_field order "total_amount"))
            orders (VNum 0).

Definition count_delivered (orders : list value) : nat :=
  length (List.filter (fun o => is_str (opt_field o "status") "delivered")
                      orders).

(** [orders?.f(...) || 0] *)
Definition on_orders (orders : value) (f : list value -> value) : value :=
  or_else (match orders with
           | VArr os => f os
           | _ => VNull
           end) (VNum 0).

Definition sales_stats (orders : value) : value :=
  VObj {[ "totalRevenue" := on_orders orders sum_total_amount;
          "totalOrders" :=
            on_orders orders (fun os => VNum (Z.of_nat (length os)));
          "completedOrders" :=
            on_orders orders (fun os => VNum (Z.of_nat (count_delivered os)));
          "orders" := orders ]}.

(** [period] defaults to ["all"] *)
Definition getSalesStats (period : option Period) : M ActionResult :=
  try_catch
    (createStaticClient ;;
     _ <- dateFilter (default Pall period) ;;
     r <- await (from "orders"
                 |> select [Col "total_amount"; Col "status"; Col "created_at"]
                 |> eq_ "payment_status" "completed") ;;
     throw_if_error r ;;
     ret (with_data (sales_stats (resp_data r))))
    (fun error =>
       console_error "Error fetching sales stats:" ;;
       ret (failed_fetch "Failed to fetch sales statistics")).

Definition getSystemIssues : M ActionResult :=
  try_catch
    (createStaticClient ;;
     ret (with_data (VArr [])))
    (fun error =>
       console_error "Error fetching issues:" ;;
       ret (failed_fetch "Failed to fetch issues")).

Definition getAllAgents : M ActionResult :=
  try_catch
    (createStaticClient ;;
     r <- await (from "profiles" |> select user_columns
                 |> eq_ "role" "agent" |> order "created_at" false) ;;
     throw_if_error r ;;
     ret (with_data (resp_data r)))
    (fun error =>
       console_error "Error fetching agents:" ;;
       ret (failed_fetch "Failed to fetch agents")).

End AdminActions.
Export AdminActions.

(** ** The request middleware *)

Module Middleware.

Record URL := {
  url_origin : string;
  url_path : string;
  searchParams : list (string * string);
}.

Record NextRequest := {
  req_origin : string;      (* scheme and host of [req.url] *)
  pathname : string;        (* [req.nextUrl.pathname] *)
}.

Inductive NextResponse :=
| next (cookies : list Cookie)     (* let the request through *)
| redirect (target : URL).

(** [new URL(path, req.url)] *)
Definition new_URL (path : string) (req : NextRequest) : URL :=
  {| url_origin := req_origin req; url_path := path; searchParams := [] |}.

Definition searchParams_set (k v : string) (u : URL) : URL :=
  {| url_origin := url_origin u; url_path := url_path u;
     searchParams :=
       List.filter (fun kv => negb (String.eqb (fst kv) k)) (searchParams u)
       ++ [(k, v)] |}.

(** [createServerClient(url, key, { cookies })] *)
Definition createServerClient : M unit := external (ret tt).

(** [supabase.auth.getUser()] with the cookie callbacks of the
    middleware: when the auth client has cookies to set, [setAll]
    replaces [res] by a fresh pass-through response carrying them. *)
Definition getUser (res : NextResponse) : M (option string * NextResponse) :=
  f <- next_fault ;;
  match f with
  | Throws e => raise e
  | _ =>
      gets (fun w =>
              (match f with
               | NoFault => session (rt w)
               | _ => None
               end,
               match refresh_cookies (rt w) with
               | Some cookiesToSet => next cookiesToSet
               | None => res
               end))
  end.

Definition adminRoutes : list string :=
  ["/admin/dashboard"; "/admin/roles"; "/admin/users"; "/admin/agents";
   "/admin/sales-log"; "/admin/audit-log"; "/admin/catalog"; "/admin/issues";
   "/admin/orders"].

Definition allowedRoles : list string := ["admin"; "agent"; "chief_admin"].

Definition chiefAdminOnlyRoutes : list string :=
  ["/admin/users"; "/admin/roles"; "/admin/agents"].

Definition agentRestrictedRoutes : list string :=
  ["/admin/audit-log"; "/admin/sales-log"].

Definition protectedCustomerRoutes : list string :=
  ["/shop/history"; "/shop/wishlist"; "/shop/checkout"].

(** [xs.includes(v)] *)
Definition includes (xs : list string) (v : value) : bool :=
  existsb (is_str v) xs.

(** The block under [if (pathname.startsWith("/admin") && ...)]:
    [Some r] when the block returns [r], [None] when control falls out of
    it. *)
Definition admin_block (req : NextRequest) (user : option string)
  : M (option NextResponse) :=
  match user with
  | None => ret (Some (redirect (new_URL "/admin/login" req)))
  | Some user_id =>
      r <- await (from "profiles" |> select [Col "role"]
                  |> eq_ "id" user_id |> single) ;;
      let profile := resp_data r in
      if negb (truthy (opt_field profile "role"))
         || negb (includes allowedRoles (opt_field profile "role"))
      then ret (Some (redirect (new_URL "/" req)))
      else if existsb (startsWith (pathname req)) chiefAdminOnlyRoutes
              && negb (is_str (opt_field profile "role") "chief_admin")
      then ret (Some (redirect (new_URL "/admin/dashboard" req)))
      else if existsb (startsWith (pathname req)) agentRestrictedRoutes
              && is_str (opt_field profile "role") "agent"
      then ret (Some (redirect (new_URL "/admin/dashboard" req)))
      else
        try_catch
          (await (from "admin_activity_logs"
                  |> insert (log_entry user_id "dashboard_access"
                               "admin_dashboard" VNull
                               (Some (VObj {[ "path" :=
                                                VStr (pathname req) ]})))) ;;
           ret tt)
          (fun error => console_error "Failed to log admin access:") ;;
        ret None
  end.

Definition middleware (req : NextRequest) : M NextResponse :=
  createServerClient ;;
  ur <- getUser (next []) ;;
  let user := fst ur in
  let res := snd ur in
  returned <-
    (if startsWith (pathname req) "/admin"
        && negb (String.eqb (pathname req) "/admin/login")
     then admin_block req user
     else ret None) ;;
  match returned with
  | Some r => ret r
  | None =>
      if existsb (startsWith (pathname req)) protectedCustomerRoutes
      then match user with
           | None =>
               ret (redirect (searchParams_set "redirect" (pathname req)
                                (new_URL "/shop/auth" req)))
           | Some _ => ret res
           end
      else ret res
  end.

(** [config.matcher]: the paths for which the framework runs the
    middleware at all. *)
Definition config_matcher : list string :=
  ["/admin/:path*"; "/shop/history"; "/shop/wishlist"; "/shop/checkout"].

End Middleware.

(** ** The FTP upload service *)

Module Ftp.

Record File := {
  file_name : string;
  file_content : string;
}.

Record UploadResult := {
  success : bool;
  url : option string;
  error : option string;
  filename : option string;
}.

Definition upload_failed (msg : string) : UploadResult :=
  {| success := false; url := None; error := Some msg; filename := None |}.

(** [!s] for an environment variable *)
Definition unset (s : option string) : bool :=
  match s with
  | Some v => String.eqb v ""
  | None => true
  end.

Definition getFTPConfig : M (option FTPConfig) :=
  e <- gets (fun w => env (rt w)) ;;
  let host_ := e !! "NAMECHEAP_FTP_HOST" in
  let port_ := e !! "NAMECHEAP_FTP_PORT" in
  let user_ := e !! "NAMECHEAP_FTP_USER" in
  let password_ := e !! "NAMECHEAP_FTP_PASSWORD" in
  let baseUrl_ := e !! "NAMECHEAP_FTP_BASE_URL" in
  if unset host_ || unset user_ || unset password_ || unset baseUrl_
  then
    console_warn
      "FTP configuration is incomplete. Please check environment variables." ;;
    ret None
  else
    ret (Some {| host := default "" host_;
                 port := parseInt (str_or port_ "21");
                 user := default "" user_;
                 password := default "" password_;
                 baseUrl := strip_trailing_slash (default "" baseUrl_) |}).

Definition is_connect (ev : FtpEvent) : bool :=
  match cmd ev with
  | Connect _ => true
  | _ => false
  end.

Definition record_event (ev : FtpEvent) : M unit :=
  modify (fun w => set_ftp_trace (ftp_trace w ++ [ev]) w).

(** One command on client [c]; the server's verdict is the next one of
    the world, and a refusal rejects the promise. *)
Definition ftp_command (c : nat) (command : FtpCmd) : M unit :=
  f <- next_fault ;;
  match f with
  | NoFault =>
      record_event {| conn := c; cmd := command; accepted := true |}
  | ErrorResult e | Throws e =>
      record_event {| conn := c; cmd := command; accepted := false |} ;;
      raise e
  end.

(** [connectFTP(config)]: a new client object; the promise resolves with
    it on ["ready"] and rejects on ["error"]. *)
Definition connectFTP (config : FTPConfig) : M nat :=
  c <- gets (fun w => length (List.filter is_connect (ftp_trace w))) ;;
  ftp_command c (Connect config) ;;
  ret c.

(** [client.end()] *)
Definition client_end (c : nat) : M unit :=
  record_event {| conn := c; cmd := End_; accepted := true |}.

(** [await file.arrayBuffer()] *)
Definition arrayBuffer (file : File) : M string :=
  external (ret (file_content file)).

(** The [for (const part of parts)] loop of [ensureDirectoryExists] *)
Fixpoint ensure_parts (c : nat) (currentPath : string) (parts : list string)
  : M unit :=
  match parts with
  | [] => ret tt
  | part :: rest =>
      let currentPath := currentPath +:+ "/" +:+ part in
      try_catch (ftp_command c (Cwd currentPath))
                (fun _ => ftp_command c (Mkdir currentPath)) ;;
      ensure_parts c currentPath rest
  end.

Definition ensureDirectoryExists (c : nat) (directory : string) : M unit :=
  try_catch
    (ftp_command c (Cwd directory))
    (fun _ =>
       try_catch
         (let parts := List.filter (fun s => negb (String.eqb s ""))
                                   (split "/" directory) in
          ensure_parts c "" parts)
         (fun mkdirError => console_warn "Failed to create directory:")).

(** [if (client) client.end()] of the [finally] blocks *)
Definition close_client : Eff (option nat * World) unit :=
  client <- get_local ;;
  match client with
  | Some c => lift (client_end c)
  | None => ret tt
  end.

(** [folder] defaults to ["products"] *)
Definition uploadFileToFTP (file : File) (folder_ : option string)
  : M UploadResult :=
  let folder := default "products" folder_ in
  config <- getFTPConfig ;;
  match config with
  | None =>
      ret (upload_failed
             "FTP configuration is missing. Please check environment variables.")
  | Some config =>
      with_local None
        (try_finally
           (try_catch
              (timestamp <- lift Date_now ;;
               r36 <- lift (gets (fun w => random36 (rt w))) ;;
               let randomString := substring 2 8 r36 in
               let fileExtension :=
                 str_or (pop (split "." (file_name file))) "file" in
               let filename :=
                 pretty timestamp +:+ "-" +:+ randomString +:+ "."
                 +:+ fileExtension in
               let remotePath := "/" +:+ folder +:+ "/" +:+ filename in
               c <- lift (connectFTP config) ;;
               set_local (Some c) ;;
               buffer <- lift (arrayBuffer file) ;;
               lift (ensureDirectoryExists c folder) ;;
               lift (ftp_command c (Put remotePath buffer)) ;;
               let publicUrl :=
                 baseUrl config +:+ "/" +:+ folder +:+ "/" +:+ filename in
               ret {| success := true; url := Some publicUrl; error := None;
                      filename := Some filename |})
              (fun error =>
                 lift (console_error "FTP upload error:") ;;
                 ret (upload_failed
                        (err_message error "Failed to upload file"))))
           close_client)
  end.

(** The [for (const file of files)] loop of [uploadMultipleFilesToFTP] *)
Fixpoint upload_each (files : list File) (folder : string)
  (results : list UploadResult) : M (list UploadResult) :=
  match files with
  | [] => ret results
  | file :: rest =>
      result <- uploadFileToFTP file (Some folder) ;;
      upload_each rest folder (results ++ [result])
  end.

Definition uploadMultipleFilesToFTP (files : list File)
  (folder_ : option string) : M (list UploadResult) :=
  upload_each files (default "products" folder_) [].

(** The result has the fields [success] and [error] only; [url] and
    [filename] stay absent. *)
Definition deleteFileFromFTP (filename : string) (folder_ : option string)
  : M UploadResult :=
  let folder := default "products" folder_ in
  config <- getFTPConfig ;;
  match config with
  | None => ret (upload_failed "FTP configuration is missing.")
  | Some config =>
      with_local None
        (try_finally
           (try_catch
              (c <- lift (connectFTP config) ;;
               set_local (Some c) ;;
               let remotePath := "/" +:+ folder +:+ "/" +:+ filename in
               lift (ftp_command c (Dele remotePath)) ;;
               ret {| success := true; url := None; error := None;
                      filename := None |})
              (fun error =>
                 lift (console_error "FTP delete error:") ;;
                 ret (upload_failed
                        (err_message error "Failed to delete file"))))
           close_client)
  end.

Definition invalid_url : JsErr :=
  {| is_Error := true; e_message := "Invalid URL"; e_code := "ERR_INVALID_URL" |}.

Definition extractFilenameFromUrl (u : string) : M string :=
  try_catch
    (parse <- gets (fun w => url_pathname (rt w)) ;;
     match parse u with
     | Some pathname => ret (after_last_slash pathname)
     | None => raise invalid_url
     end)
    (fun _ => ret (after_last_slash u)).

End Ftp.

(** ** The cart overlay on whole amounts

    The amounts of the shop are whole: prices in naira and counts of
    items.  This reading serves the rows and the buttons of the overlay;
    the totals as the language computes them follow in [Doubles]. *)

Module Cart.

Record Product := {
  price : Z;
  discount_price : option Z;
}.

Record CartItem := {
  id : string;
  product : option Product;
  quantity : Z;
}.

(** [a || b] on numbers, either possibly [null] or [undefined] *)
Definition num_or (a b : option Z) : option Z :=
  match a with
  | Some n => if Z.eqb n 0 then b else a
  | None => b
  end.

(** [item.product?.discount_price || item.product?.price || 0] *)
Definition item_price (item : CartItem) : Z :=
  default 0%Z
    (num_or (num_or (p ← product item; discount_price p)
                    (price <$> product item))
            (Some 0%Z)).

Definition totalPrice (cart : list CartItem) : Z :=
  fold_left (fun acc item => (acc + item_price item * quantity item)%Z)
            cart 0%Z.

Definition totalItems (cart : list CartItem) : Z :=
  fold_left (fun acc item => (acc + quantity item)%Z) cart 0%Z.

End Cart.

(** ** The cart overlay on the numbers of the language

    Every number of the component is an IEEE 754 double: the prices, the
    quantities and the two totals.  [reduce] adds from the left,
    starting from 0, and every product and sum is rounded. *)

Module Doubles.

Record Product := {
  price : float;
  discount_price : option float;    (* [null] when there is no discount *)
}.

Record CartItem := {
  id : string;
  product : option Product;
  quantity : float;
}.

(** A number is falsy when it is 0, -0 or [NaN]. *)
Definition truthy_num (x : float) : bool :=
  negb (PrimFloat.eqb x 0 || PrimFloat.is_nan x).

(** [a || b] on numbers, either possibly [null] or [undefined] *)
Definition num_or (a b : option float) : option float :=
  match a with
  | Some x => if truthy_num x then a else b
  | None => b
  end.

(** [item.product?.discount_price || item.product?.price || 0] *)
Definition item_price (item : CartItem) : float :=
  default 0%float
    (num_or (num_or (p ← product item; discount_price p)
                    (price <$> product item))
            (Some 0%float)).

(** [cart.reduce((acc, item) => acc + price * item.quantity, 0)] *)
Definition totalPrice (cart : list CartItem) : float :=
  fold_left (fun acc item => (acc + item_price item * quantity item)%float)
            cart 0%float.

(** [cart.reduce((acc, item) => acc + item.quantity, 0)] *)
Definition totalItems (cart : list CartItem) : float :=
  fold_left (fun acc item => (acc + quantity item)%float) cart 0%float.

(** What the overlay shows of the totals: the item count of the header,
    and the total amount of the footer, which is only there under
    [cart.length > 0]; nothing at all when the overlay is closed.  The
    footer prints the total with [toLocaleString]. *)
Record Rendered := {
  shown_items : float;
  shown_total : option float;
}.

Definition CartOverlay (isOpen : bool) (cart : list CartItem)
  : option Rendered :=
  if negb isOpen then None
  else Some {| shown_items := totalItems cart;
               shown_total := if (0 <? length cart)%nat
                              then Some (totalPrice cart) else None |}.

End Doubles.

(** ** Vocabulary of the statements *)

Module Props.

(** The values the specification gives to the four roles. *)
Definition role_value (r : UserRole) : Z :=
  match r with
  | customer => 0
  | agent => 1
  | admin => 2
  | chief_admin => 3
  end.

Definition is_NoFault (f : Fault) : bool :=
  match f with
  | NoFault => true
  | _ => false
  end.

(** The next [n] external calls meet no fault. *)
Definition quiet (n : nat) (w : World) : Prop :=
  forallb is_NoFault (take n (oracle w)) = true.

(** The rows of table [t] whose [id] is [i]. *)
Definition rows_with_id (w : World) (t i : string) : list row :=
  List.filter (matches [("id", i)]) (table w t).

(** User [uid] has exactly one profile row, and its role column holds
    the text [r]. *)
Definition has_role (w : World) (uid r : string) : Prop :=
  exists p : row, rows_with_id w "profiles" uid = [p]
                  /\ p !! "role" = Some (VStr r).

(** The caller of an action: signed in as [uid], whose profile has role
    [r]. *)
Definition caller_is (w : World) (uid r : string) : Prop :=
  session (rt w) = Some uid /\ has_role w uid r.

Definition never_raises {S A} (m : Eff S A) : Prop :=
  forall s, exists a s', m s = (Returns a, s').

(** Whatever [m] returns satisfies [P]. *)
Definition ensures {S A} (m : Eff S A) (P : A -> Prop) : Prop :=
  forall s a s', m s = (Returns a, s') -> P a.

(** [m] always returns, never throws, and what it returns satisfies [P]. *)
Definition answers {S A} (m : Eff S A) (P : A -> Prop) : Prop :=
  forall s, exists a s', m s = (Returns a, s') /\ P a.

(** [m] keeps [I], however it ends. *)
Definition keeps {S A} (I : S -> Prop) (m : Eff S A) : Prop :=
  forall s, I s -> I (snd (m s)).

(** A failure result of an action says why: [{ success: false, error }]. *)
Definition reported (r : ActionResult) : Prop :=
  AdminActions.success r = false ->
  exists msg, AdminActions.error r = Some msg.

Definition upload_reported (r : Ftp.UploadResult) : Prop :=
  Ftp.success r = false -> exists msg, Ftp.error r = Some msg.

(** The world after client [c] got the server's answer to [command]. *)
Definition after_command (c : nat) (command : FtpCmd) (ok : bool) (s : World)
  : World :=
  set_ftp_trace (ftp_trace s ++ [ {| conn := c; cmd := command;
                                     accepted := ok |} ]) (advance s).

(** Table admin_staff holds at most one row with id [t]. *)
Definition staff_key_unique (t : string) (s : World) : Prop :=
  (length (rows_with_id s "admin_staff" t) <= 1)%nat.

(** One of the four settings of the FTP service is missing or empty. *)
Definition ftp_unconfigured (w : World) : bool :=
  Ftp.unset (env (rt w) !! "NAMECHEAP_FTP_HOST")
  || Ftp.unset (env (rt w) !! "NAMECHEAP_FTP_USER")
  || Ftp.unset (env (rt w) !! "NAMECHEAP_FTP_PASSWORD")
  || Ftp.unset (env (rt w) !! "NAMECHEAP_FTP_BASE_URL").

(** [x] is not zero, as a number: neither 0 nor -0. *)
Definition non_zero (x : float) : bool := negb (PrimFloat.eqb x 0).

(** What an item is charged, in the words of the specification: its
    discount price when that is set and not zero, else its price when
    that is not zero, else 0; and 0 when the product is missing. *)
Definition charged (item : Doubles.CartItem) : float :=
  match Doubles.product item with
  | None => 0
  | Some p =>
      match Doubles.discount_price p with
      | Some d => if non_zero d then d
                  else if non_zero (Doubles.price p) then Doubles.price p
                       else 0
      | None => if non_zero (Doubles.price p) then Doubles.price p else 0
      end
  end.

(** [x] is a finite number: neither [NaN] nor an infinity. *)
Definition finite_number (x : float) : bool :=
  match Prim2SF x with
  | S754_zero _ | S754_finite _ _ _ => true
  | S754_infinity _ | S754_nan => false
  end.

(** The sum of the numbers [xs], added one after the other to 0. *)
Definition sum_in_order (xs : list float) : float :=
  fold_left (fun acc x => (acc + x)%float) xs 0%float.

(** No price of the cart is [NaN]; the database sends prices as JSON,
    which has no such number. *)
Definition prices_are_numbers (cart : list Doubles.CartItem) : Prop :=
  Forall (fun item =>
            match Doubles.product item with
            | None => True
            | Some p =>
                PrimFloat.is_nan (Doubles.price p) = false
                /\ match Doubles.discount_price p with
                   | Some d => PrimFloat.is_nan d = false
                   | None => True
                   end
            end) cart.

(** The orders whose payment is completed, as the sales report lists
    them. *)
Definition completed_orders (w : World) : list value :=
  map (fun r : row =>
         VObj {[ "total_amount" := column r "total_amount";
                 "status" := column r "status";
                 "created_at" := column r "created_at" ]})
      (List.filter (fun r => is_str (column r "payment_status") "completed")
                   (table w "orders")).

(** A connection that the server accepted. *)
Definition established (ev : FtpEvent) : bool :=
  Ftp.is_connect ev && accepted ev.

(** Every connection established within [evs] is ended by the last event
    of [evs]. *)
Definition all_closed (evs : list FtpEvent) : Prop :=
  forall ev, In ev evs -> established ev = true ->
             last evs = Some {| conn := conn ev; cmd := End_;
                                accepted := true |}.

(** The trace of [s] is [t] followed by events none of which
    establishes a connection. *)
Definition extends_quietly (t : list FtpEvent) (s : World) : Prop :=
  exists evs, ftp_trace s = t ++ evs
              /\ Forall (fun ev => established ev = false) evs.

End Props.
Export Props.

(** ** A small shop, for running the code *)

Module Examples.

Definition shop_runtime (who : option string) (rnd : string) : Runtime :=
  {| session := who;
     refresh_cookies := None;
     related := fun _ _ _ _ _ => VNull;
     pg_is_Error := false;
     now := 1700000000000%Z;
     dates := {| setDate_back := fun t n => (t - n * 86400000)%Z;
                 setMonth_back := fun t n => (t - n * 2592000000)%Z;
                 toISOString := fun t => pretty t |};
     random36 := rnd;
     env := {[ "NAMECHEAP_FTP_HOST" := "ftp.jradianceco.com";
               "NAMECHEAP_FTP_USER" := "uploader";
               "NAMECHEAP_FTP_PASSWORD" := "secret";
               "NAMECHEAP_FTP_BASE_URL" := "https://files.jradianceco.com/" ]};
     url_pathname := fun _ => None |}.

Definition profile_row (uid r : string) : row :=
  {[ "id" := VStr uid; "role" := VStr r; "is_active" := VBool true ]}.

Definition order_row (oid : string) (amount : Z) (status payment : string)
  : row :=
  {[ "id" := VStr oid; "total_amount" := VNum amount;
     "status" := VStr status; "payment_status" := VStr payment;
     "created_at" := VStr "2023-11-14T22:13:20.000Z" ]}.

Definition shop_tables : gmap string (list row) :=
  {[ "profiles" := [profile_row "u1" "chief_admin"; profile_row "u2" "agent";
                    profile_row "u3" "customer"];
     "admin_staff" := [staff_row "u2" agent 1690000000000%Z];
     "orders" := [order_row "o1" 5000 "delivered" "completed";
                  order_row "o2" 2500 "pending" "completed";
                  order_row "o3" 900 "pending" "pending"] ]}.

(** The shop as user [who] sees it, with the verdicts [faults] to come. *)
Definition shop (who : option string) (faults : list Fault) : World :=
  {| rt := shop_runtime who "0.4fzyo82mvyr"; oracle := faults;
     tables := shop_tables; next_id := 0; revalidated := []; console := [];
     ftp_trace := [] |}.

(** The same shop on a day when [Math.random()] draws 0.5, which base 36
    writes as ["0.i"]. *)
Definition shop_half (who : option string) : World :=
  {| rt := shop_runtime who "0.i"; oracle := [];
     tables := shop_tables; next_id := 0; revalidated := []; console := [];
     ftp_trace := [] |}.

Definition duplicate_key : JsErr :=
  {| is_Error := false;
     e_message := "duplicate key value violates unique constraint";
     e_code := "23505" |}.

(** The shop with no FTP settings in the environment. *)
Definition shop_without_ftp : World :=
  {| rt := {| session := None; refresh_cookies := None;
              related := fun _ _ _ _ _ => VNull; pg_is_Error := false;
              now := 1700000000000%Z;
              dates := dates (shop_runtime None "0.i");
              random36 := "0.4fzyo82mvyr"; env := ∅;
              url_pathname := fun _ => None |};
     oracle := []; tables := shop_tables; next_id := 0; revalidated := [];
     console := []; ftp_trace := [] |}.

Definition denied : JsErr :=
  {| is_Error := false; e_message := "permission denied for table admin_staff";
     e_code := "42501" |}.

Definition photo : Ftp.File :=
  {| Ftp.file_name := "serum.front.png"; Ftp.file_content := "PNG" |}.

Definition basket : list Doubles.CartItem :=
  [ {| Doubles.id := "serum"; Doubles.quantity := 2;
       Doubles.product := Some {| Doubles.price := 12000;
                                  Doubles.discount_price := Some 9500%float |} |};
    {| Doubles.id := "soap"; Doubles.quantity := 3;
       Doubles.product := Some {| Doubles.price := 1500;
                                  Doubles.discount_price := Some 0%float |} |};
    {| Doubles.id := "gone"; Doubles.quantity := 4;
       Doubles.product := None |} ].

(** Three items of one piece each, priced at the doubles next to 0.1,
    0.2 and 0.3. *)
Definition coins : list Doubles.CartItem :=
  map (fun pr => {| Doubles.id := "coin"; Doubles.quantity := 1;
                    Doubles.product :=
                      Some {| Doubles.price := pr;
                              Doubles.discount_price := None |} |})
      [0x1.999999999999ap-4; 0x1.999999999999ap-3; 0x1.3333333333333p-2]%float.

Definition request (path : string) : Middleware.NextRequest :=
  {| Middleware.req_origin := "https://jradianceco.com";
     Middleware.pathname := path |}.

End Examples.
Export Examples.


(** ** Further vocabulary: what a call leaves alone *)

Module Notions.

(** A property of the world that looks at the tables only. *)
Definition on_tables (P : gmap string (list row) -> Prop) (s : World)
  : Prop := P (tables s).

(** A property of the tables that looks at table [t] only. *)
Definition on_table (t : string) (Q : list row -> Prop)
  (tabs : gmap string (list row)) : Prop := Q (default [] (tabs !! t)).

(** Running [q] keeps [P], whatever the world. *)
Definition query_keeps (P : gmap string (list row) -> Prop) (q : query)
  : Prop :=
  forall w, P (tables w) -> P (tables (snd (run_query w q))).

(** [after] is [before] with rows added at the end: no row of [before]
    is removed, changed or moved. *)
Definition grown_from (before after : list row) : Prop :=
  exists added, after = before ++ added.

(** Running [m] in [w] leaves the profile rows and the staff rows of
    user [other] exactly as they are. *)
Definition leaves_user {A} (other : string) (m : M A) (w : World) : Prop :=
  rows_with_id (snd (m w)) "profiles" other = rows_with_id w "profiles" other
  /\ rows_with_id (snd (m w)) "admin_staff" other
     = rows_with_id w "admin_staff" other.

(** Running [m] in [w] only adds rows at the end of the audit log. *)
Definition log_only_grows {A} (m : M A) (w : World) : Prop :=
  grown_from (table w "admin_activity_logs")
             (table (snd (m w)) "admin_activity_logs").

(** The call ends with [{ success: false, error }] and has changed no
    table. *)
Definition refused (m : M ActionResult) (w : World) : Prop :=
  exists msg, fst (m w) = Returns (failure msg)
              /\ tables (snd (m w)) = tables w.

(** The role that the opening of [checkPermission] and of
    [getAdminPermissions] reads: the role column of the caller's profile,
    when the client, the session and the profile query all answer and
    the session has exactly one profile row. *)
Definition seen_role (w : World) : option value :=
  if forallb is_NoFault (take 3 (oracle w)) then
    uid ← session (rt w);
    match rows_with_id w "profiles" uid with
    | [p] => Some (column p "role")
    | _ => None
    end
  else None.

End Notions.
Export Notions.

(** ** Vocabulary for the route guard *)

Module Routes.
Import Middleware.

(** The four places the middleware sends a request to. *)
Definition redirect_targets : list string :=
  ["/admin/login"; "/"; "/admin/dashboard"; "/shop/auth"].

(** The request that a browser makes when it follows redirect [u]. *)
Definition follow (u : URL) : NextRequest :=
  {| req_origin := url_origin u; pathname := url_path u |}.

Definition is_next (r : NextResponse) : bool :=
  match r with
  | next _ => true
  | redirect _ => false
  end.

(** The pass-through response of a run: fresh when the auth client set
    cookies, else the one made at the start. *)
Definition passed (w : World) : NextResponse :=
  match refresh_cookies (rt w) with
  | Some cookiesToSet => next cookiesToSet
  | None => next []
  end.

(** The row that the middleware writes for a visit of [uid] to [path]. *)
Definition access_entry (uid path : string) : row :=
  log_entry uid "dashboard_access" "admin_dashboard" VNull
            (Some (VObj {[ "path" := VStr path ]})).

End Routes.
Export Routes.

(** ** Vocabulary for the FTP service *)

(** ** Faults that a call meets *)

Module Failures.

(** The verdicts that a call used up: those at the head of the list of
    [w] that are gone in [w'], the first of them for the first external
    call of the function. *)
Definition consumed (w w' : World) : list Fault :=
  take (length (oracle w) - length (oracle w')) (oracle w).

(** What a function does not look at: [skip k e] says that the code
    ignores the error [e] in the result of its external call number
    [k], counted from 0. *)
Definition Policy := nat -> JsErr -> bool.

(** The calls at the positions [ks] have their [{ error }] ignored. *)
Definition unchecked (ks : list nat) : Policy :=
  fun k _ => existsb (Nat.eqb k) ks.

(** [promoteUser]: the result of the audit-log insert is never looked
    at; it is call 4 for the role customer and call 5 otherwise, where
    call 4 is the insert into admin_staff, whose error is ignored when
    its code is 23505. *)
Definition promoteUser_policy (newRole : UserRole) : Policy :=
  fun k e =>
    if role_eqb newRole customer then Nat.eqb k 4
    else (Nat.eqb k 4 && String.eqb (e_code e) "23505") || Nat.eqb k 5.

(** The verdict [f] on call [k] is a failure that [skip] does not
    excuse: a thrown exception, or an error result that the code looks
    at. *)
Definition counts (skip : Policy) (k : nat) (f : Fault) : Prop :=
  match f with
  | NoFault => False
  | Throws _ => True
  | ErrorResult e => skip k e = false
  end.

(** Between [w] and [w'] some external call failed and was not
    excused. *)
Definition met_fault (skip : Policy) (w w' : World) : Prop :=
  exists k f, consumed w w' !! k = Some f /\ counts skip k f.

(** [{ success: false, error: <string> }] *)
Definition is_failure (r : ActionResult) : Prop :=
  AdminActions.success r = false
  /\ exists msg, AdminActions.error r = Some msg.

(** Whenever a call of [m] meets a failure that [skip] does not excuse,
    it returns, and what it returns satisfies [bad]. *)
Definition fails_on_fault {A} (skip : Policy) (bad : A -> Prop) (m : M A)
  : Prop :=
  forall w, met_fault skip w (snd (m w)) ->
            exists a, fst (m w) = Returns a /\ bad a.

(** State [s] is [n] external calls after [w0], none of which met a
    failure that counts. *)
Definition at_pos (skip : Policy) (w0 : World) (n : nat) (s : World) : Prop :=
  oracle s = Nat.iter n (@tail Fault) (oracle w0)
  /\ forall k f, (k < n)%nat -> oracle w0 !! k = Some f -> ~ counts skip k f.

(** From [n] calls after [w0] on, the rest [m] of a body returns a value
    that satisfies [bad] unless it ends, once more, some calls after
    [w0] with no failure that counts. *)
Definition guarded {A} (skip : Policy) (bad : A -> Prop) (w0 : World)
  (n : nat) (m : M A) : Prop :=
  forall s, at_pos skip w0 n s ->
            match m s with
            | (Returns a, s') => bad a \/ exists n', at_pos skip w0 n' s'
            | (Raises _, _) => True
            end.

(** Whatever [m] returns satisfies [bad]. *)
Definition doomed {A} (bad : A -> Prop) (m : M A) : Prop :=
  forall s, match m s with
            | (Returns a, _) => bad a
            | (Raises _, _) => True
            end.

(** [m] makes no external call. *)
Definition silent {A} (m : M A) : Prop :=
  forall s, oracle (snd (m s)) = oracle s.

End Failures.
Export Failures.

Module Transfers.
Import Ftp.

(** The path a directory command names, if it is one. *)
Definition dir_path (command : FtpCmd) : option string :=
  match command with
  | Cwd p | Mkdir p => Some p
  | _ => None
  end.

(** The directories on the way to [parts], each given by its full path
    from the root: /a, /a/b, /a/b/c. *)
Fixpoint climb (currentPath : string) (parts : list string) : list string :=
  match parts with
  | [] => []
  | part :: rest =>
      (currentPath +:+ "/" +:+ part)
      :: climb (currentPath +:+ "/" +:+ part) rest
  end.

(** The non-empty segments of a directory name. *)
Definition segments (directory : string) : list string :=
  List.filter (fun s => negb (String.eqb s "")) (split "/" directory).

(** An upload that the server accepted. *)
Definition is_stored (ev : FtpEvent) : bool :=
  match cmd ev with
  | Put _ _ => accepted ev
  | _ => false
  end.

(** A removal that the server accepted. *)
Definition is_removed (ev : FtpEvent) : bool :=
  match cmd ev with
  | Dele _ => accepted ev
  | _ => false
  end.

(** [s.includes("/")] *)
Definition has_slash (s : string) : bool :=
  existsb (Ascii.eqb "/") (list_ascii_of_string s).

(** A command that the server refused and that is not one of the
    directory commands, whose refusal the code expects. *)
Definition is_refusal (ev : FtpEvent) : bool :=
  match dir_path (cmd ev) with
  | Some _ => false
  | None => negb (accepted ev)
  end.

(** The commands sent between [w] and [w']. *)
Definition sent (w w' : World) : list FtpEvent :=
  drop (length (ftp_trace w)) (ftp_trace w').

(** [{ success: false, error: <string> }] of the FTP service *)
Definition is_upload_failure (r : UploadResult) : Prop :=
  Ftp.success r = false /\ exists msg, Ftp.error r = Some msg.

(** What a run of directory commands on client [c] leaves behind: the
    events [evs], each a [cwd] or [mkdir] of client [c] on one of
    [paths]. *)
Definition dir_run (c : nat) (paths : list string) (s s' : World)
  (evs : list FtpEvent) : Prop :=
  ftp_trace s' = ftp_trace s ++ evs
  /\ rt s' = rt s
  /\ Forall (fun ev => conn ev = c
                       /\ exists p, dir_path (cmd ev) = Some p /\ In p paths)
            evs.

End Transfers.
Export Transfers.

(** ** The cart overlay, line by line *)

Module CartView.
Import Cart.

(** What a click asks of the parent component. *)
Inductive Request :=
| RemoveItem (item_id : string)                    (* [onRemoveItem(id)] *)
| UpdateQuantity (item_id : string) (delta : Z).   (* [onUpdateQuantity] *)

(** [onClick] of the button left of the quantity *)
Definition minus_click (item : CartItem) : Request :=
  if Z.eqb (quantity item) 1 then RemoveItem (id item)
  else UpdateQuantity (id item) (-1).

(** [onClick] of the button right of the quantity *)
Definition plus_click (item : CartItem) : Request :=
  UpdateQuantity (id item) 1.

(** One row of the list. *)
Record Line := {
  line_price : Z;           (* the price shown under the name *)
  line_quantity : Z;
  trash_icon : bool;        (* the left button shows a bin, not a minus *)
  on_minus : Request;
  on_plus : Request;
}.

Definition line (item : CartItem) : Line :=
  {| line_price := item_price item;
     line_quantity := quantity item;
     trash_icon := Z.eqb (quantity item) 1;
     on_minus := minus_click item;
     on_plus := plus_click item |}.

(** The open overlay: the count of the header, the rows ([None]: the
    text "Your cart is empty"), and the footer with the total amount
    and the checkout link ([None]: no footer). *)
Record View := {
  header_count : Z;
  lines : option (list Line);
  footer_total : option Z;
}.

Definition render (isOpen : bool) (cart : list CartItem) : option View :=
  if negb isOpen then None
  else Some {| header_count := totalItems cart;
               lines := if (0 <? length cart)%nat then Some (map line cart)
                        else None;
               footer_total := if (0 <? length cart)%nat
                               then Some (totalPrice cart) else None |}.

(** The sum of price times quantity over the rows shown. *)
Definition lines_sum (ls : list Line) : Z :=
  foldr (fun l acc => (line_price l * line_quantity l + acc)%Z) 0%Z ls.

End CartView.
Export CartView.

(** ** The robots file *)

Module Robots.

Record Rule := {
  userAgent : string;
  allow : list string;
  disallow : list string;
}.

Record RobotsFile := {
  rules : list Rule;
  sitemap : list string;
  robots_host : string;       (* the field [host] *)
}.

(** [process.env.NEXT_PUBLIC_BASE_URL || "https://jradianceco.com"] *)
Definition getBaseUrl : M string :=
  gets (fun w => str_or (env (rt w) !! "NEXT_PUBLIC_BASE_URL")
                        "https://jradianceco.com").

Definition robots : M RobotsFile :=
  baseUrl <- getBaseUrl ;;
  ret {| rules :=
           [ {| userAgent := "*";
                allow := ["/"; "/shop"; "/products"; "/about-us"];
                disallow := ["/admin"; "/api"; "/_next"; "/static";
                             "/*.json$"; "/*?*sort="; "/*?*filter="] |};
             {| userAgent := "Googlebot";
                allow := ["/"; "/shop"; "/products"; "/about-us"];
                disallow := ["/admin"; "/api"] |};
             {| userAgent := "Googlebot-Image";
                allow := ["/products"; "/shop"];
                disallow := ["/admin"] |} ];
         sitemap := [baseUrl +:+ "/sitemap.xml"];
         robots_host := baseUrl |}.

End Robots.

(** ** A stocked shop, for running the product actions *)

Module Stock.

Definition product_item (pid : string) (amount : Z) (active : bool) : row :=
  {[ "id" := VStr pid; "name" := VStr "Radiance serum";
     "price" := VNum amount; "is_active" := VBool active ]}.

(** The shop of the examples with two products on the shelf. *)
Definition stocked (who : option string) (faults : list Fault) : World :=
  set_tables (<["products" := [product_item "p1" 12000 true;
                               product_item "p2" 1500 false]]>
                (tables (shop who faults)))
             (shop who faults).

Definition serum : ProductData :=
  {| name := "Glow serum"; slug := "glow-serum"; description := None;
     category := "skin"; price := 9000; discount_price := Some 7500%Z;
     stock_quantity := 12; sku := None; images := ["glow.png"];
     attributes := ∅ |}.

End Stock.
Export Stock.

(** ** Running computations: one equation per step *)

Lemma bind_run {S A B} (m : Eff S A) (k : A -> Eff S B) s :
  bind m k s = match m s with
               | (Returns a, s') => k a s'
               | (Raises e, s') => (Raises e, s')
               end.
Proof. reflexivity. Qed.

Lemma try_catch_run {S A} (body : Eff S A) handler s :
  try_catch body handler s = match body s with
                             | (Returns a, s') => (Returns a, s')
                             | (Raises e, s') => handler e s'
                             end.
Proof. reflexivity. Qed.

Lemma external_run {A} (work : M A) w :
  external work w = match hd NoFault (oracle w) with
                    | NoFault => work (advance w)
                    | ErrorResult e | Throws e => (Raises e, advance w)
                    end.
Proof.
  unfold external, next_fault. rewrite bind_run.
  now destruct (hd NoFault (oracle w)).
Qed.

Lemma auth_getUser_run w :
  auth_getUser w = match hd NoFault (oracle w) with
                   | NoFault => (Returns (session (rt w)), advance w)
                   | ErrorResult _ => (Returns None, advance w)
                   | Throws e => (Raises e, advance w)
                   end.
Proof.
  unfold auth_getUser, next_fault. rewrite bind_run.
  now destruct (hd NoFault (oracle w)).
Qed.

Lemma await_run q w :
  await q w = match hd NoFault (oracle w) with
              | NoFault => (Returns (fst (run_query (advance w) q)),
                            snd (run_query (advance w) q))
              | ErrorResult e => (Returns (failed e), advance w)
              | Throws e => (Raises e, advance w)
              end.
Proof.
  unfold await, next_fault. rewrite bind_run.
  destruct (hd NoFault (oracle w)); try reflexivity.
  now destruct (run_query (advance w) q).
Qed.

Lemma quiet_S n w :
  quiet (S n) w -> hd NoFault (oracle w) = NoFault /\ quiet n (advance w).
Proof.
  unfold quiet, advance. destruct w as [r o t i v c f]; simpl.
  destruct o as [|[| |] o]; simpl; try discriminate.
  - split; [reflexivity|]. now destruct n.
  - auto.
Qed.

Lemma quiet_le n m w : (n <= m)%nat -> quiet m w -> quiet n w.
Proof.
  unfold quiet. generalize (oracle w) as o. revert m.
  induction n as [|n IH]; intros m o Hle H; [reflexivity|].
  destruct m as [|m]; [lia|]. destruct o as [|f o]; [reflexivity|].
  simpl in *. apply andb_true_iff in H as [-> H]. simpl.
  apply (IH m); [lia|exact H].
Qed.

Lemma external_quiet {A} (work : M A) w :
  hd NoFault (oracle w) = NoFault -> external work w = work (advance w).
Proof. intros H. now rewrite external_run, H. Qed.

Lemma await_quiet q w :
  hd NoFault (oracle w) = NoFault ->
  await q w = (Returns (fst (run_query (advance w) q)),
               snd (run_query (advance w) q)).
Proof. intros H. now rewrite await_run, H. Qed.

(** *** Reading the caller's role *)

Lemma select_role_found w uid p :
  rows_with_id w "profiles" uid = [p] ->
  run_query w (select_role uid)
  = (ok (VObj {[ "role" := column p "role" ]}), w).
Proof.
  intros H. unfold run_query, select_role, run_select, rows_with_id in *.
  simpl. rewrite H. reflexivity.
Qed.

Lemma select_role_missing w uid :
  rows_with_id w "profiles" uid = [] ->
  resp_data (fst (run_query w (select_role uid))) = VNull.
Proof.
  intros H. unfold run_query, select_role, run_select, rows_with_id in *.
  simpl. rewrite H. reflexivity.
Qed.

Lemma select_role_data w uid :
  snd (run_query w (select_role uid)) = w
  /\ (resp_data (fst (run_query w (select_role uid))) = VNull
      \/ exists p, rows_with_id w "profiles" uid = [p]
                   /\ resp_data (fst (run_query w (select_role uid)))
                      = VObj {[ "role" := column p "role" ]}).
Proof.
  split; [reflexivity|].
  unfold run_query, select_role, run_select, rows_with_id. simpl.
  destruct (List.filter _ _) as [|p [|q l]]; simpl; eauto.
Qed.

Lemma opt_field_role (v : value) :
  opt_field (VObj {[ "role" := v ]}) "role" = v.
Proof. unfold opt_field. now rewrite lookup_singleton_eq. Qed.

Lemma column_role (p : row) r :
  p !! "role" = Some (VStr r) -> column p "role" = VStr r.
Proof. intros H. unfold column. now rewrite H. Qed.

Lemma hierarchy_at_role r :
  hierarchy_at (VStr (role_name r)) = Some (role_value r).
Proof. destruct r; vm_compute; reflexivity. Qed.

Lemma roleHierarchy_role r :
  roleHierarchy !! role_name r = Some (role_value r).
Proof. destruct r; vm_compute; reflexivity. Qed.

(** Unfolds one statement of a body and names the verdict it meets. *)
Ltac step :=
  repeat first [ rewrite bind_run | rewrite try_catch_run ];
  first [ rewrite external_run | rewrite auth_getUser_run | rewrite await_run ];
  cbn [rt advance set_oracle].

Ltac calm H := step; rewrite H; cbn [ret rt advance set_oracle fst snd].

(** C1: for a signed-in caller whose profile holds one of the four
    roles, [checkPermission requiredRole] returns the truth value of
    "the caller's role value is at least the required role's value" under
    customer(0) < agent(1) < admin(2) < chief_admin(3); without a signed-in
    user, or without a profile row, it returns false. *)
Theorem checkPermission_role_hierarchy (requiredRole : UserRole) (w : World) :
  (forall uid r,
      quiet 3 w -> caller_is w uid (role_name r) ->
      fst (checkPermission requiredRole w)
      = Returns (bool_decide (role_value r >= role_value requiredRole)%Z))
  /\ (session (rt w) = None ->
      fst (checkPermission requiredRole w) = Returns false)
  /\ (forall uid,
        session (rt w) = Some uid -> rows_with_id w "profiles" uid = [] ->
        fst (checkPermission requiredRole w) = Returns false).
Proof.
  split; [|split].
  - intros uid r Hq [Hs (p & Hp & Hr)].
    apply quiet_S in Hq as [H1 Hq]. apply quiet_S in Hq as [H2 Hq].
    apply quiet_S in Hq as [H3 _].
    unfold checkPermission, createClient.
    calm H1. calm H2. rewrite Hs. calm H3.
    rewrite select_role_found with (p := p) by exact Hp.
    cbn [fst snd resp_data ok truthy negb prop].
    rewrite bind_run. unfold ret at 1.
    rewrite opt_field_role, (column_role _ _ Hr).
    rewrite hierarchy_at_role, roleHierarchy_role. cbn [js_ge fst ret].
    f_equal. destruct r, requiredRole; reflexivity.
  - intros Hs. unfold checkPermission, createClient.
    step. destruct (hd NoFault (oracle w)); try reflexivity.
    cbn [ret]. step. rewrite Hs.
    destruct (hd NoFault (oracle (advance w))); reflexivity.
  - intros uid Hs Hp. unfold checkPermission, createClient.
    step. destruct (hd NoFault (oracle w)); try reflexivity.
    cbn [ret]. step. rewrite Hs.
    destruct (hd NoFault (oracle (advance w))); try reflexivity.
    step. destruct (hd NoFault (oracle (advance (advance w)))); try reflexivity.
    cbn [fst snd].
    rewrite (select_role_missing (advance (advance (advance w))) uid Hp).
    reflexivity.
Qed.

Lemma checkPermission_role_hierarchy_witness :
  (quiet 3 (shop (Some "u2") [])
   /\ caller_is (shop (Some "u2") []) "u2" (role_name agent))
  /\ fst (checkPermission admin (shop (Some "u2") [])) = Returns false
  /\ fst (checkPermission agent (shop (Some "u2") [])) = Returns true
  /\ fst (checkPermission customer (shop None [])) = Returns false
  /\ fst (checkPermission customer (shop (Some "u9") [])) = Returns false.
Proof.
  assert (Hq : quiet 3 (shop (Some "u2") [])) by reflexivity.
  assert (Hc : caller_is (shop (Some "u2") []) "u2" (role_name agent)).
  { split; [reflexivity|]. exists (profile_row "u2" "agent").
    split; vm_compute; reflexivity. }
  split; [split; assumption|].
  split;
    [exact (proj1 (checkPermission_role_hierarchy admin _) "u2" agent Hq Hc)|].
  split;
    [exact (proj1 (checkPermission_role_hierarchy agent _) "u2" agent Hq Hc)|].
  split.
  - apply (proj1 (proj2 (checkPermission_role_hierarchy customer
                           (shop None [])))).
    reflexivity.
  - apply (proj2 (proj2 (checkPermission_role_hierarchy customer
                           (shop (Some "u9") []))) "u9");
      reflexivity.
Defined.

(** *** The route guard *)

Import Middleware.

Lemma prefix_split (p s : string) :
  String.prefix p s = true -> exists rest, s = p +:+ rest.
Proof.
  revert s. induction p as [|a p IH]; intros s H.
  - exists s. reflexivity.
  - destruct s as [|b s]; [discriminate|]. simpl in H.
    destruct (ascii_dec a b) as [->|]; [|discriminate].
    destruct (IH _ H) as [rest ->]. exists rest. reflexivity.
Qed.

Lemma createServerClient_quiet w :
  hd NoFault (oracle w) = NoFault ->
  createServerClient w = (Returns tt, advance w).
Proof. intros H. unfold createServerClient. now rewrite external_quiet. Qed.

Lemma getUser_quiet res w :
  hd NoFault (oracle w) = NoFault ->
  getUser res w
  = (Returns (session (rt w),
              match refresh_cookies (rt w) with
              | Some cookiesToSet => next cookiesToSet
              | None => res
              end), advance w).
Proof.
  intros H. unfold getUser, next_fault. rewrite bind_run. cbn [fst snd].
  rewrite H. reflexivity.
Qed.

(** The first two statements of the middleware, when nothing fails. *)
Lemma middleware_quiet req w :
  quiet 2 w ->
  middleware req w
  = bind (if startsWith (pathname req) "/admin"
             && negb (String.eqb (pathname req) "/admin/login")
          then admin_block req (session (rt w))
          else ret None)
      (fun returned =>
         match returned with
         | Some r => ret r
         | None =>
             let res := match refresh_cookies (rt w) with
                        | Some cookiesToSet => next cookiesToSet
                        | None => next []
                        end in
             if existsb (startsWith (pathname req)) protectedCustomerRoutes
             then match session (rt w) with
                  | None =>
                      ret (redirect (searchParams_set "redirect" (pathname req)
                                       (new_URL "/shop/auth" req)))
                  | Some _ => ret res
                  end
             else ret res
         end) (advance (advance w)).
Proof.
  intros Hq. apply quiet_S in Hq as [H1 Hq]. apply quiet_S in Hq as [H2 _].
  unfold middleware. rewrite bind_run, createServerClient_quiet by assumption.
  rewrite bind_run, getUser_quiet by assumption. reflexivity.
Qed.

(** C2: a request whose path starts with /admin/audit-log or
    /admin/sales-log, made by a signed-in user whose profile role is
    agent, is answered by a redirect to /admin/dashboard; the request is
    not let through and nothing but the three verdicts is used up. *)
Theorem middleware_agent_restricted (w : World) (req : NextRequest)
  (uid : string) :
  quiet 3 w ->
  caller_is w uid "agent" ->
  startsWith (pathname req) "/admin/audit-log" = true
  \/ startsWith (pathname req) "/admin/sales-log" = true ->
  middleware req w
  = (Returns (redirect {| url_origin := req_origin req;
                          url_path := "/admin/dashboard";
                          searchParams := [] |}),
     advance (advance (advance w))).
Proof.
  intros Hq [Hs (p & Hp & Hr)] Hpath.
  assert (Hq2 : quiet 2 w) by (apply (quiet_le 2 3); [lia|exact Hq]).
  apply quiet_S in Hq as [_ Hq]. apply quiet_S in Hq as [_ Hq].
  apply quiet_S in Hq as [H3 _].
  rewrite middleware_quiet by assumption. rewrite Hs.
  destruct req as [o path]. cbn [pathname req_origin] in *.
  assert (Hguard :
            startsWith path "/admin" && negb (String.eqb path "/admin/login")
            = true
            /\ existsb (startsWith path) chiefAdminOnlyRoutes = false
            /\ existsb (startsWith path) agentRestrictedRoutes = true).
  { unfold startsWith in *.
    destruct Hpath as [H|H]; apply prefix_split in H as [rest ->];
      repeat split; try reflexivity; destruct rest; reflexivity. }
  destruct Hguard as (Hg1 & Hg2 & Hg3). rewrite Hg1.
  rewrite bind_run. unfold admin_block.
  rewrite bind_run, await_quiet by assumption.
  change (from "profiles" |> select [Col "role"] |> eq_ "id" uid |> single)
    with (select_role uid).
  rewrite select_role_found with (p := p) by exact Hp.
  cbn [fst snd resp_data ok pathname].
  rewrite opt_field_role, (column_role _ _ Hr), Hg2, Hg3.
  reflexivity.
Qed.

Lemma middleware_agent_restricted_witness :
  (quiet 3 (shop (Some "u2") [])
   /\ caller_is (shop (Some "u2") []) "u2" "agent"
   /\ (startsWith (pathname (request "/admin/audit-log/2024"))
         "/admin/audit-log" = true
       \/ startsWith (pathname (request "/admin/audit-log/2024"))
            "/admin/sales-log" = true))
  /\ fst (middleware (request "/admin/audit-log/2024") (shop (Some "u2") []))
     = Returns (redirect {| url_origin := "https://jradianceco.com";
                            url_path := "/admin/dashboard";
                            searchParams := [] |}).
Proof.
  assert (Hq : quiet 3 (shop (Some "u2") [])) by reflexivity.
  assert (Hc : caller_is (shop (Some "u2") []) "u2" "agent").
  { split; [reflexivity|]. exists (profile_row "u2" "agent").
    split; vm_compute; reflexivity. }
  assert (Hp : startsWith (pathname (request "/admin/audit-log/2024"))
                 "/admin/audit-log" = true
               \/ startsWith (pathname (request "/admin/audit-log/2024"))
                    "/admin/sales-log" = true) by (left; reflexivity).
  split; [auto|].
  rewrite (middleware_agent_restricted _ (request "/admin/audit-log/2024")
             "u2" Hq Hc Hp).
  reflexivity.
Defined.

(** C5, as stated, fails at the login page: /admin/login is a path under
    /admin, and a request to it without a signed-in user is let through. *)
Lemma middleware_login_page_let_through :
  startsWith (pathname (request "/admin/login")) "/admin" = true
  /\ session (rt (shop None [])) = None
  /\ fst (middleware (request "/admin/login") (shop None []))
     = Returns (next []).
Proof. repeat split; vm_compute; reflexivity. Qed.

(** C5, amended: without a signed-in user, a request to a path that
    starts with /admin and is not /admin/login itself is redirected to
    /admin/login, and a request to a path that starts with /shop/history,
    /shop/wishlist or /shop/checkout is redirected to /shop/auth with the
    path in the query parameter [redirect]; a request to /admin/login
    itself is let through. *)
Theorem middleware_requires_user (w : World) (req : NextRequest) :
  quiet 2 w ->
  session (rt w) = None ->
  (startsWith (pathname req) "/admin" = true ->
   pathname req <> "/admin/login" ->
   middleware req w
   = (Returns (redirect {| url_origin := req_origin req;
                           url_path := "/admin/login";
                           searchParams := [] |}),
      advance (advance w)))
  /\ (existsb (startsWith (pathname req)) protectedCustomerRoutes = true ->
      middleware req w
      = (Returns (redirect {| url_origin := req_origin req;
                              url_path := "/shop/auth";
                              searchParams := [("redirect", pathname req)] |}),
         advance (advance w)))
  /\ (pathname req = "/admin/login" ->
      exists cookies, fst (middleware req w) = Returns (next cookies)).
Proof.
  intros Hq Hs. rewrite middleware_quiet by assumption. rewrite Hs.
  destruct req as [o path]. cbn [pathname req_origin].
  split; [|split].
  - intros Hp Hne. rewrite Hp.
    apply String.eqb_neq in Hne. rewrite Hne. reflexivity.
  - intros Hp.
    assert (Hadmin : startsWith path "/admin" = false).
    { unfold protectedCustomerRoutes, startsWith in *. simpl in Hp.
      rewrite orb_false_r in Hp.
      apply orb_true_iff in Hp as [Hp|Hp];
        [|apply orb_true_iff in Hp as [Hp|Hp]];
        apply prefix_split in Hp as [rest ->]; reflexivity. }
    rewrite Hadmin. cbn [andb]. rewrite bind_run. cbn [ret]. rewrite Hp.
    reflexivity.
  - intros ->.
    destruct (refresh_cookies (rt w)) as [cs|]; [exists cs|exists []];
      reflexivity.
Qed.

Lemma middleware_requires_user_witness :
  (quiet 2 (shop None []) /\ session (rt (shop None [])) = None)
  /\ fst (middleware (request "/admin/orders") (shop None []))
     = Returns (redirect {| url_origin := "https://jradianceco.com";
                            url_path := "/admin/login";
                            searchParams := [] |})
  /\ fst (middleware (request "/shop/checkout") (shop None []))
     = Returns (redirect {| url_origin := "https://jradianceco.com";
                            url_path := "/shop/auth";
                            searchParams := [("redirect", "/shop/checkout")] |}).
Proof.
  assert (Hq : quiet 2 (shop None [])) by reflexivity.
  assert (Hs : session (rt (shop None [])) = None) by reflexivity.
  split; [split; assumption|]. split.
  - rewrite (proj1 (middleware_requires_user _ (request "/admin/orders")
                      Hq Hs));
      [reflexivity|reflexivity|discriminate].
  - rewrite (proj1 (proj2 (middleware_requires_user _ (request "/shop/checkout")
                             Hq Hs))); reflexivity.
Defined.

(** ** Reasoning about results: [never_raises], [ensures], [answers] *)

Section Logic.
Context {S : Type}.

Lemma never_raises_ret {A} (a : A) : never_raises (@ret S A a).
Proof. intros s. now exists a, s. Qed.

Lemma never_raises_bind {A B} (m : Eff S A) (k : A -> Eff S B) :
  never_raises m -> (forall a, never_raises (k a)) -> never_raises (bind m k).
Proof.
  intros Hm Hk s. destruct (Hm s) as (a & s' & E).
  rewrite bind_run, E. apply Hk.
Qed.

Lemma never_raises_modify (f : S -> S) : never_raises (modify f).
Proof. intros s. now exists tt, (f s). Qed.

Lemma never_raises_gets {A} (f : S -> A) : never_raises (gets f).
Proof. intros s. now exists (f s), s. Qed.

Lemma never_raises_try_catch {A} (body : Eff S A) handler :
  (forall e, never_raises (handler e)) -> never_raises (try_catch body handler).
Proof.
  intros Hh s. rewrite try_catch_run.
  destruct (body s) as [[a|e] s']; [now exists a, s'|apply Hh].
Qed.

Lemma never_raises_try_finally {A} (body : Eff S A) fin :
  never_raises body -> never_raises fin -> never_raises (try_finally body fin).
Proof.
  intros Hb Hf s. unfold try_finally.
  destruct (Hb s) as (a & s' & ->). destruct (Hf s') as ([] & s'' & ->).
  now exists a, s''.
Qed.

Lemma ensures_ret {A} (a : A) (P : A -> Prop) : P a -> ensures (@ret S A a) P.
Proof. intros H s a' s' E. now inversion E; subst. Qed.

Lemma ensures_raise {A} e (P : A -> Prop) : ensures (@raise S A e) P.
Proof. intros s a' s' E. discriminate. Qed.

Lemma ensures_bind {A B} (m : Eff S A) (k : A -> Eff S B) (P : B -> Prop) :
  (forall a, ensures (k a) P) -> ensures (bind m k) P.
Proof.
  intros Hk s b s' E. rewrite bind_run in E.
  destruct (m s) as [[a|e] s1]; [exact (Hk a _ _ _ E)|discriminate].
Qed.

Lemma ensures_try_catch {A} (body : Eff S A) handler (P : A -> Prop) :
  ensures body P -> (forall e, ensures (handler e) P) ->
  ensures (try_catch body handler) P.
Proof.
  intros Hb Hh s a s' E. rewrite try_catch_run in E.
  destruct (body s) as [[a1|e] s1] eqn:Eb.
  - inversion E; subst. exact (Hb _ _ _ Eb).
  - exact (Hh e _ _ _ E).
Qed.

Lemma ensures_try_finally {A} (body : Eff S A) fin (P : A -> Prop) :
  ensures body P -> ensures (try_finally body fin) P.
Proof.
  intros Hb s a s' E. unfold try_finally in E.
  destruct (body s) as [o s1] eqn:Eb. destruct (fin s1) as [[[]|e] s2].
  - inversion E; subst. exact (Hb _ _ _ Eb).
  - discriminate.
Qed.

Lemma answers_intro {A} (m : Eff S A) (P : A -> Prop) :
  never_raises m -> ensures m P -> answers m P.
Proof.
  intros Hn He s. destruct (Hn s) as (a & s' & E).
  exists a, s'. split; [exact E|exact (He _ _ _ E)].
Qed.

Lemma keeps_ret {A} (I : S -> Prop) (a : A) : keeps I (ret a).
Proof. intros s H. exact H. Qed.

Lemma keeps_raise {A} (I : S -> Prop) e : keeps I (@raise S A e).
Proof. intros s H. exact H. Qed.

Lemma keeps_gets {A} (I : S -> Prop) (f : S -> A) : keeps I (gets f).
Proof. intros s H. exact H. Qed.

Lemma keeps_bind {A B} (I : S -> Prop) (m : Eff S A) (k : A -> Eff S B) :
  keeps I m -> (forall a, keeps I (k a)) -> keeps I (bind m k).
Proof.
  intros Hm Hk s H. rewrite bind_run. specialize (Hm s H).
  destruct (m s) as [[a|e] s1]; [exact (Hk a s1 Hm)|exact Hm].
Qed.

Lemma keeps_try_catch {A} (I : S -> Prop) (body : Eff S A) handler :
  keeps I body -> (forall e, keeps I (handler e)) ->
  keeps I (try_catch body handler).
Proof.
  intros Hb Hh s H. rewrite try_catch_run. specialize (Hb s H).
  destruct (body s) as [[a|e] s1]; [exact Hb|exact (Hh e s1 Hb)].
Qed.

End Logic.

Lemma never_raises_lift {S L A} (m : Eff S A) :
  never_raises m -> never_raises (@lift S L A m).
Proof.
  intros Hm [l s]. unfold lift. destruct (Hm s) as (a & s' & E).
  cbn [snd fst]. rewrite E. now exists a, (l, s').
Qed.

Lemma never_raises_with_local {S L A} (init : L) (m : Eff (L * S) A) :
  never_raises m -> never_raises (with_local init m).
Proof.
  intros Hm s. unfold with_local. destruct (Hm (init, s)) as (a & ls & ->).
  now exists a, (snd ls).
Qed.

Lemma ensures_with_local {S L A} (init : L) (m : Eff (L * S) A) P :
  ensures m P -> ensures (with_local init m) P.
Proof.
  intros Hm s a s' E. unfold with_local in E.
  destruct (m (init, s)) as [o ls] eqn:Em. inversion E; subst.
  exact (Hm _ _ _ Em).
Qed.

Lemma console_error_never_raises label : never_raises (console_error label).
Proof. apply never_raises_modify. Qed.

Lemma console_warn_never_raises label : never_raises (console_warn label).
Proof. apply never_raises_modify. Qed.

(** A [catch] block that logs and returns a value. *)
Lemma logging_handler_never_raises {A} label (a : A) :
  never_raises (console_error label ;; ret a).
Proof.
  apply never_raises_bind; [apply console_error_never_raises|].
  intros _. apply never_raises_ret.
Qed.

Create HintDb results discriminated.

#[export] Hint Resolve logging_handler_never_raises never_raises_ret
  console_error_never_raises console_warn_never_raises : results.

Lemma reported_failure msg : reported (failure msg).
Proof. intros _. now exists msg. Qed.

Lemma reported_failed_fetch msg : reported (failed_fetch msg).
Proof. intros _. now exists msg. Qed.

Lemma reported_done msg : reported (done_ msg).
Proof. intros H. discriminate. Qed.

Lemma reported_with_data v : reported (with_data v).
Proof. intros H. discriminate. Qed.

Lemma upload_reported_failed msg :
  upload_reported (Ftp.upload_failed msg).
Proof. intros _. now exists msg. Qed.

#[export] Hint Resolve reported_failure reported_failed_fetch reported_done
  reported_with_data upload_reported_failed : results.

(** Walks through a body: every [return] of it must satisfy the goal. *)
Ltac ensure :=
  repeat first
    [ apply ensures_raise
    | apply ensures_ret; first [ solve [auto with results]
                               | intros ?; discriminate ]
    | apply ensures_bind; intros
    | apply ensures_try_catch; [|intros]
    | progress cbv zeta
    | match goal with
      | |- ensures (match ?x with _ => _ end) _ => destruct x
      | |- ensures (if ?b then _ else _) _ => destruct b
      end ].

(** An action is one [try] block whose [catch] logs and returns. *)
Ltac action :=
  apply answers_intro;
  [ apply never_raises_try_catch; intros; auto with results
  | ensure ].

(** Shows that a computation built from non-throwing parts returns. *)
Ltac total :=
  repeat first
    [ apply never_raises_ret
    | apply never_raises_gets
    | apply never_raises_modify
    | apply never_raises_lift
    | apply never_raises_with_local
    | apply never_raises_try_finally
    | apply never_raises_try_catch; intros
    | apply never_raises_bind; [|intros]
    | progress cbv zeta
    | match goal with
      | |- never_raises (match ?x with _ => _ end) => destruct x
      | |- never_raises (if ?b then _ else _) => destruct b
      end ].

Lemma getFTPConfig_never_raises : never_raises Ftp.getFTPConfig.
Proof. unfold Ftp.getFTPConfig, console_warn. total. Qed.

Lemma close_client_never_raises : never_raises Ftp.close_client.
Proof.
  unfold Ftp.close_client, get_local, Ftp.client_end, Ftp.record_event. total.
Qed.

Lemma uploadFileToFTP_answers file folder :
  answers (Ftp.uploadFileToFTP file folder) upload_reported.
Proof.
  apply answers_intro.
  - unfold Ftp.uploadFileToFTP. cbv zeta.
    apply never_raises_bind; [apply getFTPConfig_never_raises|].
    intros [config|]; [|apply never_raises_ret].
    apply never_raises_with_local, never_raises_try_finally;
      [|apply close_client_never_raises].
    apply never_raises_try_catch. intros e. unfold console_error. total.
  - unfold Ftp.uploadFileToFTP. cbv zeta.
    apply ensures_bind. intros [config|]; [|ensure].
    apply ensures_with_local, ensures_try_finally. ensure.
Qed.

Lemma deleteFileFromFTP_answers filename folder :
  answers (Ftp.deleteFileFromFTP filename folder) upload_reported.
Proof.
  apply answers_intro.
  - unfold Ftp.deleteFileFromFTP. cbv zeta.
    apply never_raises_bind; [apply getFTPConfig_never_raises|].
    intros [config|]; [|apply never_raises_ret].
    apply never_raises_with_local, never_raises_try_finally;
      [|apply close_client_never_raises].
    apply never_raises_try_catch. intros e. unfold console_error. total.
  - unfold Ftp.deleteFileFromFTP. cbv zeta.
    apply ensures_bind. intros [config|]; [|ensure].
    apply ensures_with_local, ensures_try_finally. ensure.
Qed.

Lemma upload_each_answers files folder results :
  Forall upload_reported results ->
  answers (Ftp.upload_each files folder results)
          (fun rs => Forall upload_reported rs
                     /\ length rs = (length results + length files)%nat).
Proof.
  revert results. induction files as [|file rest IH]; intros results Hr w.
  - exists results, w. simpl. repeat split; [exact Hr|lia].
  - cbn [Ftp.upload_each]. rewrite bind_run.
    destruct (uploadFileToFTP_answers file (Some folder) w)
      as (r & w1 & -> & Hrep).
    destruct (IH (results ++ [r])) with (s := w1)
      as (rs & w2 & E & Hall & Hlen).
    { apply Forall_app. split; [exact Hr|].
      constructor; [exact Hrep|constructor]. }
    exists rs, w2. rewrite E. repeat split; [exact Hall|].
    rewrite Hlen, length_app. simpl. lia.
Qed.

Lemma extractFilenameFromUrl_answers u :
  answers (Ftp.extractFilenameFromUrl u) (fun _ => True).
Proof.
  apply answers_intro; [|intros ? ? ? _; exact I].
  unfold Ftp.extractFilenameFromUrl. total.
Qed.

Lemma unconfigured_getFTPConfig w :
  ftp_unconfigured w = true ->
  exists w', Ftp.getFTPConfig w = (Returns None, w').
Proof.
  intros H. unfold Ftp.getFTPConfig. rewrite bind_run. cbn [gets].
  unfold ftp_unconfigured in H. rewrite H. rewrite bind_run.
  unfold console_warn. cbn [modify ret]. eauto.
Qed.


(** *** The cart total *)

Lemma fold_left_sum {A} (f : A -> Z) (l : list A) (a : Z) :
  fold_left (fun acc x => (acc + f x)%Z) l a
  = (a + foldr Z.add 0%Z (map f l))%Z.
Proof.
  revert a. induction l as [|x l IH]; intros a; simpl; [lia|].
  rewrite IH. lia.
Qed.

(** The code's price of an item is what the specification charges,
    for prices that are numbers. *)
Lemma item_price_charged (item : Doubles.CartItem) :
  prices_are_numbers [item] -> Doubles.item_price item = charged item.
Proof.
  intros Hn. apply Forall_inv in Hn.
  unfold Doubles.item_price, charged, Doubles.num_or, Doubles.truthy_num,
    non_zero.
  destruct (Doubles.product item) as [p|]; [|reflexivity].
  destruct Hn as [Hp Hd].
  cbn [mbind option_bind fmap option_fmap option_map].
  destruct (Doubles.discount_price p) as [d|];
    rewrite ?Hd, ?Hp, ?orb_false_r;
    [destruct (PrimFloat.eqb d 0) eqn:Ed; cbn [negb];
     rewrite ?Hd, ?Hp, ?Ed, ?orb_false_r|];
    try destruct (PrimFloat.eqb (Doubles.price p) 0); reflexivity.
Qed.

Lemma fold_left_amounts {A} (f : A -> float) (l : list A) (a : float) :
  fold_left (fun acc x => (acc + f x)%float) l a
  = fold_left (fun acc x => (acc + x)%float) (map f l) a.
Proof.
  revert a. induction l as [|x l IH]; intros a; [reflexivity|]. apply IH.
Qed.

Lemma totalPrice_snoc (cart : list Doubles.CartItem) item :
  Doubles.totalPrice (cart ++ [item])
  = (Doubles.totalPrice cart
     + Doubles.item_price item * Doubles.quantity item)%float.
Proof. unfold Doubles.totalPrice. now rewrite fold_left_app. Qed.

(** A number that is not [NaN] equals itself. *)
Lemma SFeqb_refl (x : spec_float) : x <> S754_nan -> SFeqb x x = true.
Proof.
  intros Hx. unfold SFeqb, SFcompare.
  destruct x as [s|s| |s m e]; [reflexivity|now destruct s|congruence|].
  rewrite Z.compare_refl, Pos.compare_cont_refl. now destruct s.
Qed.

(** Adding 0 times a finite number changes no number: the sum is
    numerically the number it was. *)
Lemma add_zero_times (acc q : float) :
  PrimFloat.is_nan acc = false -> finite_number q = true ->
  PrimFloat.eqb (acc + 0 * q) acc = true.
Proof.
  unfold PrimFloat.is_nan, finite_number. intros Ha Hq.
  apply negb_false_iff in Ha. rewrite FloatAxioms.eqb_spec in Ha.
  rewrite FloatAxioms.eqb_spec, FloatAxioms.add_spec, FloatAxioms.mul_spec.
  change (Prim2SF 0) with (S754_zero false).
  destruct (Prim2SF q) as [sq|sq| |sq mq eq_]; try discriminate Hq;
    destruct (Prim2SF acc) as [sa|sa| |sa ma ea] eqn:Ea;
    try discriminate Ha;
    try (now destruct sa, sq);
    exact Ha.
Qed.

(** C10: while the cart overlay is open and the cart has an item, the
    total it shows is the sum, over the cart items in their order and in
    the arithmetic of the language, of what the item is charged times
    its quantity, where an item is charged its discount price when that
    is set and not zero, else its price, else 0; the prices being
    numbers, as the database sends them.  A closed overlay shows
    nothing and an open empty cart shows no total.  An item with
    discount price 0 adds its full price times its quantity, and an item
    without a product adds 0 times its quantity, which for a finite
    quantity leaves the total the number it was. *)
Theorem cart_total_price (cart : list Doubles.CartItem)
    (Hn : prices_are_numbers cart) :
  Doubles.totalPrice cart
  = sum_in_order
      (map (fun item => (charged item * Doubles.quantity item)%float) cart)
  /\ Doubles.CartOverlay false cart = None
  /\ (exists r,
        Doubles.CartOverlay true cart = Some r
        /\ Doubles.shown_total r
           = match cart with
             | [] => None
             | _ :: _ =>
                 Some (sum_in_order
                         (map (fun item =>
                                 (charged item * Doubles.quantity item)%float)
                              cart))
             end)
  /\ (forall item p d,
        Doubles.product item = Some p ->
        Doubles.discount_price p = Some d ->
        non_zero d = false ->
        PrimFloat.is_nan (Doubles.price p) = false ->
        Doubles.totalPrice (cart ++ [item])
        = (Doubles.totalPrice cart
           + (if non_zero (Doubles.price p) then Doubles.price p else 0)
             * Doubles.quantity item)%float)
  /\ (forall item,
        Doubles.product item = None ->
        Doubles.totalPrice (cart ++ [item])
        = (Doubles.totalPrice cart + 0 * Doubles.quantity item)%float
        /\ (PrimFloat.is_nan (Doubles.totalPrice cart) = false ->
            finite_number (Doubles.quantity item) = true ->
            PrimFloat.eqb (Doubles.totalPrice (cart ++ [item]))
                          (Doubles.totalPrice cart) = true)).
Proof.
  assert (Htot : Doubles.totalPrice cart
                 = sum_in_order
                     (map (fun item =>
                             (charged item * Doubles.quantity item)%float)
                          cart)).
  { unfold Doubles.totalPrice, sum_in_order.
    rewrite <- fold_left_amounts. generalize 0%float.
    induction Hn as [|item c Hi _ IH]; intros a; [reflexivity|].
    cbn [fold_left]. rewrite IH. f_equal. f_equal. f_equal.
    apply item_price_charged. now constructor. }
  split; [exact Htot|]. split; [reflexivity|]. split; [|split].
  - eexists. split; [reflexivity|]. cbn [Doubles.shown_total].
    destruct cart; [reflexivity|]. cbn [length Nat.ltb Nat.leb].
    now rewrite Htot.
  - intros item p d Hp Hd Hz Hnan. rewrite totalPrice_snoc. do 2 f_equal.
    unfold Doubles.item_price, Doubles.num_or, Doubles.truthy_num.
    rewrite Hp. cbn [mbind option_bind fmap option_fmap option_map].
    rewrite Hd. apply negb_false_iff in Hz. rewrite Hz. cbn [orb negb].
    rewrite Hnan, orb_false_r. unfold non_zero.
    now destruct (PrimFloat.eqb (Doubles.price p) 0).
  - intros item Hp.
    assert (E : Doubles.item_price item = 0%float)
      by (unfold Doubles.item_price; now rewrite Hp).
    rewrite totalPrice_snoc, E. split; [reflexivity|].
    apply add_zero_times.
Qed.

Lemma cart_total_price_witness :
  prices_are_numbers basket
  /\ exists r,
       Doubles.CartOverlay true basket = Some r
       /\ Doubles.shown_total r = Some 23500%float.
Proof.
  assert (Hn : prices_are_numbers basket) by (repeat constructor).
  split; [exact Hn|].
  destruct (proj1 (proj2 (proj2 (cart_total_price basket Hn))))
    as (r & E & Et).
  exists r. split; [exact E|]. rewrite Et. reflexivity.
Defined.

(** *** The sales report *)

Lemma dateFilter_reads_only period w :
  exists text, dateFilter period w = (Returns text, w).
Proof. destruct period; cbn; eauto. Qed.

Lemma sales_query_result w :
  run_query w (from "orders"
               |> select [Col "total_amount"; Col "status"; Col "created_at"]
               |> eq_ "payment_status" "completed")
  = (ok (VArr (completed_orders w)), w).
Proof.
  unfold run_query, run_select, completed_orders. cbn.
  do 3 f_equal. rewrite map_map. f_equal.
  apply filter_ext. intros r. unfold matches. cbn. apply andb_true_r.
Qed.

Lemma or_else_count (n : nat) :
  or_else (VNum (Z.of_nat n)) (VNum 0) = VNum (Z.of_nat n).
Proof. now destruct n. Qed.

(** C9: the result of [getSalesStats] does not depend on its [period]
    argument: in one and the same world every two period values, given
    or defaulted, produce the same result and leave the same world; and
    when the two external calls succeed, the report counts and lists all
    orders whose payment status is completed, whatever their date. *)
Theorem getSalesStats_ignores_period (w : World) (p1 p2 : option Period) :
  getSalesStats p1 w = getSalesStats p2 w
  /\ (quiet 2 w ->
      fst (getSalesStats p1 w)
      = Returns (with_data
          (VObj {[ "totalRevenue" :=
                     or_else (sum_total_amount (completed_orders w)) (VNum 0);
                   "totalOrders" :=
                     VNum (Z.of_nat (length (completed_orders w)));
                   "completedOrders" :=
                     VNum (Z.of_nat (count_delivered (completed_orders w)));
                   "orders" := VArr (completed_orders w) ]}))).
Proof.
  assert (Hrun : forall p,
             getSalesStats p w
             = try_catch
                 (createStaticClient ;;
                  r <- await (from "orders"
                              |> select [Col "total_amount"; Col "status";
                                         Col "created_at"]
                              |> eq_ "payment_status" "completed") ;;
                  throw_if_error r ;;
                  ret (with_data (sales_stats (resp_data r))))
                 (fun error =>
                    console_error "Error fetching sales stats:" ;;
                    ret (failed_fetch "Failed to fetch sales statistics")) w).
  { intros p. unfold getSalesStats. rewrite !try_catch_run, !bind_run.
    destruct (createStaticClient w) as [[[]|e] w1]; [|reflexivity].
    rewrite !bind_run.
    destruct (dateFilter_reads_only (default Pall p) w1) as [text ->].
    reflexivity. }
  split; [now rewrite (Hrun p1), (Hrun p2)|].
  intros Hq. apply quiet_S in Hq as [H1 Hq]. apply quiet_S in Hq as [H2 _].
  rewrite Hrun. unfold createStaticClient.
  calm H1. calm H2. rewrite sales_query_result.
  cbn [fst snd resp_data resp_error ok throw_if_error ret bind].
  unfold sales_stats, on_orders.
  change (completed_orders (advance (advance w))) with (completed_orders w).
  now rewrite !or_else_count.
Qed.

Lemma getSalesStats_ignores_period_witness :
  quiet 2 (shop (Some "u1") [])
  /\ getSalesStats (Some Pday) (shop (Some "u1") [])
     = getSalesStats (Some Pall) (shop (Some "u1") [])
  /\ (r ← match fst (getSalesStats (Some Pday) (shop (Some "u1") [])) with
          | Returns r => data r
          | Raises _ => None
          end;
      Some (opt_field r "totalRevenue", opt_field r "totalOrders"))
     = Some (VNum 7500, VNum 2).
Proof.
  assert (Hq : quiet 2 (shop (Some "u1") [])) by reflexivity.
  split; [exact Hq|]. split.
  - exact (proj1 (getSalesStats_ignores_period _ (Some Pday) (Some Pall))).
  - rewrite (proj2 (getSalesStats_ignores_period _ (Some Pday) (Some Pall)) Hq).
    vm_compute. reflexivity.
Defined.

(** *** The FTP service *)

Import Ftp.

Lemma try_catch_step {S A B} (m : Eff S A) (k : A -> Eff S B) h s a s' :
  m s = (Returns a, s') -> try_catch (bind m k) h s = try_catch (k a) h s'.
Proof. intros E. now rewrite !try_catch_run, bind_run, E. Qed.

Lemma try_catch_abort {S A B} (m : Eff S A) (k : A -> Eff S B) h s e s' :
  m s = (Raises e, s') -> try_catch (bind m k) h s = h e s'.
Proof. intros E. now rewrite !try_catch_run, bind_run, E. Qed.

Lemma getFTPConfig_run w :
  exists c w', getFTPConfig w = (Returns c, w')
               /\ rt w' = rt w /\ oracle w' = oracle w
               /\ ftp_trace w' = ftp_trace w
               /\ (forall cfg, c = Some cfg ->
                   exists base,
                     env (rt w) !! "NAMECHEAP_FTP_BASE_URL" = Some base
                     /\ baseUrl cfg = strip_trailing_slash base).
Proof.
  unfold getFTPConfig. rewrite bind_run. cbn [gets].
  destruct (unset _ || unset _ || unset _ || unset _) eqn:E.
  - eexists None, _. split; [reflexivity|]. repeat split. intros ? [=].
  - eexists (Some _), w. split; [reflexivity|]. repeat split.
    intros cfg [= <-]. cbn [baseUrl].
    apply orb_false_iff in E as [_ E]. unfold unset in E.
    destruct (env (rt w) !! "NAMECHEAP_FTP_BASE_URL") as [b|]; [|discriminate].
    now exists b.
Qed.

Lemma ftp_command_run c command s :
  ftp_command c command s
  = match hd NoFault (oracle s) with
    | NoFault => (Returns tt, after_command c command true s)
    | ErrorResult e | Throws e => (Raises e, after_command c command false s)
    end.
Proof.
  unfold ftp_command, next_fault. rewrite bind_run.
  now destruct (hd NoFault (oracle s)).
Qed.

Lemma connectFTP_run config s :
  connectFTP config s
  = let c := length (List.filter is_connect (ftp_trace s)) in
    match hd NoFault (oracle s) with
    | NoFault => (Returns c, after_command c (Connect config) true s)
    | ErrorResult e | Throws e =>
        (Raises e, after_command c (Connect config) false s)
    end.
Proof.
  unfold connectFTP. rewrite bind_run. cbn [gets]. rewrite bind_run.
  rewrite ftp_command_run. now destruct (hd NoFault (oracle s)).
Qed.

(** **** Steps that establish no connection *)

Lemma extends_quietly_command t c command ok s :
  established {| conn := c; cmd := command; accepted := ok |} = false ->
  extends_quietly t s -> extends_quietly t (after_command c command ok s).
Proof.
  intros He (evs & E & Hq). exists (evs ++ [ {| conn := c; cmd := command;
                                                 accepted := ok |} ]).
  split.
  - unfold after_command. cbn. rewrite E. now rewrite app_assoc.
  - apply Forall_app. split; [exact Hq|]. constructor; [exact He|constructor].
Qed.

Lemma keeps_external {A} t (work : M A) :
  keeps (extends_quietly t) work -> keeps (extends_quietly t) (external work).
Proof.
  intros Hw s H. rewrite external_run.
  destruct (hd NoFault (oracle s)); [|exact H|exact H].
  apply Hw. exact H.
Qed.

Lemma keeps_ftp_command t c command :
  (forall ok, established {| conn := c; cmd := command; accepted := ok |}
              = false) ->
  keeps (extends_quietly t) (ftp_command c command).
Proof.
  intros He s H. rewrite ftp_command_run.
  destruct (hd NoFault (oracle s)); cbn [snd];
    apply extends_quietly_command; auto.
Qed.

Lemma keeps_console_error t label :
  keeps (extends_quietly t) (console_error label).
Proof. intros s H. exact H. Qed.

Lemma keeps_console_warn t label :
  keeps (extends_quietly t) (console_warn label).
Proof. intros s H. exact H. Qed.

Lemma keeps_ensure_parts t c parts : forall currentPath,
  keeps (extends_quietly t) (ensure_parts c currentPath parts).
Proof.
  induction parts as [|part rest IH]; intros currentPath; cbn [ensure_parts].
  - apply keeps_ret.
  - apply keeps_bind; [|intros _; apply IH].
    apply keeps_try_catch; [|intros _]; apply keeps_ftp_command; reflexivity.
Qed.

Lemma keeps_ensureDirectoryExists t c directory :
  keeps (extends_quietly t) (ensureDirectoryExists c directory).
Proof.
  unfold ensureDirectoryExists.
  apply keeps_try_catch; [apply keeps_ftp_command; reflexivity|intros _].
  apply keeps_try_catch; [apply keeps_ensure_parts|intros _].
  apply keeps_console_warn.
Qed.

Lemma keeps_arrayBuffer t file : keeps (extends_quietly t) (arrayBuffer file).
Proof. apply keeps_external, keeps_ret. Qed.

(** The same, for a block whose local variable holds client [l]. *)
Lemma keeps_lifted {A} t (l : option nat) (m : M A) :
  keeps (extends_quietly t) m ->
  keeps (fun ls : option nat * World =>
           fst ls = l /\ extends_quietly t (snd ls)) (lift m).
Proof.
  intros Hm [l' s] [Hl H]. unfold lift. cbn [fst snd] in *.
  specialize (Hm s H). destruct (m s) as [o s']. cbn [fst snd] in *. auto.
Qed.

Lemma all_closed_quiet evs :
  Forall (fun ev => established ev = false) evs -> all_closed evs.
Proof.
  intros H ev Hin He. rewrite Forall_forall in H.
  apply list_elem_of_In in Hin. rewrite (H ev Hin) in He. discriminate.
Qed.

Lemma all_closed_session c config evs :
  Forall (fun ev => established ev = false) evs ->
  all_closed ({| conn := c; cmd := Connect config; accepted := true |}
              :: evs ++ [ {| conn := c; cmd := End_; accepted := true |} ]).
Proof.
  intros H ev Hin He.
  rewrite app_comm_cons, last_snoc.
  destruct Hin as [<-|Hin]; [reflexivity|].
  apply in_app_or in Hin as [Hin|[<-|[]]]; [|discriminate].
  rewrite Forall_forall in H. apply list_elem_of_In in Hin.
  rewrite (H ev Hin) in He. discriminate.
Qed.

(** What both FTP operations do once the settings are read: a [try]
    block that starts by connecting, and the [finally] block. *)
Lemma session_closed {A} config
  (rest : nat -> Eff (option nat * World) A) handler s :
  (forall c t, keeps (fun ls => fst ls = Some c /\ extends_quietly t (snd ls))
                     (try_catch (rest c) handler)) ->
  (forall e t, keeps (fun ls => fst ls = None /\ extends_quietly t (snd ls))
                     (handler e)) ->
  exists evs,
    ftp_trace (snd (with_local None
                      (try_finally
                         (try_catch
                            (c <- lift (connectFTP config) ;;
                             set_local (Some c) ;;
                             rest c) handler)
                         close_client) s))
    = ftp_trace s ++ evs
    /\ all_closed evs.
Proof.
  intros Hrest Hhandler. unfold with_local, try_finally.
  set (c := length (List.filter is_connect (ftp_trace s))).
  destruct (hd NoFault (oracle s)) eqn:Hv.
  - erewrite try_catch_step
      by (unfold lift; cbn [fst snd]; rewrite connectFTP_run, Hv; reflexivity).
    erewrite try_catch_step by reflexivity.
    cbn [fst snd]. fold c.
    set (s0 := (Some c, after_command c (Connect config) true s)).
    pose proof (Hrest c (ftp_trace s ++ [ {| conn := c; cmd := Connect config;
                                             accepted := true |} ]) s0) as H.
    destruct (try_catch (rest c) handler s0) as [o [l s1]].
    destruct H as [Hl (evs & E & Hq)].
    { split; [reflexivity|]. exists []. split; [|constructor].
      cbn. now rewrite app_nil_r. }
    cbn [fst snd] in *. subst l.
    exists ({| conn := c; cmd := Connect config; accepted := true |}
            :: evs ++ [ {| conn := c; cmd := End_; accepted := true |} ]).
    split; [|now apply all_closed_session].
    cbn. rewrite E. rewrite <- !app_assoc. reflexivity.
  - erewrite try_catch_abort
      by (unfold lift; cbn [fst snd]; rewrite connectFTP_run, Hv; reflexivity).
    cbn [fst snd]. fold c.
    set (s0 := (None, after_command c (Connect config) false s)).
    pose proof (Hhandler e (ftp_trace s) s0) as H.
    destruct (handler e s0) as [o [l s1]].
    destruct H as [Hl (evs & E & Hq)].
    { split; [reflexivity|]. apply extends_quietly_command; [reflexivity|].
      exists []. split; [now rewrite app_nil_r|constructor]. }
    cbn [fst snd] in *. subst l.
    exists evs. split; [|now apply all_closed_quiet].
    cbn. exact E.
  - erewrite try_catch_abort
      by (unfold lift; cbn [fst snd]; rewrite connectFTP_run, Hv; reflexivity).
    cbn [fst snd]. fold c.
    set (s0 := (None, after_command c (Connect config) false s)).
    pose proof (Hhandler e (ftp_trace s) s0) as H.
    destruct (handler e s0) as [o [l s1]].
    destruct H as [Hl (evs & E & Hq)].
    { split; [reflexivity|]. apply extends_quietly_command; [reflexivity|].
      exists []. split; [now rewrite app_nil_r|constructor]. }
    cbn [fst snd] in *. subst l.
    exists evs. split; [|now apply all_closed_quiet].
    cbn. exact E.
Qed.

Lemma session_prelude {A B} (m : Eff (option nat * World) A)
  (k : A -> Eff (option nat * World) B) handler fin a s :
  m (None, s) = (Returns a, (None, s)) ->
  with_local None (try_finally (try_catch (bind m k) handler) fin) s
  = with_local None (try_finally (try_catch (k a) handler) fin) s.
Proof.
  intros E. unfold with_local, try_finally.
  now erewrite try_catch_step by exact E.
Qed.

Lemma keeps_logging_handler t label (r : UploadResult) :
  keeps (fun ls : option nat * World =>
           fst ls = None /\ extends_quietly t (snd ls))
        (lift (console_error label) ;; ret r).
Proof.
  apply keeps_bind; [|intros _; apply keeps_ret].
  apply keeps_lifted, keeps_console_error.
Qed.

Lemma keeps_logging_handler_open t c label (r : UploadResult) :
  keeps (fun ls : option nat * World =>
           fst ls = Some c /\ extends_quietly t (snd ls))
        (lift (console_error label) ;; ret r).
Proof.
  apply keeps_bind; [|intros _; apply keeps_ret].
  apply keeps_lifted, keeps_console_error.
Qed.

(** C8: whatever the server and the other external calls do, the events
    that [uploadFileToFTP] or [deleteFileFromFTP] adds to the FTP trace
    end with [client.end()] on the connection the call established, if
    it established one: no connection is left open when the function
    returns, on the success path and on every error path. *)
Theorem ftp_connection_always_closed (w : World) :
  (forall file folder,
      exists evs,
        ftp_trace (snd (uploadFileToFTP file folder w)) = ftp_trace w ++ evs
        /\ all_closed evs)
  /\ (forall filename folder,
        exists evs,
          ftp_trace (snd (deleteFileFromFTP filename folder w))
          = ftp_trace w ++ evs
          /\ all_closed evs).
Proof.
  split.
  - intros file folder.
    destruct (getFTPConfig_run w) as (c & w1 & E & _ & _ & Htr & _).
    unfold uploadFileToFTP. cbv zeta. rewrite bind_run, E, <- Htr.
    destruct c as [config|].
    + erewrite session_prelude by reflexivity.
      erewrite session_prelude by reflexivity. cbv zeta.
      apply session_closed.
      * intros c t. apply keeps_try_catch.
        -- apply keeps_bind;
             [apply keeps_lifted, keeps_arrayBuffer|intros buffer].
           apply keeps_bind;
             [apply keeps_lifted, keeps_ensureDirectoryExists|intros _].
           apply keeps_bind; [|intros _; apply keeps_ret].
           apply keeps_lifted, keeps_ftp_command. reflexivity.
        -- intros e. apply keeps_logging_handler_open.
      * intros e t. apply keeps_logging_handler.
    + exists []. split; [now rewrite app_nil_r|]. intros ev [].
  - intros filename folder.
    destruct (getFTPConfig_run w) as (c & w1 & E & _ & _ & Htr & _).
    unfold deleteFileFromFTP. cbv zeta. rewrite bind_run, E, <- Htr.
    destruct c as [config|].
    + apply session_closed.
      * intros c t. apply keeps_try_catch.
        -- apply keeps_bind; [|intros _; apply keeps_ret].
           apply keeps_lifted, keeps_ftp_command. reflexivity.
        -- intros e. apply keeps_logging_handler_open.
      * intros e t. apply keeps_logging_handler.
    + exists []. split; [now rewrite app_nil_r|]. intros ev [].
Qed.

(** The server accepts the connection and refuses the upload itself:
    the result is a failure and the last event is the [end]. *)
Example upload_refused_put_closes :
  let w := shop (Some "u1")
             [NoFault; NoFault; NoFault; Throws denied] in
  fst (uploadFileToFTP photo None w)
  = Returns (upload_failed "Failed to upload file")
  /\ map (fun ev => (cmd ev, accepted ev))
         (drop 1 (ftp_trace (snd (uploadFileToFTP photo None w))))
     = [(Cwd "products", true);
        (Put "/products/1700000000000-4fzyo8.png" "PNG", false);
        (End_, true)].
Proof. vm_compute. split; reflexivity. Qed.

(** *** The URL of an uploaded file *)

Example split_examples :
  split "." "serum.front.png" = ["serum"; "front"; "png"]
  /\ split "." "photo" = ["photo"]
  /\ split "." "archive." = ["archive"; ""]
  /\ split "." "" = [""].
Proof. repeat split; reflexivity. Qed.

(** The fallback "file" is for a name whose last segment is empty; a
    name without a dot is its own last segment. *)
Example extension_examples :
  str_or (pop (split "." "serum.front.png")) "file" = "png"
  /\ str_or (pop (split "." "photo")) "file" = "photo"
  /\ str_or (pop (split "." "archive.")) "file" = "file"
  /\ str_or (pop (split "." "")) "file" = "file".
Proof. repeat split; reflexivity. Qed.

Example strip_trailing_slash_examples :
  strip_trailing_slash "https://files.jradianceco.com/"
  = "https://files.jradianceco.com"
  /\ strip_trailing_slash "https://files.jradianceco.com"
     = "https://files.jradianceco.com"
  /\ strip_trailing_slash "https://files.jradianceco.com//"
     = "https://files.jradianceco.com/".
Proof. repeat split; reflexivity. Qed.

Lemma split_snoc sep s : exists segs seg, split sep s = segs ++ [seg].
Proof.
  induction s as [|c s (segs & seg & IH)]; cbn [split].
  - now exists [], "".
  - destruct (Ascii.eqb c sep).
    + exists ("" :: segs), seg. now rewrite IH.
    + rewrite IH. destruct segs as [|x segs]; cbn.
      * now exists [], (String c seg).
      * now exists (String c x :: segs), seg.
Qed.

Lemma str_or_last segs seg dflt :
  str_or (pop (segs ++ [seg])) dflt = if decide (seg = "") then dflt else seg.
Proof.
  unfold pop. rewrite last_snoc. cbn [str_or].
  destruct (String.eqb_spec seg ""); now destruct (decide (seg = "")).
Qed.

Lemma substring_length_le n m s :
  (String.length (String.substring n m s) <= m)%nat.
Proof.
  revert n m. induction s as [|c s IH]; intros [|n] [|m]; cbn; try lia.
  - specialize (IH 0%nat m). lia.
  - apply IH.
  - apply IH.
Qed.

Lemma substring_length_exact n m s :
  (n + m <= String.length s)%nat ->
  String.length (String.substring n m s) = m.
Proof.
  revert n m. induction s as [|c s IH]; intros [|n] [|m]; cbn; try lia.
  - intros H. rewrite (IH 0%nat m); lia.
  - intros H. apply IH. lia.
  - intros H. apply IH. cbn. lia.
Qed.

(** C6, as stated, fails on the length of the random part: when
    [Math.random()] draws 0.5, which base 36 writes as "0.i", the random
    part of the file name is the one character "i", so the file name is
    not a timestamp, a hyphen, six random characters, a dot and an
    extension. *)
Lemma upload_random_part_one_character :
  exists r,
    fst (uploadFileToFTP photo None (shop_half (Some "u1"))) = Returns r
    /\ success r = true
    /\ url r = Some "https://files.jradianceco.com/products/1700000000000-i.png"
    /\ forall rnd ext,
        String.length rnd = 6%nat ->
        filename r
        <> Some ("1700000000000" +:+ "-" +:+ rnd +:+ "." +:+ ext).
Proof.
  eexists. split; [vm_compute; reflexivity|]. cbn [success url filename].
  split; [reflexivity|]. split; [reflexivity|].
  intros rnd ext Hlen Heq.
  destruct rnd as [|a [|b [|c [|d [|e [|f [|g rnd]]]]]]]; try discriminate Hlen.
  cbn in Heq. inversion Heq.
Qed.

(** C6, amended: the url of a successful [uploadFileToFTP(file, folder)]
    is the base URL of the settings, without one trailing slash, followed
    by "/" + folder + "/" + filename, where filename is the timestamp, a
    hyphen, the random part, a dot and the extension; the random part is
    the characters 2 to 7 of the base-36 text of the random draw, so it
    has at most six characters, and exactly six when that text has eight
    or more; the extension is the last dot-separated segment of
    [file.name], or "file" when that segment is empty. *)
Theorem upload_url_convention (w : World) (file : File)
  (folder : option string) (r : UploadResult) :
  fst (uploadFileToFTP file folder w) = Returns r ->
  success r = true ->
  exists base segs seg,
    env (rt w) !! "NAMECHEAP_FTP_BASE_URL" = Some base
    /\ split "." (file_name file) = segs ++ [seg]
    /\ let rnd := substring 2 8 (random36 (rt w)) in
       let ext := if decide (seg = "") then "file" else seg in
       let fname := pretty (now (rt w)) +:+ "-" +:+ rnd +:+ "." +:+ ext in
       url r = Some (strip_trailing_slash base +:+ "/"
                     +:+ default "products" folder +:+ "/" +:+ fname)
       /\ filename r = Some fname
       /\ (String.length rnd <= 6)%nat
       /\ ((8 <= String.length (random36 (rt w)))%nat ->
           String.length rnd = 6%nat).
Proof.
  intros Hrun Hok.
  destruct (getFTPConfig_run w) as (c & w1 & E & Hrt & _ & _ & Hbase).
  unfold uploadFileToFTP in Hrun. cbv zeta in Hrun.
  rewrite bind_run, E in Hrun.
  destruct c as [config|];
    [|cbn in Hrun; injection Hrun as <-; discriminate Hok].
  destruct (Hbase config eq_refl) as (base & Henv & Hurl).
  destruct (split_snoc "." (file_name file)) as (segs & seg & Hsplit).
  exists base, segs, seg. split; [exact Henv|]. split; [exact Hsplit|].
  cbv zeta.
  erewrite session_prelude in Hrun by reflexivity.
  erewrite session_prelude in Hrun by reflexivity.
  cbv zeta in Hrun. cbn [fst snd] in Hrun.
  rewrite Hrt, Hsplit, str_or_last, Hurl in Hrun.
  match type of Hrun with
  | fst (?m w1) = _ =>
      assert (He : ensures m (fun r' => success r' = true ->
                     url r' = Some (strip_trailing_slash base +:+ "/"
                       +:+ default "products" folder +:+ "/"
                       +:+ pretty (now (rt w)) +:+ "-"
                       +:+ substring 2 8 (random36 (rt w)) +:+ "."
                       +:+ (if decide (seg = "") then "file" else seg))
                     /\ filename r' = Some (pretty (now (rt w)) +:+ "-"
                       +:+ substring 2 8 (random36 (rt w)) +:+ "."
                       +:+ (if decide (seg = "") then "file" else seg))));
      [|destruct (m w1) as [o s1] eqn:Em; cbn in Hrun; subst o;
        destruct (He _ _ _ Em Hok) as [Hu Hf]]
  end.
  { apply ensures_with_local, ensures_try_finally.
    apply ensures_try_catch; [|intros e].
    - repeat (apply ensures_bind; intros). apply ensures_ret. auto.
    - apply ensures_bind. intros _. apply ensures_ret. intros H. discriminate. }
  repeat split; [exact Hu|exact Hf| |].
  - unfold substring. apply substring_length_le.
  - intros Hlen. unfold substring. apply substring_length_exact. lia.
Qed.

Lemma upload_url_convention_witness :
  (fst (uploadFileToFTP photo None (shop (Some "u1") []))
   = Returns {| success := true;
                url := Some
           "https://files.jradianceco.com/products/1700000000000-4fzyo8.png";
                error := None;
                filename := Some "1700000000000-4fzyo8.png" |})
  /\ exists base segs seg,
       env (rt (shop (Some "u1") [])) !! "NAMECHEAP_FTP_BASE_URL" = Some base
       /\ split "." "serum.front.png" = segs ++ [seg].
Proof.
  assert (H : fst (uploadFileToFTP photo None (shop (Some "u1") []))
              = Returns {| success := true;
                url := Some
           "https://files.jradianceco.com/products/1700000000000-4fzyo8.png";
                error := None;
                filename := Some "1700000000000-4fzyo8.png" |})
    by (vm_compute; reflexivity).
  split; [exact H|].
  destruct (upload_url_convention _ _ _ _ H eq_refl)
    as (base & segs & seg & Hb & Hs & _).
  exists base, segs, seg. split; [exact Hb|exact Hs].
Defined.

(** *** Promotion and demotion *)

Lemma table_set_other (w1 : World) (t t' : string) (rows : list row) :
  t <> t' ->
  table (set_tables (<[t := rows]> (tables w1)) w1) t' = table w1 t'.
Proof.
  intros Hne. unfold table. cbn [tables set_tables].
  now rewrite lookup_insert_ne.
Qed.

Lemma table_set_same (w1 : World) (t : string) (rows : list row) :
  table (set_tables (<[t := rows]> (tables w1)) w1) t = rows.
Proof. unfold table. cbn [tables set_tables]. now rewrite lookup_insert_eq. Qed.

Lemma run_query_oracle w q : oracle (snd (run_query w q)) = oracle w.
Proof.
  unfold run_query, run_insert, run_update, run_delete.
  destruct (q_verb q); cbn [snd fst]; try reflexivity.
  destruct (existsb _ _); [reflexivity|].
  cbn [snd]. now destruct (r !! "id").
Qed.

Lemma run_query_rt w q : rt (snd (run_query w q)) = rt w.
Proof.
  unfold run_query, run_insert, run_update, run_delete.
  destruct (q_verb q); cbn [snd fst]; try reflexivity.
  destruct (existsb _ _); [reflexivity|].
  cbn [snd]. now destruct (r !! "id").
Qed.

Lemma run_query_other_table w q t :
  q_table q <> t -> table (snd (run_query w q)) t = table w t.
Proof.
  intros Hne. unfold run_query, run_insert, run_update, run_delete.
  destruct (q_verb q); cbn [snd fst]; try reflexivity.
  - destruct (existsb _ _); [reflexivity|]. cbn [snd].
    rewrite table_set_other by exact Hne. now destruct (r !! "id").
  - now rewrite table_set_other.
  - now rewrite table_set_other.
Qed.

Lemma staff_row_id t r ts : staff_row t r ts !! "id" = Some (VStr t).
Proof. unfold staff_row. now rewrite lookup_insert_eq. Qed.

Lemma matches_id (x : row) t :
  matches [("id", t)] x = true <-> x !! "id" = Some (VStr t).
Proof.
  unfold matches, column. cbn. rewrite andb_true_r.
  destruct (x !! "id") as [[| | |s| |]|]; cbn; split; try discriminate.
  - intros H. apply String.eqb_eq in H. now subst.
  - intros [= ->]. apply String.eqb_refl.
Qed.

Lemma same_id_staff_row t r ts (x : row) :
  same_id (staff_row t r ts) x = matches [("id", t)] x.
Proof.
  unfold same_id. rewrite staff_row_id. unfold matches, column. cbn.
  rewrite andb_true_r.
  destruct (x !! "id") as [[| | |s| |]|]; cbn; try reflexivity.
  apply String.eqb_sym.
Qed.

Lemma existsb_staff_row w t r ts :
  existsb (same_id (staff_row t r ts)) (table w "admin_staff")
  = negb (Nat.eqb (length (rows_with_id w "admin_staff" t)) 0).
Proof.
  unfold rows_with_id. induction (table w "admin_staff") as [|x l IH].
  - reflexivity.
  - cbn [existsb List.filter]. rewrite same_id_staff_row.
    destruct (matches [("id", t)] x); [reflexivity|exact IH].
Qed.

(** What the database does with the staff row of a promotion. *)
Lemma insert_staff_row w t r ts :
  let q := from "admin_staff" |> insert (staff_row t r ts) in
  match rows_with_id w "admin_staff" t with
  | [] => fst (run_query w q) = ok VNull
          /\ table (snd (run_query w q)) "admin_staff"
             = table w "admin_staff" ++ [staff_row t r ts]
  | _ :: _ => run_query w q
              = (failed (pg_error w "23505"
                   "duplicate key value violates unique constraint"), w)
  end.
Proof.
  cbv zeta. unfold run_query. cbn [q_verb insert from].
  unfold run_insert. cbn [q_table]. rewrite staff_row_id. cbn [fst snd].
  rewrite existsb_staff_row.
  destruct (rows_with_id w "admin_staff" t) as [|x l] eqn:E;
    cbn [length Nat.eqb negb].
  - split; [reflexivity|]. cbn [snd]. now rewrite table_set_same.
  - reflexivity.
Qed.

Lemma rows_with_id_snoc (rows : list row) (x : row) t :
  List.filter (matches [("id", t)]) (rows ++ [x])
  = List.filter (matches [("id", t)]) rows
    ++ (if matches [("id", t)] x then [x] else []).
Proof.
  rewrite List.filter_app. f_equal.
Qed.

(** **** Steps that keep the staff key unique *)

Lemma keeps_unique_external {A} t (work : M A) :
  keeps (staff_key_unique t) work ->
  keeps (staff_key_unique t) (external work).
Proof.
  intros Hw s H. rewrite external_run.
  destruct (hd NoFault (oracle s)); [|exact H|exact H].
  apply Hw. exact H.
Qed.

Lemma keeps_unique_auth t : keeps (staff_key_unique t) auth_getUser.
Proof.
  intros s H. rewrite auth_getUser_run.
  destruct (hd NoFault (oracle s)); exact H.
Qed.

Lemma keeps_unique_await_other t q :
  q_table q <> "admin_staff" -> keeps (staff_key_unique t) (await q).
Proof.
  intros Hne s H. rewrite await_run.
  destruct (hd NoFault (oracle s)); [|exact H|exact H].
  cbn [snd]. unfold staff_key_unique, rows_with_id in *.
  now rewrite run_query_other_table.
Qed.

Lemma keeps_unique_insert_staff t target r ts :
  keeps (staff_key_unique t)
        (await (from "admin_staff" |> insert (staff_row target r ts))).
Proof.
  intros s H. rewrite await_run.
  destruct (hd NoFault (oracle s)); [|exact H|exact H].
  cbn [snd]. pose proof (insert_staff_row (advance s) target r ts) as Hi.
  cbv zeta in Hi. unfold staff_key_unique in *.
  change (rows_with_id (advance s)) with (rows_with_id s) in Hi.
  change (table (advance s)) with (table s) in Hi.
  destruct (rows_with_id s "admin_staff" target) as [|x l] eqn:E.
  - destruct Hi as [_ Hi]. unfold rows_with_id in *.
    rewrite Hi, rows_with_id_snoc, length_app.
    destruct (matches [("id", t)] (staff_row target r ts)) eqn:Em.
    + apply matches_id in Em. rewrite staff_row_id in Em.
      injection Em as ->. rewrite E. cbn. lia.
    + cbn. lia.
  - now rewrite Hi.
Qed.

Lemma keeps_unique_modify t (f : World -> World) :
  (forall s, tables (f s) = tables s) -> keeps (staff_key_unique t) (modify f).
Proof.
  intros Hf s H. cbn. unfold staff_key_unique, rows_with_id, table in *.
  now rewrite Hf.
Qed.

Lemma keeps_unique_revalidatePath t p :
  keeps (staff_key_unique t) (revalidatePath p).
Proof.
  unfold revalidatePath. apply keeps_unique_external.
  now apply keeps_unique_modify.
Qed.

Lemma keeps_unique_console_error t label :
  keeps (staff_key_unique t) (console_error label).
Proof. now apply keeps_unique_modify. Qed.

Lemma keeps_unique_promoteUser t target newRole :
  keeps (staff_key_unique t) (promoteUser target newRole).
Proof.
  unfold promoteUser, createClient, select_role, throw_if_error, Date_now.
  repeat first
    [ apply keeps_ret | apply keeps_raise | apply keeps_gets
    | apply keeps_unique_console_error | apply keeps_unique_revalidatePath
    | apply keeps_unique_auth
    | apply keeps_unique_external
    | apply keeps_unique_await_other; discriminate
    | apply keeps_unique_insert_staff
    | apply keeps_try_catch; [|intros]
    | apply keeps_bind; [|intros]
    | progress cbv zeta
    | match goal with
      | |- keeps _ (match ?x with _ => _ end) => destruct x
      | |- keeps _ (if ?b then _ else _) => destruct b
      end ].
Qed.

(** **** Following a call whose external calls succeed *)

Lemma quiet_tail k n w :
  (k < n)%nat -> quiet n w ->
  hd NoFault (Nat.iter k (@tail Fault) (oracle w)) = NoFault.
Proof.
  unfold quiet. generalize (oracle w) as o. revert n.
  induction k as [|k IH]; intros n o Hlt H.
  - destruct n as [|n]; [lia|]. destruct o as [|[| |] o]; try reflexivity;
      discriminate H.
  - destruct n as [|n]; [lia|]. rewrite Nat.iter_succ_r.
    apply (IH n); [lia|]. destruct o as [|f o]; [now destruct n|].
    cbn in H. apply andb_true_iff in H as [_ H]. exact H.
Qed.

Lemma verdict_tail k (w : World) f :
  oracle w !! k = Some f ->
  hd NoFault (Nat.iter k (@tail Fault) (oracle w)) = f.
Proof.
  generalize (oracle w) as o. induction k as [|k IH]; intros o H.
  - now destruct o as [|x o]; inversion H.
  - rewrite Nat.iter_succ_r. apply IH. now destruct o.
Qed.

Lemma oracle_advance w : oracle (advance w) = tail (oracle w).
Proof. reflexivity. Qed.

Lemma oracle_set_revalidated l w : oracle (set_revalidated l w) = oracle w.
Proof. reflexivity. Qed.

Lemma oracle_set_console l w : oracle (set_console l w) = oracle w.
Proof. reflexivity. Qed.

Lemma table_advance w t : table (advance w) t = table w t.
Proof. reflexivity. Qed.

Lemma table_set_revalidated l w t : table (set_revalidated l w) t = table w t.
Proof. reflexivity. Qed.

Lemma table_set_console l w t : table (set_console l w) t = table w t.
Proof. reflexivity. Qed.

Lemma rt_advance w : rt (advance w) = rt w.
Proof. reflexivity. Qed.

Lemma run_update_ok w t changes c v :
  fst (run_query w (from t |> update changes |> eq_ c v)) = ok VNull.
Proof. reflexivity. Qed.

Lemma is_str_same s : is_str (VStr s) s = true.
Proof. apply String.eqb_refl. Qed.

Create Rewrite HintDb world.

#[export] Hint Rewrite oracle_advance run_query_oracle oracle_set_revalidated
  oracle_set_console table_advance table_set_revalidated table_set_console
  rt_advance run_query_rt : world.

(** One more external call, whose verdict [H] says is [NoFault]. *)
Ltac quietly H :=
  step; autorewrite with world; rewrite H;
  cbn [ret fst snd resp_data resp_error ok throw_if_error].

Lemma promoteUser_duplicate w uid p target newRole x l :
  quiet 7 w ->
  session (rt w) = Some uid ->
  rows_with_id w "profiles" uid = [p] ->
  p !! "role" = Some (VStr "chief_admin") ->
  newRole <> customer ->
  rows_with_id w "admin_staff" target = x :: l ->
  exists w',
    promoteUser target newRole w
    = (Returns (done_ ("User promoted to " +:+ role_name newRole)), w')
    /\ table w' "admin_staff" = table w "admin_staff".
Proof.
  intros Hq Hs Hp Hr Hnc Hrow.
  pose proof (quiet_tail 0 7 w ltac:(lia) Hq) as H1.
  pose proof (quiet_tail 1 7 w ltac:(lia) Hq) as H2.
  pose proof (quiet_tail 2 7 w ltac:(lia) Hq) as H3.
  pose proof (quiet_tail 3 7 w ltac:(lia) Hq) as H4.
  pose proof (quiet_tail 4 7 w ltac:(lia) Hq) as H5.
  pose proof (quiet_tail 5 7 w ltac:(lia) Hq) as H6.
  pose proof (quiet_tail 6 7 w ltac:(lia) Hq) as H7.
  simpl Nat.iter in *.
  unfold promoteUser, createClient.
  quietly H1. quietly H2. rewrite Hs. quietly H3.
  rewrite select_role_found with (p := p) by exact Hp.
  cbn [fst snd resp_data ok].
  rewrite opt_field_role, (column_role _ _ Hr), is_str_same. cbn [negb].
  quietly H4. rewrite run_update_ok.
  cbn [throw_if_error resp_error ok]. rewrite bind_run. cbn [ret].
  assert (Hnc' : negb (role_eqb newRole customer) = true)
    by (destruct newRole; [contradiction|reflexivity..]).
  rewrite Hnc'. rewrite !bind_run. cbn [Date_now gets].
  quietly H5.
  match goal with
  | |- context [run_query ?s (insert (staff_row ?t ?r ?ts) _)] =>
      pose proof (insert_staff_row s t r ts) as Hi;
      assert (Hrows : rows_with_id s "admin_staff" t = x :: l)
  end.
  { unfold rows_with_id. autorewrite with world.
    rewrite run_query_other_table by discriminate.
    autorewrite with world. exact Hrow. }
  cbv zeta in Hi. rewrite Hrows in Hi. rewrite Hi. clear Hi Hrows.
  cbn [fst snd resp_error failed pg_error e_code].
  rewrite String.eqb_refl. cbn [negb ret].
  quietly H6. unfold revalidatePath. quietly H7. cbn [modify].
  eexists. split; [reflexivity|].
  autorewrite with world. rewrite run_query_other_table by discriminate.
  autorewrite with world. rewrite run_query_other_table by discriminate.
  now autorewrite with world.
Qed.

Lemma promoteUser_insert_error w uid p target newRole e :
  quiet 4 w ->
  oracle w !! 4%nat = Some (ErrorResult e) ->
  e_code e <> "23505" ->
  session (rt w) = Some uid ->
  rows_with_id w "profiles" uid = [p] ->
  p !! "role" = Some (VStr "chief_admin") ->
  newRole <> customer ->
  fst (promoteUser target newRole w)
  = Returns (failure (err_message e "Failed to promote user")).
Proof.
  intros Hq Hv Hcode Hs Hp Hr Hnc.
  pose proof (quiet_tail 0 4 w ltac:(lia) Hq) as H1.
  pose proof (quiet_tail 1 4 w ltac:(lia) Hq) as H2.
  pose proof (quiet_tail 2 4 w ltac:(lia) Hq) as H3.
  pose proof (quiet_tail 3 4 w ltac:(lia) Hq) as H4.
  pose proof (verdict_tail 4 w _ Hv) as H5.
  simpl Nat.iter in *.
  unfold promoteUser, createClient.
  quietly H1. quietly H2. rewrite Hs. quietly H3.
  rewrite select_role_found with (p := p) by exact Hp.
  cbn [fst snd resp_data ok].
  rewrite opt_field_role, (column_role _ _ Hr), is_str_same. cbn [negb].
  quietly H4. rewrite run_update_ok.
  cbn [throw_if_error resp_error ok]. rewrite bind_run. cbn [ret].
  assert (Hnc' : negb (role_eqb newRole customer) = true)
    by (destruct newRole; [contradiction|reflexivity..]).
  rewrite Hnc'. rewrite !bind_run. cbn [Date_now gets].
  quietly H5. cbn [failed resp_error].
  apply String.eqb_neq in Hcode. rewrite Hcode. reflexivity.
Qed.



(** C4 at a failing input: a chief_admin demotes agent "u2", and the
    sixth external call, the delete on admin_staff, comes back with an
    error that [demoteUser] does not look at.  The function reports
    success and the role is reset, yet the staff row of "u2" is still
    there. *)
Theorem demoteUser_success_with_staff_row_left :
  let w := shop (Some "u1")
             [NoFault; NoFault; NoFault; NoFault; NoFault;
              ErrorResult denied] in
  fst (demoteUser "u2" w) = Returns (done_ "User demoted to customer")
  /\ map (fun r : row => r !! "role")
         (rows_with_id (snd (demoteUser "u2" w)) "profiles" "u2")
     = [Some (VStr "customer")]
  /\ rows_with_id (snd (demoteUser "u2" w)) "admin_staff" "u2"
     = [staff_row "u2" agent 1690000000000%Z].
Proof. vm_compute. repeat split; reflexivity. Qed.

(** A caller who is not a chief_admin gets a failure and the tables stay
    as they are, whatever the external calls do. *)
Lemma demoteUser_requires_chief_admin (w : World) (target : string) :
  (forall uid, ~ caller_is w uid "chief_admin") ->
  exists msg,
    fst (demoteUser target w) = Returns (failure msg)
    /\ tables (snd (demoteUser target w)) = tables w.
Proof.
  intros Hnot. unfold demoteUser, createClient.
  step. destruct (hd NoFault (oracle w)); try (eexists; split; reflexivity).
  cbn [ret]. step.
  destruct (hd NoFault (oracle (advance w)));
    try (eexists; split; reflexivity).
  destruct (session (rt w)) as [uid|] eqn:Hs;
    [|eexists; split; reflexivity].
  step. destruct (hd NoFault (oracle (advance (advance w))));
    try (eexists; split; reflexivity).
  destruct (select_role_data (advance (advance (advance w))) uid)
    as [Hw [Hd|(p & Hp & Hd)]]; cbn [fst snd]; rewrite Hw, Hd.
  - eexists; split; reflexivity.
  - rewrite opt_field_role.
    destruct (is_str (column p "role") "chief_admin") eqn:Hrole.
    + exfalso. apply (Hnot uid). split; [exact Hs|]. exists p.
      split; [exact Hp|]. unfold column, is_str in Hrole.
      destruct (p !! "role") as [[| | |s| |]|]; try discriminate Hrole.
      apply String.eqb_eq in Hrole. now subst.
    + eexists; split; reflexivity.
Qed.

Lemma run_delete_table w t c v :
  table (snd (run_query w (from t |> delete |> eq_ c v))) t
  = List.filter (fun r => negb (matches [(c, v)] r)) (table w t).
Proof.
  unfold run_query, run_delete. cbn [q_verb q_table q_filters eq_ delete from
                                     snd app].
  now rewrite table_set_same.
Qed.

Lemma run_update_table w t changes c v :
  table (snd (run_query w (from t |> update changes |> eq_ c v))) t
  = map (fun r : row => if matches [(c, v)] r then changes ∪ r else r)
        (table w t).
Proof.
  unfold run_query, run_update. cbn [q_verb q_table q_filters eq_ update from
                                     snd app].
  now rewrite table_set_same.
Qed.

Lemma select_role_world w uid : snd (run_query w (select_role uid)) = w.
Proof. reflexivity. Qed.

Lemma filter_out_matching (rows : list row) t :
  List.filter (matches [("id", t)])
    (List.filter (fun r => negb (matches [("id", t)] r)) rows) = [].
Proof.
  induction rows as [|x rows IH]; [reflexivity|]. cbn [List.filter].
  destruct (matches [("id", t)] x) eqn:E; cbn [negb List.filter];
    [exact IH|]. now rewrite E.
Qed.

(** When none of its eight external calls fails, a demotion by a
    chief_admin resets the role and removes the staff row. *)
Lemma demoteUser_effect (w : World) (uid target : string) :
  quiet 8 w ->
  caller_is w uid "chief_admin" ->
  exists w',
    demoteUser target w = (Returns (done_ "User demoted to customer"), w')
    /\ rows_with_id w' "admin_staff" target = []
    /\ (forall r : row,
          In r (rows_with_id w' "profiles" target) ->
          r !! "role" = Some (VStr "customer")).
Proof.
  intros Hq [Hs (p & Hp & Hr)].
  pose proof (quiet_tail 0 8 w ltac:(lia) Hq) as H1.
  pose proof (quiet_tail 1 8 w ltac:(lia) Hq) as H2.
  pose proof (quiet_tail 2 8 w ltac:(lia) Hq) as H3.
  pose proof (quiet_tail 3 8 w ltac:(lia) Hq) as H4.
  pose proof (quiet_tail 4 8 w ltac:(lia) Hq) as H5.
  pose proof (quiet_tail 5 8 w ltac:(lia) Hq) as H6.
  pose proof (quiet_tail 6 8 w ltac:(lia) Hq) as H7.
  pose proof (quiet_tail 7 8 w ltac:(lia) Hq) as H8.
  simpl Nat.iter in *.
  unfold demoteUser, createClient.
  quietly H1. quietly H2. rewrite Hs. quietly H3.
  rewrite select_role_found with (p := p) by exact Hp.
  cbn [fst snd resp_data ok].
  rewrite opt_field_role, (column_role _ _ Hr), is_str_same. cbn [negb].
  quietly H4. rewrite select_role_world.
  quietly H5. rewrite run_update_ok.
  cbn [throw_if_error resp_error ok]. rewrite bind_run. cbn [ret].
  quietly H6. quietly H7. unfold revalidatePath. quietly H8. cbn [modify].
  eexists. split; [reflexivity|]. unfold rows_with_id. split.
  - autorewrite with world. rewrite run_query_other_table by discriminate.
    autorewrite with world. rewrite run_delete_table.
    apply filter_out_matching.
  - intros r Hin. revert Hin.
    autorewrite with world. rewrite run_query_other_table by discriminate.
    autorewrite with world. rewrite run_query_other_table by discriminate.
    autorewrite with world. rewrite run_update_table.
    intros Hin. apply filter_In in Hin as [Hin Hm].
    apply in_map_iff in Hin as (r0 & <- & _).
    destruct (matches [("id", target)] r0) eqn:E.
    + apply lookup_union_Some_l. now rewrite lookup_singleton_eq.
    + rewrite E in Hm. discriminate.
Qed.
Import AdminActions.

(** ** What the actions leave alone *)

Section TablesOnly.
Variable P : gmap string (list row) -> Prop.

Lemma keeps_tables_external {A} (work : M A) :
  keeps (on_tables P) work -> keeps (on_tables P) (external work).
Proof.
  intros Hw s H. rewrite external_run.
  destruct (hd NoFault (oracle s)); [|exact H|exact H].
  apply Hw. exact H.
Qed.

Lemma keeps_tables_auth : keeps (on_tables P) auth_getUser.
Proof.
  intros s H. rewrite auth_getUser_run.
  destruct (hd NoFault (oracle s)); exact H.
Qed.

Lemma keeps_tables_await q :
  query_keeps P q -> keeps (on_tables P) (await q).
Proof.
  intros Hq s H. rewrite await_run.
  destruct (hd NoFault (oracle s)); [|exact H|exact H].
  apply (Hq (advance s)). exact H.
Qed.

Lemma keeps_tables_console_error label :
  keeps (on_tables P) (console_error label).
Proof. intros s H. exact H. Qed.

Lemma keeps_tables_revalidatePath p :
  keeps (on_tables P) (revalidatePath p).
Proof.
  unfold revalidatePath. apply keeps_tables_external. intros s H. exact H.
Qed.

Lemma query_keeps_select q cols :
  q_verb q = Select cols -> query_keeps P q.
Proof. intros Hv w H. unfold run_query. now rewrite Hv. Qed.

End TablesOnly.

Lemma table_after_query_other w q t :
  q_table q <> t ->
  default [] (tables (snd (run_query w q)) !! t) = default [] (tables w !! t).
Proof. intros H. exact (run_query_other_table w q t H). Qed.

Lemma query_keeps_other_table t Q q :
  q_table q <> t -> query_keeps (on_table t Q) q.
Proof.
  intros Hne w H. unfold on_table in *.
  now rewrite table_after_query_other.
Qed.

Lemma keeps_tables_getUser P res :
  keeps (on_tables P) (Middleware.getUser res).
Proof.
  intros s H. unfold Middleware.getUser, next_fault. rewrite bind_run.
  cbn [fst snd]. destruct (hd NoFault (oracle s)); exact H.
Qed.

(** Walks through an action and asks [tac] about each query it sends. *)
Ltac tables_kept tac :=
  unfold select_role, throw_if_error, prop, Date_now, now_iso, createClient,
    createStaticClient;
  repeat first
    [ apply keeps_ret | apply keeps_raise | apply keeps_gets
    | apply keeps_tables_console_error | apply keeps_tables_revalidatePath
    | apply keeps_tables_auth
    | apply keeps_tables_getUser
    | apply keeps_tables_await; tac
    | apply keeps_tables_external
    | apply keeps_try_catch; [|intros]
    | apply keeps_bind; [|intros]
    | progress cbv zeta
    | match goal with
      | |- keeps _ (match ?x with _ => _ end) => destruct x
      | |- keeps _ (if ?b then _ else _) => destruct b
      end ].

Ltac is_select := eapply query_keeps_select; reflexivity.

(** X1: the functions that only read never change a table, whatever the
    external calls do. *)
Theorem reading_actions_leave_tables (w : World) :
  (forall r, tables (snd (checkPermission r w)) = tables w)
  /\ tables (snd (getAdminPermissions w)) = tables w
  /\ tables (snd (getAllUsers w)) = tables w
  /\ tables (snd (getAllOrders w)) = tables w
  /\ (forall n, tables (snd (getActivityLogs n w)) = tables w)
  /\ (forall p, tables (snd (getSalesStats p w)) = tables w)
  /\ tables (snd (getSystemIssues w)) = tables w
  /\ tables (snd (getAllAgents w)) = tables w.
Proof.
  assert (H : forall A (m : M A),
             keeps (on_tables (fun t => t = tables w)) m ->
             tables (snd (m w)) = tables w).
  { intros A m Hm. exact (Hm w eq_refl). }
  repeat split; intros; apply H.
  - unfold checkPermission. tables_kept is_select.
  - unfold getAdminPermissions. tables_kept is_select.
  - unfold getAllUsers. tables_kept is_select.
  - unfold getAllOrders. tables_kept is_select.
  - unfold getActivityLogs. tables_kept is_select.
  - unfold getSalesStats, dateFilter. tables_kept is_select.
  - unfold getSystemIssues. tables_kept is_select.
  - unfold getAllAgents. tables_kept is_select.
Qed.

Lemma query_keeps_insert_grown t before q r ret_cols :
  q_verb q = Insert r ret_cols ->
  query_keeps (on_table t (grown_from before)) q.
Proof.
  intros Hv w [added H]. unfold on_table, run_query. rewrite Hv.
  unfold run_insert, table.
  destruct (r !! "id"); cbn [fst snd]; destruct (existsb _ _); cbn [snd];
    try (now exists added); cbn [tables set_tables set_next_id];
    (destruct (decide (q_table q = t)) as [<-|Hne];
     [ rewrite lookup_insert_eq; cbn [default from_option id];
       rewrite H, <- app_assoc; eexists; reflexivity
     | rewrite lookup_insert_ne by exact Hne; now exists added ]).
Qed.

Ltac log_query :=
  first [ is_select
        | apply query_keeps_other_table; discriminate
        | eapply query_keeps_insert_grown; reflexivity ].

(** X2: the audit log is append-only for this code: no admin action and
    no run of the middleware removes, rewrites or reorders a row of
    admin_activity_logs, whatever the external calls do. *)
Theorem audit_log_append_only (w : World) :
  ((forall r, log_only_grows (checkPermission r) w)
   /\ log_only_grows getAdminPermissions w
   /\ log_only_grows getAllUsers w
   /\ (forall t r, log_only_grows (promoteUser t r) w)
   /\ (forall t, log_only_grows (demoteUser t) w)
   /\ (forall t, log_only_grows (deleteUser t) w)
   /\ (forall t, log_only_grows (toggleUserStatus t) w)
   /\ (forall p, log_only_grows (createProduct p) w)
   /\ (forall i u, log_only_grows (updateProduct i u) w)
   /\ (forall i, log_only_grows (deleteProduct i) w)
   /\ (forall i, log_only_grows (toggleProductStatus i) w)
   /\ log_only_grows getAllOrders w
   /\ (forall i s, log_only_grows (updateOrderStatus i s) w)
   /\ (forall n, log_only_grows (getActivityLogs n) w)
   /\ (forall p, log_only_grows (getSalesStats p) w)
   /\ log_only_grows getSystemIssues w
   /\ log_only_grows getAllAgents w)
  /\ (forall req, log_only_grows (Middleware.middleware req) w).
Proof.
  assert (H : forall A (m : M A),
             keeps (on_tables (on_table "admin_activity_logs"
                      (grown_from (table w "admin_activity_logs")))) m ->
             log_only_grows m w).
  { intros A m Hm. apply (Hm w). exists []. now rewrite app_nil_r. }
  split; [repeat split; intros; apply H|intros req; apply H].
  - unfold checkPermission. tables_kept log_query.
  - unfold getAdminPermissions. tables_kept log_query.
  - unfold getAllUsers. tables_kept log_query.
  - unfold promoteUser. tables_kept log_query.
  - unfold demoteUser. tables_kept log_query.
  - unfold deleteUser. tables_kept log_query.
  - unfold toggleUserStatus. tables_kept log_query.
  - unfold createProduct. tables_kept log_query.
  - unfold updateProduct. tables_kept log_query.
  - unfold deleteProduct. tables_kept log_query.
  - unfold toggleProductStatus. tables_kept log_query.
  - unfold getAllOrders. tables_kept log_query.
  - unfold updateOrderStatus. tables_kept log_query.
  - unfold getActivityLogs. tables_kept log_query.
  - unfold getSalesStats, dateFilter. tables_kept log_query.
  - unfold getSystemIssues. tables_kept log_query.
  - unfold getAllAgents. tables_kept log_query.
  - unfold Middleware.middleware, Middleware.admin_block,
      Middleware.createServerClient.
    tables_kept log_query.
Qed.

(** *** Rows of other users *)

Lemma matches_other_id (r : row) target other :
  target <> other ->
  matches [("id", target)] r = true -> matches [("id", other)] r = false.
Proof.
  intros Hne H. apply matches_id in H.
  destruct (matches [("id", other)] r) eqn:E; [|reflexivity].
  apply matches_id in E. congruence.
Qed.

Lemma matches_id_union (changes r : row) i :
  changes !! "id" = None ->
  matches [("id", i)] (changes ∪ r) = matches [("id", i)] r.
Proof.
  intros H. unfold matches, column. cbn [forallb fst snd].
  now rewrite lookup_union_r.
Qed.

Lemma filter_other_update (rows : list row) changes target other :
  target <> other -> changes !! "id" = None ->
  List.filter (matches [("id", other)])
    (map (fun r : row => if matches [("id", target)] r
                         then changes ∪ r else r) rows)
  = List.filter (matches [("id", other)]) rows.
Proof.
  intros Hne Hc. induction rows as [|r rows IH]; [reflexivity|].
  cbn [map List.filter]. rewrite IH.
  destruct (matches [("id", target)] r) eqn:E; [|reflexivity].
  rewrite matches_id_union by exact Hc.
  now rewrite (matches_other_id r target other Hne E).
Qed.

Lemma filter_other_delete (rows : list row) target other :
  target <> other ->
  List.filter (matches [("id", other)])
    (List.filter (fun r => negb (matches [("id", target)] r)) rows)
  = List.filter (matches [("id", other)]) rows.
Proof.
  intros Hne. induction rows as [|r rows IH]; [reflexivity|].
  cbn [List.filter].
  destruct (matches [("id", target)] r) eqn:E; cbn [negb List.filter].
  - now rewrite (matches_other_id r target other Hne E).
  - now rewrite IH.
Qed.

Lemma query_keeps_update_target t other kept q changes target :
  q_verb q = Update changes -> q_filters q = [("id", target)] ->
  changes !! "id" = None -> target <> other ->
  query_keeps (on_table t (fun rows =>
                 List.filter (matches [("id", other)]) rows = kept)) q.
Proof.
  intros Hv Hf Hc Hne w H. unfold on_table, run_query in *. rewrite Hv.
  unfold run_update. cbn [snd tables set_tables]. rewrite Hf.
  destruct (decide (q_table q = t)) as [<-|Hn].
  - rewrite lookup_insert_eq. cbn [default from_option id]. unfold table.
    now rewrite filter_other_update.
  - now rewrite lookup_insert_ne.
Qed.

Lemma query_keeps_delete_target t other kept q target :
  q_verb q = Delete -> q_filters q = [("id", target)] -> target <> other ->
  query_keeps (on_table t (fun rows =>
                 List.filter (matches [("id", other)]) rows = kept)) q.
Proof.
  intros Hv Hf Hne w H. unfold on_table, run_query in *. rewrite Hv.
  unfold run_delete. cbn [snd tables set_tables]. rewrite Hf.
  destruct (decide (q_table q = t)) as [<-|Hn].
  - rewrite lookup_insert_eq. cbn [default from_option id]. unfold table.
    now rewrite filter_other_delete.
  - now rewrite lookup_insert_ne.
Qed.

Lemma query_keeps_insert_target t other kept q r ret_cols target :
  q_verb q = Insert r ret_cols -> r !! "id" = Some (VStr target) ->
  target <> other ->
  query_keeps (on_table t (fun rows =>
                 List.filter (matches [("id", other)]) rows = kept)) q.
Proof.
  intros Hv Hr Hne w H. unfold on_table, run_query in *. rewrite Hv.
  unfold run_insert, table. rewrite Hr. cbn [fst snd].
  destruct (existsb _ _); cbn [snd tables set_tables]; [exact H|].
  destruct (decide (q_table q = t)) as [<-|Hn].
  - rewrite lookup_insert_eq. cbn [default from_option id].
    rewrite List.filter_app, H. cbn [List.filter].
    rewrite (matches_other_id r target other Hne
               (proj2 (matches_id r target) Hr)).
    apply app_nil_r.
  - now rewrite lookup_insert_ne.
Qed.

Ltac target_query Hne :=
  first [ is_select
        | apply query_keeps_other_table; discriminate
        | eapply query_keeps_update_target;
            [reflexivity|reflexivity|reflexivity|exact Hne]
        | eapply query_keeps_delete_target;
            [reflexivity|reflexivity|exact Hne]
        | eapply query_keeps_insert_target;
            [reflexivity|apply staff_row_id|exact Hne] ].

(** X3: promoting, demoting, deleting or toggling user [target] never
    changes the profile row or the staff row of any other user, whoever
    calls and whatever the external calls do. *)
Theorem user_actions_touch_only_target (w : World) (target other : string) :
  target <> other ->
  (forall r, leaves_user other (promoteUser target r) w)
  /\ leaves_user other (demoteUser target) w
  /\ leaves_user other (deleteUser target) w
  /\ leaves_user other (toggleUserStatus target) w.
Proof.
  intros Hne.
  assert (H : forall A (m : M A),
             (forall kept,
                 keeps (on_tables (on_table "profiles" (fun rows =>
                          List.filter (matches [("id", other)]) rows = kept)))
                       m) ->
             (forall kept,
                 keeps (on_tables (on_table "admin_staff" (fun rows =>
                          List.filter (matches [("id", other)]) rows = kept)))
                       m) ->
             leaves_user other m w).
  { intros A m Hp Hs. split; [apply (Hp _ w)|apply (Hs _ w)]; reflexivity. }
  split; [intros r|split; [|split]]; apply H; intros kept.
  - unfold promoteUser. tables_kept ltac:(target_query Hne).
  - unfold promoteUser. tables_kept ltac:(target_query Hne).
  - unfold demoteUser. tables_kept ltac:(target_query Hne).
  - unfold demoteUser. tables_kept ltac:(target_query Hne).
  - unfold deleteUser. tables_kept ltac:(target_query Hne).
  - unfold deleteUser. tables_kept ltac:(target_query Hne).
  - unfold toggleUserStatus. tables_kept ltac:(target_query Hne).
  - unfold toggleUserStatus. tables_kept ltac:(target_query Hne).
Qed.

Lemma user_actions_touch_only_target_witness :
  "u2" <> "u3"
  /\ leaves_user "u3" (deleteUser "u2") (shop (Some "u1") [])
  /\ rows_with_id (snd (deleteUser "u2" (shop (Some "u1") []))) "profiles" "u2"
     = [].
Proof.
  assert (Hne : "u2" <> "u3") by discriminate.
  split; [exact Hne|]. split; [|vm_compute; reflexivity].
  exact (proj1 (proj2 (proj2
           (user_actions_touch_only_target (shop (Some "u1") []) "u2" "u3"
              Hne)))).
Defined.

(** ** Who may do what *)

(** The opening of every action that writes: client, session, and the
    branch for a caller who is not signed in. *)
Lemma session_gate (k : string -> M ActionResult) label dflt (w : World) :
  session (rt w) = None ->
  refused
    (try_catch
       (createClient ;;
        user <- auth_getUser ;;
        match user with
        | None => ret (failure "Not authenticated")
        | Some user_id => k user_id
        end)
       (fun error =>
          console_error label ;; ret (failure (err_message error dflt))))
    w.
Proof.
  intros Hs. unfold refused, createClient.
  step. destruct (hd NoFault (oracle w)); try (eexists; split; reflexivity).
  cbn [ret]. step.
  destruct (hd NoFault (oracle (advance w)));
    try (eexists; split; reflexivity).
  rewrite Hs. eexists; split; reflexivity.
Qed.

(** The same opening followed by the role check of the user-management
    actions. *)
Lemma chief_gate (k : string -> M ActionResult) denied_msg label dflt
  (w : World) :
  (forall uid, ~ caller_is w uid "chief_admin") ->
  refused
    (try_catch
       (createClient ;;
        currentUser <- auth_getUser ;;
        match currentUser with
        | None => ret (failure "Not authenticated")
        | Some currentUser_id =>
            r <- await (select_role currentUser_id) ;;
            let callerProfile := resp_data r in
            if negb (is_str (opt_field callerProfile "role") "chief_admin")
            then ret (failure denied_msg)
            else k currentUser_id
        end)
       (fun error =>
          console_error label ;; ret (failure (err_message error dflt))))
    w.
Proof.
  intros Hnot. unfold refused, createClient.
  step. destruct (hd NoFault (oracle w)); try (eexists; split; reflexivity).
  cbn [ret]. step.
  destruct (hd NoFault (oracle (advance w)));
    try (eexists; split; reflexivity).
  destruct (session (rt w)) as [uid|] eqn:Hs;
    [|eexists; split; reflexivity].
  step. destruct (hd NoFault (oracle (advance (advance w))));
    try (eexists; split; reflexivity).
  destruct (select_role_data (advance (advance (advance w))) uid)
    as [Hw [Hd|(p & Hp & Hd)]]; cbn [fst snd]; rewrite Hw, Hd.
  - eexists; split; reflexivity.
  - rewrite opt_field_role.
    destruct (is_str (column p "role") "chief_admin") eqn:Hrole.
    + exfalso. apply (Hnot uid). split; [exact Hs|]. exists p.
      split; [exact Hp|]. unfold column, is_str in Hrole.
      destruct (p !! "role") as [[| | |s| |]|]; try discriminate Hrole.
      apply String.eqb_eq in Hrole. now subst.
    + eexists; split; reflexivity.
Qed.

(** X4: the four user-management actions do nothing for a caller who is
    not a signed-in chief_admin: each returns a failure result and leaves
    every table as it was, whatever the external calls do. *)
Theorem user_management_requires_chief_admin (w : World) (target : string) :
  (forall uid, ~ caller_is w uid "chief_admin") ->
  (forall r, refused (promoteUser target r) w)
  /\ refused (demoteUser target) w
  /\ refused (deleteUser target) w
  /\ refused (toggleUserStatus target) w.
Proof.
  intros Hnot.
  split; [intros r|split; [|split]]; apply chief_gate; exact Hnot.
Qed.

Lemma user_management_requires_chief_admin_witness :
  (forall uid, ~ caller_is (shop (Some "u2") []) uid "chief_admin")
  /\ fst (deleteUser "u3" (shop (Some "u2") []))
     = Returns (failure "Only chief admin can delete users")
  /\ refused (deleteUser "u3") (shop (Some "u2") []).
Proof.
  assert (H : forall uid, ~ caller_is (shop (Some "u2") []) uid "chief_admin").
  { intros uid [Hs (p & Hp & Hr)]. injection Hs as <-.
    change (rows_with_id (shop (Some "u2") []) "profiles" "u2")
      with [profile_row "u2" "agent"] in Hp.
    injection Hp as <-. vm_compute in Hr. discriminate. }
  split; [exact H|]. split; [vm_compute; reflexivity|].
  exact (proj1 (proj2 (proj2
           (user_management_requires_chief_admin _ "u3" H)))).
Defined.

(** X5: every action that writes refuses a caller who is not signed in:
    it returns a failure result and leaves every table as it was,
    whatever the external calls do. *)
Theorem writing_actions_require_session (w : World) :
  session (rt w) = None ->
  (forall t r, refused (promoteUser t r) w)
  /\ (forall t, refused (demoteUser t) w)
  /\ (forall t, refused (deleteUser t) w)
  /\ (forall t, refused (toggleUserStatus t) w)
  /\ (forall p, refused (createProduct p) w)
  /\ (forall i u, refused (updateProduct i u) w)
  /\ (forall i, refused (deleteProduct i) w)
  /\ (forall i, refused (toggleProductStatus i) w)
  /\ (forall i s, refused (updateOrderStatus i s) w).
Proof.
  intros Hs. repeat split; intros; apply session_gate; exact Hs.
Qed.

Lemma writing_actions_require_session_witness :
  session (rt (shop None [])) = None
  /\ fst (deleteProduct "p1" (shop None []))
     = Returns (failure "Not authenticated")
  /\ refused (updateOrderStatus "o1" "shipped") (shop None [Throws denied]).
Proof.
  assert (H : forall f, session (rt (shop None f)) = None) by reflexivity.
  split; [exact (H [])|]. split; [vm_compute; reflexivity|].
  exact (proj2 (proj2 (proj2 (proj2 (proj2 (proj2 (proj2 (proj2
           (writing_actions_require_session _ (H [Throws denied])))))))))
           "o1" "shipped").
Defined.

(** *** The permission table and the role check *)

Lemma is_str_text (s t : string) : is_str (VStr s) t = bool_decide (s = t).
Proof.
  unfold is_str. destruct (String.eqb_spec s t) as [->|Hn].
  - now rewrite bool_decide_eq_true_2.
  - now rewrite bool_decide_eq_false_2.
Qed.

Lemma hierarchy_levels (v : value) :
  js_ge (hierarchy_at v) (Some 3%Z) = is_str v "chief_admin"
  /\ js_ge (hierarchy_at v) (Some 2%Z)
     = is_str v "admin" || is_str v "chief_admin"
  /\ js_ge (hierarchy_at v) (Some 1%Z)
     = is_str v "agent" || (is_str v "admin" || is_str v "chief_admin")
  /\ (js_ge (hierarchy_at v) (Some 0%Z) = true ->
      exists r, v = VStr (role_name r)).
Proof.
  destruct v as [| | |s| |]; try (repeat split; try reflexivity; discriminate).
  unfold hierarchy_at, roleHierarchy.
  destruct (decide (s = "customer")) as [->|H0];
    [repeat split; try reflexivity; now exists customer|].
  destruct (decide (s = "agent")) as [->|H1];
    [repeat split; try reflexivity; now exists agent|].
  destruct (decide (s = "admin")) as [->|H2];
    [repeat split; try reflexivity; now exists admin|].
  destruct (decide (s = "chief_admin")) as [->|H3];
    [repeat split; try reflexivity; now exists chief_admin|].
  rewrite !is_str_text, !bool_decide_eq_false_2 by assumption.
  rewrite !lookup_insert_ne by congruence.
  rewrite lookup_singleton_ne by congruence.
  repeat split; try reflexivity. discriminate.
Qed.

Lemma role_read {A} (f : value -> A) (dflt : A) label (w : World) :
  fst (try_catch
         (createClient ;;
          user <- auth_getUser ;;
          match user with
          | None => ret dflt
          | Some user_id =>
              r <- await (select_role user_id) ;;
              let profile := resp_data r in
              if negb (truthy profile) then ret dflt
              else
                role <- prop profile "role" ;;
                ret (f role)
          end)
         (fun error => console_error label ;; ret dflt) w)
  = Returns (from_option f dflt (seen_role w)).
Proof.
  unfold seen_role, createClient.
  destruct w as [r o t n rv c ft].
  destruct o as [|f1 [|f2 [|f3 o]]];
    repeat match goal with f : Fault |- _ => destruct f end.
  all: step;
    cbn [oracle hd tail take forallb is_NoFault andb ret advance set_oracle rt];
    try reflexivity.
  all: step;
    cbn [oracle hd tail take forallb is_NoFault andb ret advance set_oracle rt];
    try reflexivity.
  all: destruct (session r) as [uid|]; cbn [mbind option_bind from_option];
    try reflexivity.
  all: step; cbn [oracle hd tail advance set_oracle rt]; try reflexivity.
  all: unfold run_query, select_role, run_select, rows_with_id, table;
    cbn [q_verb q_filters q_table q_order q_limit q_single single eq_ select
         from app fst snd tables advance set_oracle];
    destruct (List.filter _ _) as [|p [|q l]]; try reflexivity.
Qed.

Lemma checkPermission_seen_role r w :
  fst (checkPermission r w)
  = Returns (from_option
               (fun role => js_ge (hierarchy_at role)
                                  (roleHierarchy !! role_name r))
               false (seen_role w)).
Proof. apply role_read. Qed.

Lemma getAdminPermissions_seen_role w :
  fst (getAdminPermissions w)
  = Returns (from_option
               (fun role =>
                  let isChiefAdmin := is_str role "chief_admin" in
                  let isAdmin := is_str role "admin" || isChiefAdmin in
                  let isAgent := is_str role "agent" || isAdmin in
                  Some {| canManageUsers := isChiefAdmin;
                          canManageProducts := isAgent;
                          canManageOrders := isAgent;
                          canViewAuditLogs := isAgent;
                          canViewSalesLogs := isAgent;
                          canManageAgents := isChiefAdmin;
                          role := role |})
               None (seen_role w)).
Proof. apply (role_read _ None). Qed.

(** X6: the permission table and the role check agree, whatever the
    external calls do.  When [getAdminPermissions] returns [null],
    [checkPermission] returns false for every role; when it returns a
    table, user and agent management are granted exactly when
    [checkPermission "chief_admin"] holds, and products, orders and both
    logs exactly when [checkPermission "agent"] holds.  Neither function
    throws. *)
Theorem permissions_agree_with_checkPermission (w : World) :
  match fst (getAdminPermissions w) with
  | Returns None => forall r, fst (checkPermission r w) = Returns false
  | Returns (Some p) =>
      fst (checkPermission chief_admin w) = Returns (canManageUsers p)
      /\ fst (checkPermission agent w) = Returns (canManageProducts p)
      /\ canManageAgents p = canManageUsers p
      /\ canManageOrders p = canManageProducts p
      /\ canViewAuditLogs p = canManageProducts p
      /\ canViewSalesLogs p = canManageProducts p
      /\ implb (canManageUsers p) (canManageProducts p) = true
  | Raises _ => False
  end.
Proof.
  rewrite getAdminPermissions_seen_role.
  destruct (seen_role w) as [role|] eqn:E; cbn [from_option].
  - rewrite !checkPermission_seen_role, E. cbn [from_option].
    destruct (hierarchy_levels role) as (H3 & _ & H1 & _).
    change (roleHierarchy !! role_name chief_admin) with (Some 3%Z).
    change (roleHierarchy !! role_name agent) with (Some 1%Z).
    rewrite H3, H1. cbn [canManageUsers canManageProducts canManageAgents
                         canManageOrders canViewAuditLogs canViewSalesLogs].
    repeat split. destruct (is_str role "chief_admin"); [|reflexivity].
    cbn. now rewrite !orb_true_r.
  - intros r. now rewrite checkPermission_seen_role, E.
Qed.

(** ** What the actions write *)

(** Names the verdicts of the calls that [Hq] declares quiet. *)
Ltac verdicts Hq :=
  let rec go k :=
    first
      [ match type of Hq with
        | quiet ?n ?w =>
            let H := fresh "V" in
            pose proof (quiet_tail k n w ltac:(lia) Hq) as H;
            simpl Nat.iter in H
        end; go (S k)
      | idtac ] in
  go 0%nat.

(** One more external call that meets no fault. *)
Ltac hush :=
  step; autorewrite with world;
  match goal with
  | H : hd NoFault ?o = NoFault |- context [hd NoFault ?o] => rewrite H
  end;
  cbn [ret fst snd resp_data resp_error ok throw_if_error].

Lemma run_delete_ok w t c v :
  fst (run_query w (from t |> delete |> eq_ c v)) = ok VNull.
Proof. reflexivity. Qed.

Lemma run_query_revalidated w q :
  revalidated (snd (run_query w q)) = revalidated w.
Proof.
  unfold run_query, run_insert, run_update, run_delete.
  destruct (q_verb q); cbn [snd fst]; try reflexivity.
  destruct (existsb _ _); [reflexivity|].
  cbn [snd]. now destruct (r !! "id").
Qed.

Lemma revalidated_advance w : revalidated (advance w) = revalidated w.
Proof. reflexivity. Qed.

#[export] Hint Rewrite run_query_revalidated revalidated_advance : world.

(** The [if (error) throw error] after an update or a delete that the
    database carried out. *)
Ltac carried_out :=
  rewrite ?run_update_ok, ?run_delete_ok;
  cbn [throw_if_error resp_error ok]; rewrite bind_run; cbn [ret].

(** The opening of the user-management actions for a chief_admin. *)
Ltac as_chief Hs p Hp Hr :=
  unfold createClient; hush; hush; rewrite Hs; hush;
  rewrite select_role_found with (p := p) by exact Hp;
  cbn [fst snd resp_data ok];
  rewrite opt_field_role, (column_role _ _ Hr), is_str_same; cbn [negb].

(** X7: when none of its seven external calls fails, [deleteUser] called
    by a chief_admin removes every profile row and every staff row of the
    target; the target may be the caller. *)
Theorem deleteUser_effect (w : World) (uid target : string) :
  quiet 7 w ->
  caller_is w uid "chief_admin" ->
  exists w',
    deleteUser target w = (Returns (done_ "User deleted successfully"), w')
    /\ rows_with_id w' "profiles" target = []
    /\ rows_with_id w' "admin_staff" target = []
    /\ revalidated w' = revalidated w ++ ["/admin/users"].
Proof.
  intros Hq [Hs (p & Hp & Hr)]. verdicts Hq.
  unfold deleteUser. as_chief Hs p Hp Hr.
  hush. hush. carried_out. hush.
  unfold revalidatePath. hush. cbn [modify].
  eexists. split; [reflexivity|]. unfold rows_with_id. repeat split.
  - autorewrite with world. rewrite run_query_other_table by discriminate.
    autorewrite with world. rewrite run_delete_table.
    apply filter_out_matching.
  - autorewrite with world. rewrite run_query_other_table by discriminate.
    autorewrite with world. rewrite run_query_other_table by discriminate.
    autorewrite with world. rewrite run_delete_table.
    apply filter_out_matching.
  - cbn [revalidated set_revalidated]. now autorewrite with world.
Qed.

Lemma deleteUser_effect_witness :
  (quiet 7 (shop (Some "u1") [])
   /\ caller_is (shop (Some "u1") []) "u1" "chief_admin")
  /\ exists w',
       deleteUser "u2" (shop (Some "u1") [])
       = (Returns (done_ "User deleted successfully"), w')
       /\ rows_with_id w' "profiles" "u2" = []
       /\ rows_with_id w' "admin_staff" "u2" = []
       /\ revalidated w'
          = revalidated (shop (Some "u1") []) ++ ["/admin/users"].
Proof.
  assert (Hq : quiet 7 (shop (Some "u1") [])) by reflexivity.
  assert (Hc : caller_is (shop (Some "u1") []) "u1" "chief_admin").
  { split; [reflexivity|]. exists (profile_row "u1" "chief_admin").
    split; vm_compute; reflexivity. }
  split; [split; assumption|].
  exact (deleteUser_effect (shop (Some "u1") []) "u1" "u2" Hq Hc).
Defined.

Lemma updated_rows_have (rows : list row) changes t k v :
  changes !! k = Some v ->
  forall r : row,
    In r (List.filter (matches [("id", t)])
            (map (fun r : row => if matches [("id", t)] r
                                 then changes ∪ r else r) rows)) ->
    r !! k = Some v.
Proof.
  intros Hc r Hin. apply filter_In in Hin as [Hin Hm].
  apply in_map_iff in Hin as (r0 & <- & _).
  destruct (matches [("id", t)] r0) eqn:E.
  - now apply lookup_union_Some_l.
  - rewrite E in Hm. discriminate.
Qed.

(** X8: when none of its seven external calls fails, a chief_admin who
    promotes a user without a staff row to a role other than customer
    gets a success; afterwards the target has exactly one staff row, the
    one the function builds, and each of the target's profile rows holds
    the new role. *)
Theorem promoteUser_effect (w : World) (uid target : string)
  (newRole : UserRole) :
  quiet 7 w ->
  caller_is w uid "chief_admin" ->
  newRole <> customer ->
  rows_with_id w "admin_staff" target = [] ->
  exists w',
    promoteUser target newRole w
    = (Returns (done_ ("User promoted to " +:+ role_name newRole)), w')
    /\ rows_with_id w' "admin_staff" target
       = [staff_row target newRole (now (rt w))]
    /\ (forall r : row,
          In r (rows_with_id w' "profiles" target) ->
          r !! "role" = Some (VStr (role_name newRole))).
Proof.
  intros Hq [Hs (p & Hp & Hr)] Hnc Hnone. verdicts Hq.
  unfold promoteUser. as_chief Hs p Hp Hr.
  hush. carried_out.
  assert (Hnc' : negb (role_eqb newRole customer) = true)
    by (destruct newRole; [contradiction|reflexivity..]).
  rewrite Hnc'. rewrite !bind_run. cbn [Date_now gets].
  hush.
  match goal with
  | |- context [run_query ?s (insert (staff_row ?t ?r ?ts) _)] =>
      pose proof (insert_staff_row s t r ts) as Hi;
      assert (Hrows : rows_with_id s "admin_staff" t = [])
  end.
  { unfold rows_with_id. autorewrite with world.
    rewrite run_query_other_table by discriminate.
    autorewrite with world. exact Hnone. }
  cbv zeta in Hi. rewrite Hrows in Hi. destruct Hi as [Hi1 Hi2].
  rewrite Hi1. cbn [resp_error ok ret].
  hush. unfold revalidatePath. hush. cbn [modify].
  eexists. split; [reflexivity|]. unfold rows_with_id in *. split.
  - autorewrite with world. rewrite run_query_other_table by discriminate.
    autorewrite with world. rewrite Hi2, rows_with_id_snoc, Hrows.
    rewrite (proj2 (matches_id _ _) (staff_row_id _ _ _)). reflexivity.
  - autorewrite with world. rewrite run_query_other_table by discriminate.
    autorewrite with world. rewrite run_query_other_table by discriminate.
    autorewrite with world. rewrite run_update_table.
    apply updated_rows_have. now rewrite lookup_singleton_eq.
Qed.

Lemma promoteUser_effect_witness :
  (quiet 7 (shop (Some "u1") [])
   /\ caller_is (shop (Some "u1") []) "u1" "chief_admin"
   /\ agent <> customer
   /\ rows_with_id (shop (Some "u1") []) "admin_staff" "u3" = [])
  /\ rows_with_id (snd (promoteUser "u3" agent (shop (Some "u1") [])))
       "admin_staff" "u3"
     = [staff_row "u3" agent 1700000000000%Z].
Proof.
  assert (Hq : quiet 7 (shop (Some "u1") [])) by reflexivity.
  assert (Hc : caller_is (shop (Some "u1") []) "u1" "chief_admin").
  { split; [reflexivity|]. exists (profile_row "u1" "chief_admin").
    split; vm_compute; reflexivity. }
  assert (Hn : agent <> customer) by discriminate.
  assert (Hr : rows_with_id (shop (Some "u1") []) "admin_staff" "u3" = [])
    by reflexivity.
  split; [auto|].
  destruct (promoteUser_effect _ "u1" "u3" agent Hq Hc Hn Hr)
    as (w' & E & Hstaff & _).
  rewrite E. exact Hstaff.
Defined.

(** X9: [promoteUser] with the role customer sends no query to
    admin_staff: whatever the external calls do, the staff table is as
    before, so a staff row of the target stays; for a chief_admin and six
    quiet calls the call is a success. *)
Theorem promoteUser_to_customer_keeps_staff_row (w : World)
  (target : string) :
  table (snd (promoteUser target customer w)) "admin_staff"
  = table w "admin_staff"
  /\ forall uid,
       quiet 6 w -> caller_is w uid "chief_admin" ->
       fst (promoteUser target customer w)
       = Returns (done_ "User promoted to customer").
Proof.
  split.
  - assert (H : keeps (on_tables (on_table "admin_staff"
                         (fun rows => rows = table w "admin_staff")))
                  (promoteUser target customer)).
    { unfold promoteUser.
      change (negb (role_eqb customer customer)) with false. cbv iota.
      tables_kept ltac:(first [is_select
                              | apply query_keeps_other_table; discriminate]). }
    exact (H w eq_refl).
  - intros uid Hq [Hs (p & Hp & Hr)]. verdicts Hq.
    unfold promoteUser. as_chief Hs p Hp Hr.
    hush. carried_out.
    change (negb (role_eqb customer customer)) with false. cbv iota.
    rewrite !bind_run. cbn [ret].
    hush. unfold revalidatePath. hush. reflexivity.
Qed.

Lemma promoteUser_to_customer_keeps_staff_row_witness :
  (quiet 6 (shop (Some "u1") [])
   /\ caller_is (shop (Some "u1") []) "u1" "chief_admin")
  /\ fst (promoteUser "u2" customer (shop (Some "u1") []))
     = Returns (done_ "User promoted to customer")
  /\ rows_with_id (snd (promoteUser "u2" customer (shop (Some "u1") [])))
       "admin_staff" "u2"
     = [staff_row "u2" agent 1690000000000%Z].
Proof.
  assert (Hq : quiet 6 (shop (Some "u1") [])) by reflexivity.
  assert (Hc : caller_is (shop (Some "u1") []) "u1" "chief_admin").
  { split; [reflexivity|]. exists (profile_row "u1" "chief_admin").
    split; vm_compute; reflexivity. }
  split; [auto|]. split.
  - exact (proj2 (promoteUser_to_customer_keeps_staff_row _ "u2") "u1" Hq Hc).
  - unfold rows_with_id.
    rewrite (proj1 (promoteUser_to_customer_keeps_staff_row
                      (shop (Some "u1") []) "u2")).
    reflexivity.
Defined.

(** *** Toggling *)

Lemma select_flag_found w t c i (q : row) :
  rows_with_id w t i = [q] ->
  run_query w (from t |> select [Col c] |> eq_ "id" i |> single)
  = (ok (VObj {[ c := column q c ]}), w).
Proof.
  intros H. unfold run_query, run_select, rows_with_id in *.
  simpl. rewrite H. reflexivity.
Qed.

Lemma select_flag_missing w t c i :
  rows_with_id w t i = [] ->
  run_query w (from t |> select [Col c] |> eq_ "id" i |> single)
  = (failed (pg_error w "PGRST116"
               "JSON object requested, multiple (or no) rows returned"), w).
Proof.
  intros H. unfold run_query, run_select, rows_with_id in *.
  simpl. rewrite H. reflexivity.
Qed.

Lemma opt_field_single c (v : value) : opt_field (VObj {[ c := v ]}) c = v.
Proof. unfold opt_field. now rewrite lookup_singleton_eq. Qed.

Lemma filter_updated (rows : list row) changes t :
  changes !! "id" = None ->
  List.filter (matches [("id", t)])
    (map (fun r : row => if matches [("id", t)] r then changes ∪ r else r)
         rows)
  = map (fun r : row => changes ∪ r) (List.filter (matches [("id", t)]) rows).
Proof.
  intros Hc. induction rows as [|r rows IH]; [reflexivity|].
  cbn [map List.filter]. destruct (matches [("id", t)] r) eqn:E.
  - rewrite matches_id_union by exact Hc. rewrite E. cbn [map]. now rewrite IH.
  - rewrite E. exact IH.
Qed.

Lemma update_without_match (rows : list row) changes t :
  List.filter (matches [("id", t)]) rows = [] ->
  map (fun r : row => if matches [("id", t)] r then changes ∪ r else r) rows
  = rows.
Proof.
  induction rows as [|r rows IH]; [reflexivity|]. cbn [map List.filter].
  destruct (matches [("id", t)] r); [discriminate|].
  intros H. now rewrite IH.
Qed.

(** X10: when none of its seven external calls fails and the caller is a
    chief_admin, [toggleUserStatus] flips the is_active flag of the
    target's profile row and reports the matching word; for a target
    without a profile row it reports "User activated" all the same and
    leaves the profiles table as it was. *)
Theorem toggleUserStatus_effect (w : World) (uid target : string) :
  quiet 7 w ->
  caller_is w uid "chief_admin" ->
  (forall q : row,
     rows_with_id w "profiles" target = [q] ->
     exists w',
       toggleUserStatus target w
       = (Returns (done_ ("User " +:+ (if truthy (column q "is_active")
                                        then "deactivated"
                                        else "activated"))), w')
       /\ rows_with_id w' "profiles" target
          = [ {[ "is_active" := VBool (negb (truthy (column q "is_active"))) ]}
              ∪ q ])
  /\ (rows_with_id w "profiles" target = [] ->
      exists w',
        toggleUserStatus target w = (Returns (done_ "User activated"), w')
        /\ table w' "profiles" = table w "profiles").
Proof.
  intros Hq [Hs (p & Hp & Hr)]. verdicts Hq. split.
  - intros q Hrow. unfold toggleUserStatus. as_chief Hs p Hp Hr.
    hush. rewrite select_flag_found with (q := q) by exact Hrow.
    cbn [fst snd resp_data ok]. rewrite opt_field_single.
    hush. carried_out. hush. unfold revalidatePath. hush. cbn [modify].
    eexists. split; [reflexivity|]. unfold rows_with_id in *.
    autorewrite with world. rewrite run_query_other_table by discriminate.
    autorewrite with world. rewrite run_update_table.
    rewrite filter_updated by reflexivity. autorewrite with world.
    now rewrite Hrow.
  - intros Hrow. unfold toggleUserStatus. as_chief Hs p Hp Hr.
    hush. rewrite select_flag_missing by exact Hrow.
    cbn [fst snd resp_data failed opt_field truthy negb].
    hush. carried_out. hush. unfold revalidatePath. hush. cbn [modify].
    eexists. split; [reflexivity|].
    autorewrite with world. rewrite run_query_other_table by discriminate.
    autorewrite with world. rewrite run_update_table.
    autorewrite with world. now apply update_without_match.
Qed.

Lemma toggleUserStatus_effect_witness :
  (quiet 7 (shop (Some "u1") [])
   /\ caller_is (shop (Some "u1") []) "u1" "chief_admin"
   /\ rows_with_id (shop (Some "u1") []) "profiles" "u3"
      = [profile_row "u3" "customer"]
   /\ rows_with_id (shop (Some "u1") []) "profiles" "nobody" = [])
  /\ fst (toggleUserStatus "u3" (shop (Some "u1") []))
     = Returns (done_ "User deactivated")
  /\ fst (toggleUserStatus "nobody" (shop (Some "u1") []))
     = Returns (done_ "User activated").
Proof.
  assert (Hq : quiet 7 (shop (Some "u1") [])) by reflexivity.
  assert (Hc : caller_is (shop (Some "u1") []) "u1" "chief_admin").
  { split; [reflexivity|]. exists (profile_row "u1" "chief_admin").
    split; vm_compute; reflexivity. }
  assert (H3 : rows_with_id (shop (Some "u1") []) "profiles" "u3"
               = [profile_row "u3" "customer"]) by reflexivity.
  assert (H0 : rows_with_id (shop (Some "u1") []) "profiles" "nobody" = [])
    by reflexivity.
  split; [auto|]. split.
  - destruct (proj1 (toggleUserStatus_effect _ "u1" "u3" Hq Hc) _ H3)
      as (w' & E & _).
    rewrite E. reflexivity.
  - destruct (proj2 (toggleUserStatus_effect _ "u1" "nobody" Hq Hc) H0)
      as (w' & E & _).
    rewrite E. reflexivity.
Defined.

(** *** Products and orders *)

(** X11: [deleteProduct] and [updateOrderStatus] ask for a session and
    for nothing else: whatever profile and staff rows the caller has,
    a customer included, the call deletes the product or sets the status
    of the order.  With no failing call the product rows with that
    id are gone, and the order rows with that id carry the new status
    and the time of the call. *)
Theorem product_and_order_writes_ask_no_role (w : World) (uid : string) :
  session (rt w) = Some uid ->
  (forall productId,
     quiet 7 w ->
     exists w',
       deleteProduct productId w
       = (Returns (done_ "Product deleted successfully"), w')
       /\ rows_with_id w' "products" productId = []
       /\ table w' "profiles" = table w "profiles")
  /\ (forall orderId status,
        quiet 5 w ->
        exists w',
          updateOrderStatus orderId status w
          = (Returns (done_ ("Order status updated to " +:+ status)), w')
          /\ (forall r : row,
                In r (rows_with_id w' "orders" orderId) ->
                r !! "status" = Some (VStr status)
                /\ r !! "updated_at"
                   = Some (VStr (toISOString (dates (rt w)) (now (rt w)))))
          /\ length (table w' "orders") = length (table w "orders")).
Proof.
  intros Hs. split.
  - intros productId Hq. verdicts Hq.
    unfold deleteProduct, createClient. hush. hush. rewrite Hs.
    hush. carried_out. hush.
    unfold revalidatePath. hush. cbn [modify]. rewrite bind_run.
    hush. cbn [modify]. rewrite bind_run. hush. cbn [modify].
    eexists. split; [reflexivity|]. unfold rows_with_id. split.
    + autorewrite with world. rewrite run_query_other_table by discriminate.
      autorewrite with world. rewrite run_delete_table.
      apply filter_out_matching.
    + autorewrite with world. rewrite run_query_other_table by discriminate.
      autorewrite with world. rewrite run_query_other_table by discriminate.
      now autorewrite with world.
  - intros orderId status Hq. verdicts Hq.
    unfold updateOrderStatus, createClient. hush. hush. rewrite Hs.
    rewrite bind_run. cbn [now_iso gets].
    hush. carried_out. hush.
    unfold revalidatePath. hush. cbn [modify].
    eexists. split; [reflexivity|]. unfold rows_with_id. split.
    + intros r. autorewrite with world.
      rewrite run_query_other_table by discriminate.
      autorewrite with world. rewrite run_update_table.
      intros Hin. split; revert Hin; apply updated_rows_have.
      * now rewrite lookup_insert_eq.
      * rewrite lookup_insert_ne by discriminate.
        now rewrite lookup_singleton_eq.
    + autorewrite with world. rewrite run_query_other_table by discriminate.
      autorewrite with world. rewrite run_update_table.
      now rewrite length_map.
Qed.

Lemma product_and_order_writes_ask_no_role_witness :
  (session (rt (stocked (Some "u3") [])) = Some "u3"
   /\ has_role (stocked (Some "u3") []) "u3" "customer"
   /\ quiet 7 (stocked (Some "u3") []))
  /\ length (rows_with_id (stocked (Some "u3") []) "products" "p1") = 1%nat
  /\ exists w',
       deleteProduct "p1" (stocked (Some "u3") [])
       = (Returns (done_ "Product deleted successfully"), w')
       /\ rows_with_id w' "products" "p1" = []
       /\ table w' "profiles" = table (stocked (Some "u3") []) "profiles".
Proof.
  assert (Hs : session (rt (stocked (Some "u3") [])) = Some "u3")
    by reflexivity.
  assert (Hr : has_role (stocked (Some "u3") []) "u3" "customer").
  { exists (profile_row "u3" "customer"). split; vm_compute; reflexivity. }
  assert (Hq : quiet 7 (stocked (Some "u3") [])) by reflexivity.
  split; [auto|]. split; [reflexivity|].
  exact (proj1 (product_and_order_writes_ask_no_role _ "u3" Hs) "p1" Hq).
Defined.

Lemma same_id_matches (r x : row) t :
  r !! "id" = Some (VStr t) -> same_id r x = matches [("id", t)] x.
Proof.
  intros Hr. unfold same_id. rewrite Hr. unfold matches, column. cbn.
  rewrite andb_true_r.
  destruct (x !! "id") as [[| | |s| |]|]; cbn; try reflexivity.
  apply String.eqb_sym.
Qed.

Lemma existsb_same_id (rows : list row) (r : row) t :
  r !! "id" = Some (VStr t) ->
  List.filter (matches [("id", t)]) rows = [] ->
  existsb (same_id r) rows = false.
Proof.
  intros Hr. induction rows as [|x l IH]; [reflexivity|].
  cbn [existsb List.filter]. rewrite (same_id_matches r x t Hr).
  destruct (matches [("id", t)] x); [discriminate|exact IH].
Qed.

(** What the database does with a row that comes without an id. *)
Lemma insert_generated s t (r : row) :
  r !! "id" = None ->
  rows_with_id s t ("id-" +:+ pretty (next_id s)) = [] ->
  run_query s (from t |> insert r |> returning [Col "id"] |> single)
  = (ok (VObj (<["id" := VStr ("id-" +:+ pretty (next_id s))]> ∅)),
     set_tables
       (<[t := table s t
               ++ [<["id" := VStr ("id-" +:+ pretty (next_id s))]> r]]>
          (tables s))
       (set_next_id (S (next_id s)) s)).
Proof.
  intros Hr Hfresh. unfold run_query.
  cbn [q_verb single returning insert from]. unfold run_insert.
  cbn [q_table q_single]. rewrite Hr. cbn [fst snd].
  rewrite (existsb_same_id _ _ ("id-" +:+ pretty (next_id s)));
    [|now rewrite lookup_insert_eq|exact Hfresh].
  cbn [project foldr]. unfold column. rewrite lookup_insert_eq. reflexivity.
Qed.

Lemma select_flag_value w t c i :
  run_query w (from t |> select [Col c] |> eq_ "id" i |> single)
  = (match rows_with_id w t i with
     | [q] => ok (VObj {[ c := column q c ]})
     | _ => failed (pg_error w "PGRST116"
                      "JSON object requested, multiple (or no) rows returned")
     end, w).
Proof.
  unfold run_query, run_select, rows_with_id. simpl.
  now destruct (List.filter _ _) as [|q [|q' l]].
Qed.

(** The [created_by] of a new product: the caller's staff id, or [null]
    for a caller without a staff row. *)
Lemma created_by_value w uid :
  or_else
    (opt_field
       (resp_data
          (match rows_with_id w "admin_staff" uid with
           | [q] => ok (VObj {[ "id" := column q "id" ]})
           | _ => failed (pg_error w "PGRST116"
                    "JSON object requested, multiple (or no) rows returned")
           end)) "id") VNull
  = match rows_with_id w "admin_staff" uid with
    | [_] => if String.eqb uid "" then VNull else VStr uid
    | _ => VNull
    end.
Proof.
  destruct (rows_with_id w "admin_staff" uid) as [|q [|q' l]] eqn:E;
    try reflexivity.
  cbn [resp_data ok]. rewrite opt_field_single.
  assert (Hin : In q (rows_with_id w "admin_staff" uid))
    by (rewrite E; now left).
  apply filter_In in Hin as [_ Hm]. apply matches_id in Hm.
  unfold column. rewrite Hm. cbn [default from_option id].
  unfold or_else, truthy. now destruct (String.eqb uid "").
Qed.

Lemma oracle_set_tables t w : oracle (set_tables t w) = oracle w.
Proof. reflexivity. Qed.

Lemma oracle_set_next_id n w : oracle (set_next_id n w) = oracle w.
Proof. reflexivity. Qed.

Lemma next_id_advance w : next_id (advance w) = next_id w.
Proof. reflexivity. Qed.

Lemma table_set_next_id n w t : table (set_next_id n w) t = table w t.
Proof. reflexivity. Qed.

Lemma table_inserted (m : gmap string (list row)) w t rows :
  table (set_tables (<[t := rows]> m) w) t = rows.
Proof. unfold table. cbn [tables set_tables]. now rewrite lookup_insert_eq. Qed.

#[export] Hint Rewrite oracle_set_tables oracle_set_next_id next_id_advance
  table_set_next_id : world.

Lemma createProduct_run (w : World) (uid : string) (productData : ProductData) :
  quiet 8 w ->
  session (rt w) = Some uid ->
  rows_with_id w "products" ("id-" +:+ pretty (next_id w)) = [] ->
  exists w',
    createProduct productData w
    = (Returns {| success := true; error := None;
                  message := Some "Product created successfully";
                  productId := Some (VStr ("id-" +:+ pretty (next_id w)));
                  data := None |}, w')
    /\ table w' "products"
       = table w "products"
         ++ [<["id" := VStr ("id-" +:+ pretty (next_id w))]>
               (<["created_by" :=
                    match rows_with_id w "admin_staff" uid with
                    | [_] => if String.eqb uid "" then VNull else VStr uid
                    | _ => VNull
                    end]> (product_row productData))].
Proof.
  intros Hq Hs Hfresh. verdicts Hq.
  unfold createProduct, createClient. hush. hush. rewrite Hs.
  hush. rewrite select_flag_value. cbn [fst snd].
  rewrite created_by_value.
  change (rows_with_id (advance (advance (advance w))) "admin_staff" uid)
    with (rows_with_id w "admin_staff" uid).
  hush. rewrite insert_generated; [|reflexivity|exact Hfresh].
  cbn [fst snd throw_if_error resp_error ok]. rewrite bind_run. cbn [ret].
  rewrite bind_run. cbn [prop resp_data ok ret opt_field].
  rewrite lookup_insert_eq. cbn [default from_option id].
  hush. unfold revalidatePath. hush. cbn [modify]. rewrite bind_run.
  hush. cbn [modify]. rewrite bind_run. hush. cbn [modify].
  eexists. split; [reflexivity|].
  autorewrite with world. rewrite run_query_other_table by discriminate.
  autorewrite with world. now rewrite table_inserted.
Qed.

(** X12: with no failing call, and when the id that the database
    generates is not in use, [createProduct] by any signed-in user (of a
    non-empty id) adds exactly one row to products and returns the id
    under which that row is stored; the row is the product data with
    the generated id and with [created_by] set to the caller's id when
    the caller has exactly one staff row, and to null otherwise: a
    caller without a staff row is not refused. *)
Theorem createProduct_effect (w : World) (uid : string)
  (productData : ProductData) :
  quiet 8 w ->
  session (rt w) = Some uid ->
  uid <> "" ->
  rows_with_id w "products" ("id-" +:+ pretty (next_id w)) = [] ->
  exists w' pid created_by,
    createProduct productData w
    = (Returns {| success := true; error := None;
                  message := Some "Product created successfully";
                  productId := Some (VStr pid); data := None |}, w')
    /\ table w' "products"
       = table w "products"
         ++ [<["id" := VStr pid]>
               (<["created_by" := created_by]> (product_row productData))]
    /\ rows_with_id w' "products" pid
       = [<["id" := VStr pid]>
            (<["created_by" := created_by]> (product_row productData))]
    /\ (length (rows_with_id w "admin_staff" uid) = 1%nat ->
        created_by = VStr uid)
    /\ (length (rows_with_id w "admin_staff" uid) <> 1%nat ->
        created_by = VNull).
Proof.
  intros Hq Hs Hne Hfresh.
  destruct (createProduct_run w uid productData Hq Hs Hfresh) as (w' & E & Ht).
  exists w', ("id-" +:+ pretty (next_id w)). eexists.
  split; [exact E|]. split; [exact Ht|]. split; [|split].
  - unfold rows_with_id in *. rewrite Ht, rows_with_id_snoc, Hfresh.
    rewrite (proj2 (matches_id _ _)); [reflexivity|].
    now rewrite lookup_insert_eq.
  - apply String.eqb_neq in Hne. rewrite Hne.
    now destruct (rows_with_id w "admin_staff" uid) as [|q [|q' l]].
  - now destruct (rows_with_id w "admin_staff" uid) as [|q [|q' l]].
Qed.

Lemma createProduct_effect_witness :
  (quiet 8 (stocked (Some "u3") [])
   /\ session (rt (stocked (Some "u3") [])) = Some "u3"
   /\ "u3" <> ""
   /\ rows_with_id (stocked (Some "u3") []) "products" "id-0" = [])
  /\ exists w' created_by,
       createProduct serum (stocked (Some "u3") [])
       = (Returns {| success := true; error := None;
                     message := Some "Product created successfully";
                     productId := Some (VStr "id-0"); data := None |}, w')
       /\ rows_with_id w' "products" "id-0"
          = [<["id" := VStr "id-0"]>
               (<["created_by" := created_by]> (product_row serum))]
       /\ created_by = VNull.
Proof.
  assert (Hq : quiet 8 (stocked (Some "u3") [])) by reflexivity.
  assert (Hs : session (rt (stocked (Some "u3") [])) = Some "u3")
    by reflexivity.
  assert (Hn : "u3" <> "") by discriminate.
  assert (Hf : rows_with_id (stocked (Some "u3") []) "products" "id-0" = [])
    by reflexivity.
  split; [auto|].
  destruct (createProduct_effect _ "u3" serum Hq Hs Hn Hf)
    as (w' & pid & by_ & E & _ & Hrow & _ & Hnone).
  assert (Hpid : pid = "id-0").
  { apply (f_equal fst) in E. vm_compute in E. now injection E. }
  subst pid. exists w', by_. split; [exact E|]. split; [exact Hrow|].
  apply Hnone. vm_compute. discriminate.
Defined.

(** X13: with no failing call, and for [updates] that carry no id,
    [updateProduct] by any signed-in user gives every product row with
    that id the time of the call as updated_at, whatever [updates] says
    about updated_at, and every other field of [updates] its new value;
    rows with another id are not touched, and a product id that matches
    no row is still answered with a success. *)
Theorem updateProduct_effect (w : World) (uid productId : string)
  (updates : row) :
  quiet 7 w ->
  session (rt w) = Some uid ->
  updates !! "id" = None ->
  exists w',
    updateProduct productId updates w
    = (Returns (done_ "Product updated successfully"), w')
    /\ rows_with_id w' "products" productId
       = map (fun r : row =>
                <["updated_at" :=
                    VStr (toISOString (dates (rt w)) (now (rt w)))]> updates
                ∪ r)
             (rows_with_id w "products" productId)
    /\ (forall other, productId <> other ->
          rows_with_id w' "products" other = rows_with_id w "products" other)
    /\ (rows_with_id w "products" productId = [] ->
        table w' "products" = table w "products").
Proof.
  intros Hq Hs Hid. verdicts Hq.
  unfold updateProduct, createClient. hush. hush. rewrite Hs.
  rewrite bind_run. cbn [now_iso gets].
  hush. carried_out. hush.
  unfold revalidatePath. hush. cbn [modify]. rewrite bind_run.
  hush. cbn [modify]. rewrite bind_run. hush. cbn [modify].
  eexists. split; [reflexivity|]. unfold rows_with_id.
  autorewrite with world. rewrite run_query_other_table by discriminate.
  autorewrite with world. rewrite run_update_table. autorewrite with world.
  assert (Hc : (<["updated_at" :=
                    VStr (toISOString (dates (rt w)) (now (rt w)))]> updates)
               !! "id" = None)
    by (now rewrite lookup_insert_ne).
  split; [|split].
  - now apply filter_updated.
  - intros other Hne. now apply filter_other_update.
  - apply update_without_match.
Qed.

Lemma updateProduct_effect_witness :
  (quiet 7 (stocked (Some "u3") [])
   /\ session (rt (stocked (Some "u3") [])) = Some "u3"
   /\ ({[ "price" := VNum 11000; "updated_at" := VStr "1999" ]} : row)
      !! "id" = None)
  /\ exists w',
       updateProduct "p1" {[ "price" := VNum 11000;
                             "updated_at" := VStr "1999" ]}
         (stocked (Some "u3") [])
       = (Returns (done_ "Product updated successfully"), w')
       /\ rows_with_id w' "products" "p1"
          = [ {[ "id" := VStr "p1"; "name" := VStr "Radiance serum";
                 "price" := VNum 11000; "is_active" := VBool true;
                 "updated_at" := VStr "1700000000000" ]} ].
Proof.
  assert (Hq : quiet 7 (stocked (Some "u3") [])) by reflexivity.
  assert (Hs : session (rt (stocked (Some "u3") [])) = Some "u3")
    by reflexivity.
  assert (Hi : ({[ "price" := VNum 11000; "updated_at" := VStr "1999" ]} : row)
               !! "id" = None) by reflexivity.
  split; [auto|].
  destruct (updateProduct_effect _ "u3" "p1" _ Hq Hs Hi)
    as (w' & E & Hrows & _).
  exists w'. split; [exact E|]. rewrite Hrows. vm_compute. reflexivity.
Defined.

(** ** What the listings return *)

Lemma filter_all {A} (l : list A) : List.filter (fun _ => true) l = l.
Proof. induction l as [|x l IH]; [reflexivity|]. cbn. now rewrite IH. Qed.

Lemma run_select_rows w q cols :
  q_single q = false ->
  run_select w q cols
  = ok (VArr (map VObj
           (map (project w (q_table q) cols)
              (let rows := List.filter (matches (q_filters q))
                             (table w (q_table q)) in
               let rows := match q_order q with
                           | Some (c, asc) => merge_sort (row_le c asc) rows
                           | None => rows
                           end in
               match q_limit q with
               | Some n => take n rows
               | None => rows
               end)))).
Proof. intros H. unfold run_select. now rewrite H. Qed.

(** X14: with no failing call, [getActivityLogs] returns at most [limit]
    entries, 100 when no limit is given: as many as the log holds when
    that is less, and never more than the limit. *)
Theorem getActivityLogs_limit (w : World) (limit_ : option nat) :
  quiet 2 w ->
  exists entries,
    fst (getActivityLogs limit_ w) = Returns (with_data (VArr entries))
    /\ length entries
       = Nat.min (default 100%nat limit_)
                 (length (table w "admin_activity_logs")).
Proof.
  intros Hq. verdicts Hq.
  unfold getActivityLogs, createStaticClient. hush. cbn [ret].
  hush. unfold run_query. cbn [q_verb limit order select from].
  rewrite run_select_rows by reflexivity.
  cbn [q_table q_filters q_order q_limit limit order select from matches
       forallb resp_error ok ret resp_data fst snd].
  eexists. split; [reflexivity|].
  rewrite !length_map, length_take, filter_all.
  now rewrite merge_sort_Permutation.
Qed.

Lemma getActivityLogs_limit_witness :
  quiet 2 (snd (updateOrderStatus "o1" "shipped" (shop (Some "u3") [])))
  /\ exists entries,
       fst (getActivityLogs None
              (snd (updateOrderStatus "o1" "shipped" (shop (Some "u3") []))))
       = Returns (with_data (VArr entries))
       /\ length entries = 1%nat.
Proof.
  assert (Hq : quiet 2 (snd (updateOrderStatus "o1" "shipped"
                               (shop (Some "u3") [])))) by reflexivity.
  split; [exact Hq|].
  destruct (getActivityLogs_limit _ None Hq) as (entries & E & Hl).
  exists entries. split; [exact E|]. rewrite Hl. reflexivity.
Defined.

Lemma role_of_listed w (r : row) :
  opt_field (VObj (project w "profiles" user_columns r)) "role"
  = column r "role".
Proof.
  unfold opt_field, user_columns. cbn [project foldr].
  rewrite !lookup_insert_ne by discriminate. now rewrite lookup_insert_eq.
Qed.

Lemma is_str_inv (v : value) s : is_str v s = true -> v = VStr s.
Proof.
  destruct v; try discriminate. cbn. intros H.
  apply String.eqb_eq in H. now subst.
Qed.

(** X15: with no failing call, [getAllAgents] returns one entry for each
    profile whose role is agent and no other entry: every entry it
    returns carries the role agent. *)
Theorem getAllAgents_only_agents (w : World) :
  quiet 2 w ->
  exists entries,
    fst (getAllAgents w) = Returns (with_data (VArr entries))
    /\ Forall (fun entry => opt_field entry "role" = VStr "agent") entries
    /\ length entries
       = length (List.filter (fun r => is_str (column r "role") "agent")
                             (table w "profiles")).
Proof.
  intros Hq. verdicts Hq.
  unfold getAllAgents, createStaticClient. hush. cbn [ret].
  hush. unfold run_query. cbn [q_verb eq_ order select from].
  rewrite run_select_rows by reflexivity.
  cbn [q_table q_filters q_order q_limit eq_ order select from app
       resp_error ok ret resp_data fst snd].
  eexists. split; [reflexivity|]. split.
  - apply List.Forall_forall. intros entry Hin.
    apply in_map_iff in Hin as (p & <- & Hin).
    apply in_map_iff in Hin as (r & <- & Hin).
    rewrite role_of_listed. apply is_str_inv.
    apply list_elem_of_In in Hin. rewrite merge_sort_Permutation in Hin.
    apply list_elem_of_In, filter_In in Hin as [_ Hm].
    unfold matches in Hm. cbn in Hm. now rewrite andb_true_r in Hm.
  - rewrite !length_map, merge_sort_Permutation. autorewrite with world.
    f_equal. apply List.filter_ext. intros r. unfold matches. cbn.
    now rewrite andb_true_r.
Qed.

Lemma getAllAgents_only_agents_witness :
  quiet 2 (shop None [])
  /\ exists entries,
       fst (getAllAgents (shop None [])) = Returns (with_data (VArr entries))
       /\ Forall (fun entry => opt_field entry "role" = VStr "agent") entries
       /\ length entries = 1%nat.
Proof.
  assert (Hq : quiet 2 (shop None [])) by reflexivity.
  split; [exact Hq|].
  destruct (getAllAgents_only_agents _ Hq) as (entries & E & Hall & Hl).
  exists entries. split; [exact E|]. split; [exact Hall|].
  rewrite Hl. reflexivity.
Defined.
Import Middleware.

(** ** The route guard *)

Lemma getUser_run res w :
  getUser res w
  = match hd NoFault (oracle w) with
    | Throws e => (Raises e, advance w)
    | f => (Returns (match f with
                     | NoFault => session (rt w)
                     | _ => None
                     end,
                     match refresh_cookies (rt w) with
                     | Some cookiesToSet => next cookiesToSet
                     | None => res
                     end), advance w)
    end.
Proof.
  unfold getUser, next_fault. rewrite bind_run. cbn [fst snd].
  now destruct (hd NoFault (oracle w)).
Qed.

(** The part of the middleware after the session is known. *)
Lemma guard_redirect_cases (req : NextRequest) (user : option string)
  (res : NextResponse) (s : World) (u : URL) :
  is_next res = true ->
  fst ((returned <-
          (if startsWith (pathname req) "/admin"
              && negb (String.eqb (pathname req) "/admin/login")
           then admin_block req user
           else ret None) ;;
        match returned with
        | Some r => ret r
        | None =>
            if existsb (startsWith (pathname req)) protectedCustomerRoutes
            then match user with
                 | None =>
                     ret (redirect (searchParams_set "redirect" (pathname req)
                                      (new_URL "/shop/auth" req)))
                 | Some _ => ret res
                 end
            else ret res
        end) s)
  = Returns (redirect u) ->
  url_origin u = req_origin req
  /\ (In (url_path u) ["/admin/login"; "/"; "/shop/auth"]
      \/ url_path u = "/admin/dashboard"
         /\ exists uid p,
              user = Some uid
              /\ rows_with_id s "profiles" uid = [p]
              /\ includes allowedRoles (column p "role") = true).
Proof.
  intros Hres.
  assert (Hpass : forall s', fst (ret (S := World) res s')
                             = Returns (redirect u) -> False).
  { intros s' [= E]. rewrite E in Hres. discriminate. }
  assert (Hcust :
    forall s',
      fst ((if existsb (startsWith (pathname req)) protectedCustomerRoutes
            then match user with
                 | None =>
                     ret (redirect (searchParams_set "redirect" (pathname req)
                                      (new_URL "/shop/auth" req)))
                 | Some _ => ret res
                 end
            else ret res : M NextResponse) s') = Returns (redirect u) ->
      url_origin u = req_origin req
      /\ In (url_path u) ["/admin/login"; "/"; "/shop/auth"]).
  { intros s'. destruct (existsb _ _); [destruct user|];
      try (intros H; now apply Hpass in H).
    intros [= <-]. cbn. auto. }
  rewrite bind_run.
  destruct (startsWith (pathname req) "/admin"
            && negb (String.eqb (pathname req) "/admin/login")).
  2:{ cbn [ret]. intros H. apply Hcust in H as [H1 H2]. auto. }
  unfold admin_block. destruct user as [uid|].
  2:{ cbn [ret fst]. intros [= <-]. cbn. auto. }
  step.
  destruct (hd NoFault (oracle s)) eqn:Hv; cbn [fst snd]; try discriminate.
  - change (from "profiles" |> select [Col "role"] |> eq_ "id" uid |> single)
      with (select_role uid).
    destruct (select_role_data (advance s) uid)
      as [Hw [Hd|(p & Hp & Hd)]]; rewrite Hw, Hd.
    + cbn [opt_field truthy negb orb ret fst]. intros [= <-]. cbn. auto.
    + rewrite opt_field_role.
      destruct (negb (truthy (column p "role"))
                || negb (includes allowedRoles (column p "role"))) eqn:Hrole.
      { cbn [ret fst]. intros [= <-]. cbn. auto. }
      apply orb_false_iff in Hrole as [_ Hrole].
      apply negb_false_iff in Hrole.
      destruct (existsb (startsWith (pathname req)) chiefAdminOnlyRoutes
                && negb (is_str (column p "role") "chief_admin")).
      { cbn [ret fst]. intros [= <-]. cbn. split; [reflexivity|].
        right. split; [reflexivity|]. now exists uid, p. }
      destruct (existsb (startsWith (pathname req)) agentRestrictedRoutes
                && is_str (column p "role") "agent").
      { cbn [ret fst]. intros [= <-]. cbn. split; [reflexivity|].
        right. split; [reflexivity|]. now exists uid, p. }
      rewrite bind_run.
      match goal with
      | |- context [try_catch ?b ?h ?s0] =>
          destruct (try_catch b h s0) as [[[]|e] s1]
      end; cbn [fst snd ret]; try discriminate.
      intros H. apply Hcust in H as [H1 H2]. auto.
  - cbn [resp_data failed opt_field truthy negb orb ret fst].
    intros [= <-]. cbn. auto.
Qed.

(** Where a redirect of the middleware points, and what it has seen
    when it points to the dashboard. *)
Lemma middleware_redirect_cases (req : NextRequest) (w : World) (u : URL) :
  fst (middleware req w) = Returns (redirect u) ->
  url_origin u = req_origin req
  /\ (In (url_path u) ["/admin/login"; "/"; "/shop/auth"]
      \/ url_path u = "/admin/dashboard"
         /\ exists uid p,
              session (rt w) = Some uid
              /\ rows_with_id w "profiles" uid = [p]
              /\ includes allowedRoles (column p "role") = true).
Proof.
  unfold middleware, createServerClient. step.
  destruct (hd NoFault (oracle w)); try discriminate.
  cbn [ret]. rewrite bind_run, getUser_run. cbn [rt advance set_oracle oracle].
  assert (Hn : is_next (passed w) = true)
    by (unfold passed; now destruct (refresh_cookies (rt w))).
  destruct (hd NoFault (tail (oracle w))); try discriminate; intros H.
  - exact (guard_redirect_cases req (session (rt w)) (passed w)
             (advance (advance w)) u Hn H).
  - destruct (guard_redirect_cases req None (passed w)
                (advance (advance w)) u Hn H)
      as [H1 [H2|(_ & uid & p & [=] & _)]].
    auto.
Qed.

Lemma includes_allowed (r : string) :
  In r allowedRoles ->
  truthy (VStr r) = true /\ includes allowedRoles (VStr r) = true.
Proof.
  intros [<-|[<-|[<-|[]]]]; split; reflexivity.
Qed.

Lemma allowed_role_text (v : value) :
  includes allowedRoles v = true -> exists r, v = VStr r /\ In r allowedRoles.
Proof.
  unfold includes, allowedRoles. cbn [existsb]. rewrite orb_false_r.
  intros H. apply orb_true_iff in H as [H|H];
    [|apply orb_true_iff in H as [H|H]];
    apply is_str_inv in H; subst; eexists; (split; [reflexivity|]);
    cbn; auto.
Qed.

Lemma chief_only_under_admin (path : string) :
  existsb (startsWith path) chiefAdminOnlyRoutes = true ->
  startsWith path "/admin" && negb (String.eqb path "/admin/login") = true.
Proof.
  unfold chiefAdminOnlyRoutes, startsWith. cbn [existsb].
  rewrite orb_false_r. intros H.
  apply orb_true_iff in H as [H|H]; [|apply orb_true_iff in H as [H|H]];
    apply prefix_split in H as [rest ->]; destruct rest; reflexivity.
Qed.

Lemma column_text (p : row) c s : column p c = VStr s -> p !! c = Some (VStr s).
Proof. unfold column. destruct (p !! c); cbn; congruence. Qed.

(** The middleware up to the profile query, for a signed-in user on a
    guarded admin path. *)
Lemma middleware_at_role_check req w uid :
  quiet 3 w ->
  session (rt w) = Some uid ->
  startsWith (pathname req) "/admin"
  && negb (String.eqb (pathname req) "/admin/login") = true ->
  middleware req w
  = bind
      (let profile :=
         resp_data (fst (run_query (advance (advance (advance w)))
                           (select_role uid))) in
       if negb (truthy (opt_field profile "role"))
          || negb (includes allowedRoles (opt_field profile "role"))
       then ret (Some (redirect (new_URL "/" req)))
       else if existsb (startsWith (pathname req)) chiefAdminOnlyRoutes
               && negb (is_str (opt_field profile "role") "chief_admin")
       then ret (Some (redirect (new_URL "/admin/dashboard" req)))
       else if existsb (startsWith (pathname req)) agentRestrictedRoutes
               && is_str (opt_field profile "role") "agent"
       then ret (Some (redirect (new_URL "/admin/dashboard" req)))
       else
         try_catch
           (await (from "admin_activity_logs"
                   |> insert (access_entry uid (pathname req))) ;;
            ret tt)
           (fun error => console_error "Failed to log admin access:") ;;
         ret None)
      (fun returned =>
         match returned with
         | Some r => ret r
         | None =>
             if existsb (startsWith (pathname req)) protectedCustomerRoutes
             then ret (passed w)
             else ret (passed w)
         end) (advance (advance (advance w))).
Proof.
  intros Hq Hs Hg.
  assert (Hq2 : quiet 2 w) by (apply (quiet_le 2 3); [lia|exact Hq]).
  apply quiet_S in Hq as [_ Hq]. apply quiet_S in Hq as [_ Hq].
  apply quiet_S in Hq as [H3 _].
  rewrite middleware_quiet by assumption. rewrite Hs, Hg.
  rewrite !bind_run. unfold admin_block.
  rewrite bind_run, await_quiet by assumption. reflexivity.
Qed.

(** X16: a signed-in user whose profile does not hold one of the roles
    admin, agent, chief_admin (a customer, an unknown role, no profile
    row at all) is sent to the home page from every guarded admin path;
    nothing is written to the log. *)
Theorem middleware_non_staff_sent_home (w : World) (req : NextRequest)
  (uid : string) :
  quiet 3 w ->
  session (rt w) = Some uid ->
  (forall r, In r allowedRoles -> ~ has_role w uid r) ->
  startsWith (pathname req) "/admin" = true ->
  pathname req <> "/admin/login" ->
  middleware req w
  = (Returns (redirect {| url_origin := req_origin req; url_path := "/";
                          searchParams := [] |}),
     advance (advance (advance w))).
Proof.
  intros Hq Hs Hnot Hp Hne.
  rewrite (middleware_at_role_check req w uid Hq Hs).
  2:{ rewrite Hp. apply String.eqb_neq in Hne. now rewrite Hne. }
  cbv zeta. rewrite bind_run.
  destruct (select_role_data (advance (advance (advance w))) uid)
    as [_ [Hd|(p & Hrow & Hd)]]; rewrite Hd; [reflexivity|].
  rewrite opt_field_role.
  destruct (includes allowedRoles (column p "role")) eqn:Hin.
  - exfalso. apply allowed_role_text in Hin as (r & Hr & Hin).
    apply (Hnot r Hin). exists p. split; [exact Hrow|].
    now apply column_text.
  - rewrite orb_true_r. reflexivity.
Qed.

Lemma middleware_non_staff_sent_home_witness :
  (quiet 3 (shop (Some "u3") [])
   /\ session (rt (shop (Some "u3") [])) = Some "u3"
   /\ (forall r, In r allowedRoles -> ~ has_role (shop (Some "u3") []) "u3" r)
   /\ startsWith (pathname (request "/admin/orders")) "/admin" = true
   /\ pathname (request "/admin/orders") <> "/admin/login")
  /\ fst (middleware (request "/admin/orders") (shop (Some "u3") []))
     = Returns (redirect {| url_origin := "https://jradianceco.com";
                            url_path := "/"; searchParams := [] |}).
Proof.
  assert (Hq : quiet 3 (shop (Some "u3") [])) by reflexivity.
  assert (Hs : session (rt (shop (Some "u3") [])) = Some "u3") by reflexivity.
  assert (Hn : forall r, In r allowedRoles ->
                         ~ has_role (shop (Some "u3") []) "u3" r).
  { intros r Hin (p & Hp & Hr).
    change (rows_with_id (shop (Some "u3") []) "profiles" "u3")
      with [profile_row "u3" "customer"] in Hp.
    injection Hp as <-. vm_compute in Hr. injection Hr as <-.
    destruct Hin as [H|[H|[H|[]]]]; discriminate H. }
  assert (Hp : startsWith (pathname (request "/admin/orders")) "/admin" = true)
    by reflexivity.
  assert (Hl : pathname (request "/admin/orders") <> "/admin/login")
    by discriminate.
  split; [auto|].
  rewrite (middleware_non_staff_sent_home _ (request "/admin/orders") "u3"
             Hq Hs Hn Hp Hl).
  reflexivity.
Defined.

(** X17: on /admin/users, /admin/roles and /admin/agents (and every path
    that starts with one of them) a signed-in admin or agent is sent to
    the dashboard; nothing is written to the log. *)
Theorem middleware_chief_only_routes (w : World) (req : NextRequest)
  (uid r : string) :
  quiet 3 w ->
  caller_is w uid r ->
  r = "admin" \/ r = "agent" ->
  existsb (startsWith (pathname req)) chiefAdminOnlyRoutes = true ->
  middleware req w
  = (Returns (redirect {| url_origin := req_origin req;
                          url_path := "/admin/dashboard";
                          searchParams := [] |}),
     advance (advance (advance w))).
Proof.
  intros Hq [Hs (p & Hp & Hr)] Hrole Hpath.
  rewrite (middleware_at_role_check req w uid Hq Hs)
    by now apply chief_only_under_admin.
  cbv zeta. rewrite bind_run.
  rewrite select_role_found with (p := p) by exact Hp.
  cbn [fst resp_data ok]. rewrite opt_field_role, (column_role _ _ Hr), Hpath.
  destruct Hrole as [->| ->]; reflexivity.
Qed.

Lemma middleware_chief_only_routes_witness :
  (quiet 3 (shop (Some "u2") [])
   /\ caller_is (shop (Some "u2") []) "u2" "agent"
   /\ ("agent" = "admin" \/ "agent" = "agent")
   /\ existsb (startsWith (pathname (request "/admin/users/u3")))
              chiefAdminOnlyRoutes = true)
  /\ fst (middleware (request "/admin/users/u3") (shop (Some "u2") []))
     = Returns (redirect {| url_origin := "https://jradianceco.com";
                            url_path := "/admin/dashboard";
                            searchParams := [] |}).
Proof.
  assert (Hq : quiet 3 (shop (Some "u2") [])) by reflexivity.
  assert (Hc : caller_is (shop (Some "u2") []) "u2" "agent").
  { split; [reflexivity|]. exists (profile_row "u2" "agent").
    split; reflexivity. }
  assert (Hr : "agent" = "admin" \/ "agent" = "agent") by now right.
  assert (Hp : existsb (startsWith (pathname (request "/admin/users/u3")))
                 chiefAdminOnlyRoutes = true) by reflexivity.
  split; [auto|].
  rewrite (middleware_chief_only_routes _ (request "/admin/users/u3")
             "u2" "agent" Hq Hc Hr Hp).
  reflexivity.
Defined.

Lemma log_entry_no_id a b c d e : log_entry a b c d e !! "id" = None.
Proof. unfold log_entry. now destruct e. Qed.

(** X18: a signed-in staff member on an admin path that the role may see
    is let through, whether or not the path is one of the listed admin
    routes, and whatever becomes of the insert into the access log: an
    error or an exception of that call does not stop the request.  When
    the insert goes through, under a generated id that is not in use,
    the log has one more row, which names the user and the path. *)
Theorem middleware_staff_pass (w : World) (req : NextRequest)
  (uid r : string) :
  quiet 3 w ->
  caller_is w uid r ->
  In r allowedRoles ->
  startsWith (pathname req) "/admin" = true ->
  pathname req <> "/admin/login" ->
  r = "chief_admin"
  \/ existsb (startsWith (pathname req)) chiefAdminOnlyRoutes = false ->
  r <> "agent"
  \/ existsb (startsWith (pathname req)) agentRestrictedRoutes = false ->
  fst (middleware req w) = Returns (passed w)
  /\ (oracle w !! 3%nat = None \/ oracle w !! 3%nat = Some NoFault ->
      rows_with_id w "admin_activity_logs" ("id-" +:+ pretty (next_id w))
      = [] ->
      table (snd (middleware req w)) "admin_activity_logs"
      = table w "admin_activity_logs"
        ++ [<["id" := VStr ("id-" +:+ pretty (next_id w))]>
              (access_entry uid (pathname req))]).
Proof.
  intros Hq [Hs (p & Hp & Hr)] Hin Hadmin Hne Hchief Hagent.
  rewrite (middleware_at_role_check req w uid Hq Hs).
  2:{ rewrite Hadmin. apply String.eqb_neq in Hne. now rewrite Hne. }
  cbv zeta. rewrite bind_run.
  rewrite select_role_found with (p := p) by exact Hp.
  cbn [fst resp_data ok]. rewrite opt_field_role, (column_role _ _ Hr).
  destruct (includes_allowed r Hin) as [-> ->]. cbn [negb orb].
  assert (H1 : existsb (startsWith (pathname req)) chiefAdminOnlyRoutes
               && negb (is_str (VStr r) "chief_admin") = false).
  { destruct Hchief as [->| ->]; [apply andb_false_r|reflexivity]. }
  assert (H2 : existsb (startsWith (pathname req)) agentRestrictedRoutes
               && is_str (VStr r) "agent" = false).
  { destruct Hagent as [Hn| ->]; [|reflexivity].
    rewrite is_str_text, bool_decide_eq_false_2 by exact Hn.
    apply andb_false_r. }
  rewrite H1, H2. rewrite bind_run, try_catch_run, bind_run, await_run.
  cbn [oracle advance set_oracle].
  split.
  - destruct (hd NoFault (tail (tail (tail (oracle w))))); cbn [fst snd ret];
      now destruct (existsb _ protectedCustomerRoutes).
  - intros Hv Hfresh.
    assert (Hv' : hd NoFault (tail (tail (tail (oracle w)))) = NoFault).
    { destruct (oracle w) as [|f1 [|f2 [|f3 [|f4 o]]]]; try reflexivity.
      destruct Hv as [Hv|Hv]; [discriminate|]. now injection Hv. }
    rewrite Hv'. unfold run_query. cbn [q_verb insert from].
    unfold run_insert. cbn [q_table]. unfold access_entry.
    rewrite log_entry_no_id. cbn [fst snd].
    rewrite (existsb_same_id _ _ ("id-" +:+ pretty (next_id w)));
      [|now rewrite lookup_insert_eq|exact Hfresh].
    cbn [fst snd ret].
    destruct (existsb _ protectedCustomerRoutes); cbn [ret snd];
      now rewrite table_inserted.
Qed.

Lemma middleware_staff_pass_witness :
  (quiet 3 (shop (Some "u2") [NoFault; NoFault; NoFault; Throws denied])
   /\ caller_is (shop (Some "u2") [NoFault; NoFault; NoFault; Throws denied])
        "u2" "agent"
   /\ In "agent" allowedRoles
   /\ startsWith (pathname (request "/admin/stock")) "/admin" = true
   /\ pathname (request "/admin/stock") <> "/admin/login"
   /\ existsb (startsWith (pathname (request "/admin/stock")))
        chiefAdminOnlyRoutes = false
   /\ existsb (startsWith (pathname (request "/admin/stock")))
        agentRestrictedRoutes = false)
  /\ fst (middleware (request "/admin/stock")
            (shop (Some "u2") [NoFault; NoFault; NoFault; Throws denied]))
     = Returns (next []).
Proof.
  set (w := shop (Some "u2") [NoFault; NoFault; NoFault; Throws denied]).
  assert (Hq : quiet 3 w) by reflexivity.
  assert (Hc : caller_is w "u2" "agent").
  { split; [reflexivity|]. exists (profile_row "u2" "agent").
    split; reflexivity. }
  assert (Hin : In "agent" allowedRoles) by (right; now left).
  assert (Hp : startsWith (pathname (request "/admin/stock")) "/admin" = true)
    by reflexivity.
  assert (Hl : pathname (request "/admin/stock") <> "/admin/login")
    by discriminate.
  assert (H1 : existsb (startsWith (pathname (request "/admin/stock")))
                 chiefAdminOnlyRoutes = false) by reflexivity.
  assert (H2 : existsb (startsWith (pathname (request "/admin/stock")))
                 agentRestrictedRoutes = false) by reflexivity.
  split; [auto 10|].
  exact (proj1 (middleware_staff_pass w (request "/admin/stock") "u2" "agent"
                  Hq Hc Hin Hp Hl (or_intror H1) (or_intror H2))).
Defined.

(** X19: outside /admin the middleware reads no table and asks for no
    role: every request of a signed-in user, and every request to a path
    that is not one of the three customer routes, is let through after
    the two opening calls. *)
Theorem middleware_outside_admin (w : World) (req : NextRequest) :
  quiet 2 w ->
  startsWith (pathname req) "/admin" = false ->
  session (rt w) <> None
  \/ existsb (startsWith (pathname req)) protectedCustomerRoutes = false ->
  middleware req w = (Returns (passed w), advance (advance w)).
Proof.
  intros Hq Hp Hor. rewrite middleware_quiet by assumption.
  rewrite Hp. cbn [andb]. rewrite bind_run. cbn [ret].
  destruct Hor as [Hs| ->]; [|reflexivity].
  destruct (session (rt w)); [|contradiction].
  now destruct (existsb _ _).
Qed.

Lemma middleware_outside_admin_witness :
  (quiet 2 (shop (Some "u3") [])
   /\ startsWith (pathname (request "/shop/checkout")) "/admin" = false
   /\ session (rt (shop (Some "u3") [])) <> None)
  /\ middleware (request "/shop/checkout") (shop (Some "u3") [])
     = (Returns (next []), shop (Some "u3") []).
Proof.
  assert (Hq : quiet 2 (shop (Some "u3") [])) by reflexivity.
  assert (Hp : startsWith (pathname (request "/shop/checkout")) "/admin"
               = false) by reflexivity.
  assert (Hs : session (rt (shop (Some "u3") [])) <> None) by discriminate.
  split; [auto|].
  rewrite (middleware_outside_admin _ (request "/shop/checkout") Hq Hp
             (or_introl Hs)).
  reflexivity.
Defined.

(** X20: unlike the server actions, the middleware lets exceptions out:
    when creating the client, reading the session or, for a signed-in
    user on a guarded admin path, reading the profile throws, the
    middleware throws the same error and returns no response. *)
Theorem middleware_failures_propagate (w : World) (req : NextRequest)
  (e : JsErr) :
  (oracle w !! 0%nat = Some (Throws e) -> fst (middleware req w) = Raises e)
  /\ (quiet 1 w -> oracle w !! 1%nat = Some (Throws e) ->
      fst (middleware req w) = Raises e)
  /\ (quiet 2 w -> oracle w !! 2%nat = Some (Throws e) ->
      session (rt w) <> None ->
      startsWith (pathname req) "/admin" = true ->
      pathname req <> "/admin/login" ->
      fst (middleware req w) = Raises e).
Proof.
  split; [|split].
  - intros Hv. apply (verdict_tail 0) in Hv. cbn in Hv.
    unfold middleware, createServerClient. step. now rewrite Hv.
  - intros Hq Hv. apply (verdict_tail 1) in Hv. cbn in Hv.
    apply quiet_S in Hq as [H1 _].
    unfold middleware. rewrite bind_run, createServerClient_quiet by exact H1.
    rewrite bind_run, getUser_run. cbn [oracle advance set_oracle].
    now rewrite Hv.
  - intros Hq Hv Hs Hp Hne. apply (verdict_tail 2) in Hv. cbn in Hv.
    rewrite middleware_quiet by exact Hq.
    destruct (session (rt w)) as [uid|]; [|contradiction].
    rewrite Hp. apply String.eqb_neq in Hne. rewrite Hne. cbn [andb negb].
    rewrite bind_run. unfold admin_block. rewrite bind_run, await_run.
    cbn [oracle advance set_oracle]. now rewrite Hv.
Qed.

Lemma middleware_failures_propagate_witness :
  (quiet 2 (shop (Some "u1") [NoFault; NoFault; Throws denied])
   /\ oracle (shop (Some "u1") [NoFault; NoFault; Throws denied]) !! 2%nat
      = Some (Throws denied)
   /\ session (rt (shop (Some "u1") [NoFault; NoFault; Throws denied])) <> None
   /\ startsWith (pathname (request "/admin/orders")) "/admin" = true
   /\ pathname (request "/admin/orders") <> "/admin/login")
  /\ fst (middleware (request "/admin/orders")
            (shop (Some "u1") [NoFault; NoFault; Throws denied]))
     = Raises denied.
Proof.
  set (w := shop (Some "u1") [NoFault; NoFault; Throws denied]).
  assert (Hq : quiet 2 w) by reflexivity.
  assert (Hv : oracle w !! 2%nat = Some (Throws denied)) by reflexivity.
  assert (Hs : session (rt w) <> None) by discriminate.
  assert (Hp : startsWith (pathname (request "/admin/orders")) "/admin" = true)
    by reflexivity.
  assert (Hl : pathname (request "/admin/orders") <> "/admin/login")
    by discriminate.
  split; [auto|].
  exact (proj2 (proj2 (middleware_failures_propagate w
                         (request "/admin/orders") denied)) Hq Hv Hs Hp Hl).
Defined.

(** X21: every redirect of the middleware stays on the origin of the
    request and points to /admin/login, /, /admin/dashboard or
    /shop/auth; and the request that follows the redirect, made with the
    same session and the same tables, is let through: the guard never
    sends a browser in a circle.  The first run may meet any faults. *)
Theorem middleware_redirects_do_not_loop (req : NextRequest) (w w2 : World)
  (u : URL) :
  fst (middleware req w) = Returns (redirect u) ->
  rt w2 = rt w ->
  tables w2 = tables w ->
  quiet 3 w2 ->
  url_origin u = req_origin req
  /\ In (url_path u) redirect_targets
  /\ fst (middleware (follow u) w2) = Returns (passed w2).
Proof.
  intros H Hrt Htab Hq.
  assert (Hq2 : quiet 2 w2) by (apply (quiet_le 2 3); [lia|exact Hq]).
  apply middleware_redirect_cases in H as [Ho Hcases].
  split; [exact Ho|]. unfold follow, redirect_targets.
  destruct Hcases as [[E|[E|[E|[]]]]|(E & uid & p & Hs & Hp & Hrole)];
    [symmetry in E..|]; rewrite E.
  - split; [cbn; auto|]. rewrite middleware_quiet by exact Hq2.
    cbn [pathname]. reflexivity.
  - split; [cbn; auto|]. rewrite middleware_quiet by exact Hq2.
    cbn [pathname]. reflexivity.
  - split; [cbn; auto|]. rewrite middleware_quiet by exact Hq2.
    cbn [pathname]. reflexivity.
  - split; [cbn; auto|].
    assert (Hs2 : session (rt w2) = Some uid) by now rewrite Hrt.
    assert (Hp2 : rows_with_id w2 "profiles" uid = [p]).
    { unfold rows_with_id, table in *. now rewrite Htab. }
    rewrite (middleware_at_role_check _ w2 uid Hq Hs2) by reflexivity.
    cbv zeta. rewrite bind_run.
    rewrite select_role_found with (p := p) by exact Hp2.
    cbn [fst resp_data ok pathname]. rewrite opt_field_role.
    apply allowed_role_text in Hrole as (r & -> & Hin).
    destruct (includes_allowed r Hin) as [-> ->]. cbn [negb orb].
    change (existsb (startsWith "/admin/dashboard") chiefAdminOnlyRoutes)
      with false.
    change (existsb (startsWith "/admin/dashboard") agentRestrictedRoutes)
      with false.
    cbn [andb]. rewrite bind_run, try_catch_run, bind_run, await_run.
    destruct (hd NoFault _); reflexivity.
Qed.

Lemma middleware_redirects_do_not_loop_witness :
  (fst (middleware (request "/admin/users") (shop (Some "u2") []))
   = Returns (redirect {| url_origin := "https://jradianceco.com";
                          url_path := "/admin/dashboard";
                          searchParams := [] |})
   /\ quiet 3 (shop (Some "u2") []))
  /\ fst (middleware (request "/admin/dashboard") (shop (Some "u2") []))
     = Returns (next []).
Proof.
  assert (H : fst (middleware (request "/admin/users") (shop (Some "u2") []))
              = Returns (redirect {| url_origin := "https://jradianceco.com";
                                     url_path := "/admin/dashboard";
                                     searchParams := [] |}))
    by reflexivity.
  assert (Hq : quiet 3 (shop (Some "u2") [])) by reflexivity.
  split; [auto|].
  exact (proj2 (proj2 (middleware_redirects_do_not_loop
                         (request "/admin/users") (shop (Some "u2") [])
                         (shop (Some "u2") []) _ H eq_refl eq_refl Hq))).
Defined.
Import Ftp.

(** ** The FTP service, command by command *)

Lemma dir_run_weaken c paths paths' s s' evs :
  (forall p, In p paths -> In p paths') ->
  dir_run c paths s s' evs -> dir_run c paths' s s' evs.
Proof.
  intros Hsub (Ht & Hr & Hall). repeat split; [exact Ht|exact Hr|].
  eapply List.Forall_impl; [|exact Hall].
  intros ev [Hc (p & Hp & Hin)]. split; [exact Hc|]. exists p. auto.
Qed.

Lemma dir_run_trans c paths s s1 s2 evs1 evs2 :
  dir_run c paths s s1 evs1 -> dir_run c paths s1 s2 evs2 ->
  dir_run c paths s s2 (evs1 ++ evs2).
Proof.
  intros (Ht1 & Hr1 & H1) (Ht2 & Hr2 & H2). repeat split.
  - now rewrite Ht2, Ht1, app_assoc.
  - congruence.
  - apply Forall_app. auto.
Qed.

Lemma dir_command c command p ok s :
  dir_path command = Some p ->
  dir_run c [p] s (after_command c command ok s)
    [ {| conn := c; cmd := command; accepted := ok |} ].
Proof.
  intros Hp. repeat split. constructor; [|constructor].
  split; [reflexivity|]. exists p. cbn. auto.
Qed.

(** One round of the loop: [cwd], and [mkdir] when that is refused. *)
Lemma probe_run c p s :
  exists o s' evs,
    try_catch (ftp_command c (Cwd p)) (fun _ => ftp_command c (Mkdir p)) s
    = (o, s')
    /\ dir_run c [p] s s' evs
    /\ (1 <= length evs <= 2)%nat.
Proof.
  rewrite try_catch_run, ftp_command_run.
  destruct (hd NoFault (oracle s)).
  - eexists _, _, _. split; [reflexivity|]. split.
    + now apply dir_command.
    + cbn. lia.
  - rewrite ftp_command_run.
    destruct (hd NoFault _); eexists _, _, [_; _];
      (split; [reflexivity|]); (split; [|cbn; lia]);
      eapply dir_run_trans with (evs1 := [_]) (evs2 := [_]);
      now apply dir_command.
  - rewrite ftp_command_run.
    destruct (hd NoFault _); eexists _, _, [_; _];
      (split; [reflexivity|]); (split; [|cbn; lia]);
      eapply dir_run_trans with (evs1 := [_]) (evs2 := [_]);
      now apply dir_command.
Qed.

Lemma ensure_parts_run c parts : forall currentPath s,
  exists o s' evs,
    ensure_parts c currentPath parts s = (o, s')
    /\ dir_run c (climb currentPath parts) s s' evs
    /\ (length evs <= 2 * length parts)%nat.
Proof.
  induction parts as [|part rest IH]; intros currentPath s;
    cbn [ensure_parts climb].
  - exists (Returns tt), s, []. split; [reflexivity|]. split; [|cbn; lia].
    repeat split; [now rewrite app_nil_r|constructor].
  - rewrite bind_run.
    destruct (probe_run c (currentPath +:+ "/" +:+ part) s)
      as (o & s1 & evs1 & E & Hrun & Hlen).
    rewrite E. destruct o as [[]|e].
    + destruct (IH (currentPath +:+ "/" +:+ part) s1)
        as (o2 & s2 & evs2 & E2 & Hrun2 & Hlen2).
      exists o2, s2, (evs1 ++ evs2). split; [exact E2|]. split.
      * apply dir_run_trans with (s1 := s1).
        -- eapply dir_run_weaken; [|exact Hrun]. intros p [<-|[]]. now left.
        -- eapply dir_run_weaken; [|exact Hrun2]. intros p Hin. now right.
      * rewrite length_app. cbn [length]. lia.
    + exists (Raises e), s1, evs1. split; [reflexivity|]. split.
      * eapply dir_run_weaken; [|exact Hrun]. intros p [<-|[]]. now left.
      * cbn [length]. lia.
Qed.

(** The whole of [ensureDirectoryExists], for any answers of the server. *)
Lemma ensureDirectoryExists_steps (c : nat) (directory : string)
  (s : World) :
  exists s' evs,
    ensureDirectoryExists c directory s = (Returns tt, s')
    /\ dir_run c (directory :: climb "" (segments directory)) s s' evs
    /\ (1 <= length evs <= 1 + 2 * length (segments directory))%nat
    /\ match hd NoFault (oracle s) with
       | NoFault => evs = [ {| conn := c; cmd := Cwd directory;
                               accepted := true |} ]
       | _ => True
       end.
Proof.
  unfold ensureDirectoryExists. rewrite try_catch_run, ftp_command_run.
  destruct (hd NoFault (oracle s)).
  - eexists _, [_]. split; [reflexivity|]. split; [|split].
    + eapply dir_run_weaken; [|now apply (dir_command c _ directory)].
      intros p [<-|[]]. now left.
    + cbn. lia.
    + reflexivity.
  - rewrite try_catch_run. fold (segments directory).
    destruct (ensure_parts_run c (segments directory) ""
                (after_command c (Cwd directory) false s))
      as (o & s1 & evs & E & Hrun & Hlen).
    rewrite E.
    assert (Hall : dir_run c (directory :: climb "" (segments directory))
                     s s1 ({| conn := c; cmd := Cwd directory;
                              accepted := false |} :: evs)).
    { eapply dir_run_trans with (evs1 := [_]) (evs2 := evs).
      - eapply dir_run_weaken; [|now apply (dir_command c _ directory)].
        intros p [<-|[]]. now left.
      - eapply dir_run_weaken; [|exact Hrun]. intros p Hin. now right. }
    destruct o as [[]|e'].
    + eexists _, _. split; [reflexivity|]. split; [exact Hall|].
      cbn [length]. split; [lia|exact I].
    + eexists _, ({| conn := c; cmd := Cwd directory; accepted := false |}
                  :: evs).
      split; [reflexivity|]. split; [|cbn [length]; split; [lia|exact I]].
      destruct Hall as (Ht & Hr & Hf). repeat split; assumption.
  - rewrite try_catch_run. fold (segments directory).
    destruct (ensure_parts_run c (segments directory) ""
                (after_command c (Cwd directory) false s))
      as (o & s1 & evs & E & Hrun & Hlen).
    rewrite E.
    assert (Hall : dir_run c (directory :: climb "" (segments directory))
                     s s1 ({| conn := c; cmd := Cwd directory;
                              accepted := false |} :: evs)).
    { eapply dir_run_trans with (evs1 := [_]) (evs2 := evs).
      - eapply dir_run_weaken; [|now apply (dir_command c _ directory)].
        intros p [<-|[]]. now left.
      - eapply dir_run_weaken; [|exact Hrun]. intros p Hin. now right. }
    destruct o as [[]|e'].
    + eexists _, _. split; [reflexivity|]. split; [exact Hall|].
      cbn [length]. split; [lia|exact I].
    + eexists _, ({| conn := c; cmd := Cwd directory; accepted := false |}
                  :: evs).
      split; [reflexivity|]. split; [|cbn [length]; split; [lia|exact I]].
      destruct Hall as (Ht & Hr & Hf). repeat split; assumption.
Qed.

(** X22: [ensureDirectoryExists] never throws, whatever the server
    answers.  It sends nothing but [cwd] and [mkdir] commands on the
    client it is given: a single [cwd] when the server accepts that, and
    otherwise at most two more commands for each non-empty segment of
    the directory name; the first [cwd] names the directory as given,
    every later command one of the paths /a, /a/b, ... from the root. *)
Theorem ensureDirectoryExists_only_probes (c : nat) (directory : string)
  (s : World) :
  exists s' evs,
    ensureDirectoryExists c directory s = (Returns tt, s')
    /\ dir_run c (directory :: climb "" (segments directory)) s s' evs
    /\ (1 <= length evs <= 1 + 2 * length (segments directory))%nat
    /\ match hd NoFault (oracle s) with
       | NoFault => evs = [ {| conn := c; cmd := Cwd directory;
                               accepted := true |} ]
       | _ => True
       end.
Proof. exact (ensureDirectoryExists_steps c directory s). Qed.


Lemma filter_dir_run c paths s s' evs (f : FtpEvent -> bool) :
  (forall ev, dir_path (cmd ev) <> None -> f ev = false) ->
  dir_run c paths s s' evs -> List.filter f evs = [].
Proof.
  intros Hf (_ & _ & Hall). induction Hall as [|ev evs [_ (p & Hp & _)] _ IH].
  - reflexivity.
  - cbn [List.filter]. rewrite Hf by congruence. exact IH.
Qed.

Lemma is_stored_dir ev : dir_path (cmd ev) <> None -> is_stored ev = false.
Proof. unfold is_stored. destruct (cmd ev); try reflexivity; now intros []. Qed.

Lemma is_removed_dir ev : dir_path (cmd ev) <> None -> is_removed ev = false.
Proof.
  unfold is_removed. destruct (cmd ev); try reflexivity; now intros [].
Qed.

Lemma is_connect_dir ev : dir_path (cmd ev) <> None -> is_connect ev = false.
Proof.
  unfold is_connect. destruct (cmd ev); try reflexivity; now intros [].
Qed.

Lemma getFTPConfig_configured w :
  match fst (getFTPConfig w) with
  | Returns (Some _) => ftp_unconfigured w = false
  | Returns None => ftp_unconfigured w = true
  | Raises _ => False
  end.
Proof.
  unfold getFTPConfig, ftp_unconfigured. rewrite bind_run. cbn [gets].
  now destruct (unset _ || unset _ || unset _ || unset _).
Qed.

(** One upload, from the settings to the [finally] block. *)
Lemma upload_run (w : World) (file : File) (folder : option string) :
  exists r evs,
    fst (uploadFileToFTP file folder w) = Returns r
    /\ ftp_trace (snd (uploadFileToFTP file folder w)) = ftp_trace w ++ evs
    /\ rt (snd (uploadFileToFTP file folder w)) = rt w
    /\ length (List.filter is_connect evs)
       = (if ftp_unconfigured w then 0 else 1)%nat
    /\ if success r
       then exists c config name,
              fst (getFTPConfig w) = Returns (Some config)
              /\ filename r = Some name
              /\ url r = Some (baseUrl config +:+ "/"
                               +:+ default "products" folder
                               +:+ "/" +:+ name)
              /\ In {| conn := c; cmd := Connect config; accepted := true |}
                    evs
              /\ List.filter is_stored evs
                 = [ {| conn := c;
                        cmd := Put ("/" +:+ default "products" folder
                                    +:+ "/" +:+ name) (file_content file);
                        accepted := true |} ]
       else List.filter is_stored evs = [].
Proof.
  pose proof (getFTPConfig_configured w) as Hconf.
  destruct (getFTPConfig_run w) as (cfg & w1 & E & Hrt & Ho & Htr & _).
  rewrite E in Hconf. cbn [fst] in Hconf.
  unfold uploadFileToFTP. cbv zeta. rewrite bind_run, E, <- Htr, <- Hrt.
  destruct cfg as [config|]; rewrite Hconf.
  2:{ eexists _, []. split; [reflexivity|]. split; [now rewrite app_nil_r|].
      repeat split. }
  erewrite session_prelude by reflexivity.
  erewrite session_prelude by reflexivity. cbv zeta.
  unfold with_local, try_finally.
  set (c := length (List.filter is_connect (ftp_trace w1))).
  destruct (hd NoFault (oracle w1)) eqn:Hv.
  2,3: erewrite try_catch_abort
      by (unfold lift; cbn [fst snd]; rewrite connectFTP_run, Hv; reflexivity);
    cbn [fst snd]; fold c; eexists _, _; cbn;
    (split; [reflexivity|]);
    (split; [rewrite <- ?app_assoc; reflexivity|repeat split]).
  erewrite try_catch_step
    by (unfold lift; cbn [fst snd]; rewrite connectFTP_run, Hv; reflexivity).
  erewrite try_catch_step by reflexivity.
  cbn [fst snd]. fold c.
  set (s1 := after_command c (Connect config) true w1).
  destruct (hd NoFault (oracle s1)) eqn:Hv2.
  2,3: erewrite try_catch_abort
      by (unfold lift, arrayBuffer; cbn [fst snd]; rewrite external_run, Hv2;
          reflexivity);
    cbn [fst snd]; eexists _, _; cbn;
    (split; [reflexivity|]);
    (split; [rewrite <- ?app_assoc; reflexivity|repeat split]).
  erewrite try_catch_step
    by (unfold lift, arrayBuffer; cbn [fst snd]; rewrite external_run, Hv2;
        reflexivity).
  destruct (ensureDirectoryExists_steps c (default "products" folder)
              (advance s1)) as (s2 & devs & Ed & Hrun & _).
  erewrite try_catch_step
    by (unfold lift; cbn [fst snd]; rewrite Ed; reflexivity).
  cbn [fst snd].
  pose proof (filter_dir_run _ _ _ _ _ is_stored is_stored_dir Hrun) as Hnone.
  pose proof (filter_dir_run _ _ _ _ _ is_connect is_connect_dir Hrun) as Hnoc.
  destruct Hrun as (Ht & Hr2 & _).
  destruct (hd NoFault (oracle s2)) eqn:Hv3.
  2,3: erewrite try_catch_abort
      by (unfold lift; cbn [fst snd]; rewrite ftp_command_run, Hv3;
          reflexivity);
    cbn [fst snd]; eexists _, _; cbn; rewrite Ht, Hr2; cbn;
    (split; [reflexivity|]);
    (split; [rewrite <- ?app_assoc; reflexivity|]);
    (split; [reflexivity|]);
    rewrite !(List.filter_app _ [_]), !List.filter_app, Hnone, Hnoc;
    split; reflexivity.
  erewrite try_catch_step
    by (unfold lift; cbn [fst snd]; rewrite ftp_command_run, Hv3;
        reflexivity).
  rewrite try_catch_run. cbn [ret fst snd].
  eexists _, _. cbn. rewrite Ht, Hr2. cbn.
  split; [reflexivity|]. split; [rewrite <- ?app_assoc; reflexivity|].
  split; [reflexivity|].
  rewrite !(List.filter_app _ [_]), !List.filter_app, Hnone, Hnoc.
  split; [reflexivity|].
  exists c, config. eexists. split; [reflexivity|].
  split; [reflexivity|]. split; [reflexivity|]. split; [now left|].
  reflexivity.
Qed.

(** X23: the result of [uploadFileToFTP] says what happened on the
    server, whatever the server and the other external calls do.  On a
    success exactly one upload was accepted: of the content of the file,
    on the connection the call opened with the settings, to the path
    /folder/filename, and the url returned is the base URL followed by
    that path.  On a failure no upload was accepted. *)
Theorem upload_stores_what_it_reports (w : World) (file : File)
  (folder : option string) :
  exists r evs,
    fst (uploadFileToFTP file folder w) = Returns r
    /\ ftp_trace (snd (uploadFileToFTP file folder w)) = ftp_trace w ++ evs
    /\ if success r
       then exists c config name,
              fst (getFTPConfig w) = Returns (Some config)
              /\ filename r = Some name
              /\ url r = Some (baseUrl config +:+ "/"
                               +:+ default "products" folder
                               +:+ "/" +:+ name)
              /\ In {| conn := c; cmd := Connect config; accepted := true |}
                    evs
              /\ List.filter is_stored evs
                 = [ {| conn := c;
                        cmd := Put ("/" +:+ default "products" folder
                                    +:+ "/" +:+ name) (file_content file);
                        accepted := true |} ]
       else List.filter is_stored evs = [].
Proof.
  destruct (upload_run w file folder) as (r & evs & H1 & H2 & _ & _ & H3).
  exists r, evs. auto.
Qed.

(** X24: the result of [deleteFileFromFTP] says what happened on the
    server: on a success exactly one removal was accepted, of the path
    /folder/filename on the connection the call opened; on a failure no
    removal was accepted. *)
Theorem delete_removes_what_it_reports (w : World) (name : string)
  (folder : option string) :
  exists r evs,
    fst (deleteFileFromFTP name folder w) = Returns r
    /\ ftp_trace (snd (deleteFileFromFTP name folder w)) = ftp_trace w ++ evs
    /\ if success r
       then exists c config,
              fst (getFTPConfig w) = Returns (Some config)
              /\ In {| conn := c; cmd := Connect config; accepted := true |}
                    evs
              /\ List.filter is_removed evs
                 = [ {| conn := c;
                        cmd := Dele ("/" +:+ default "products" folder
                                     +:+ "/" +:+ name);
                        accepted := true |} ]
       else List.filter is_removed evs = [].
Proof.
  destruct (getFTPConfig_run w) as (cfg & w1 & E & Hrt & Ho & Htr & _).
  unfold deleteFileFromFTP. cbv zeta. rewrite bind_run, E, <- Htr.
  destruct cfg as [config|].
  2:{ eexists _, []. split; [reflexivity|]. split; [now rewrite app_nil_r|].
      reflexivity. }
  unfold with_local, try_finally.
  set (c := length (List.filter is_connect (ftp_trace w1))).
  destruct (hd NoFault (oracle w1)) eqn:Hv.
  2,3: erewrite try_catch_abort
      by (unfold lift; cbn [fst snd]; rewrite connectFTP_run, Hv; reflexivity);
    cbn [fst snd]; fold c; eexists _, _; cbn;
    (split; [reflexivity|]);
    (split; [rewrite <- ?app_assoc; reflexivity|reflexivity]).
  erewrite try_catch_step
    by (unfold lift; cbn [fst snd]; rewrite connectFTP_run, Hv; reflexivity).
  erewrite try_catch_step by reflexivity.
  cbn [fst snd]. fold c.
  set (s1 := after_command c (Connect config) true w1).
  destruct (hd NoFault (oracle s1)) eqn:Hv2.
  2,3: erewrite try_catch_abort
      by (unfold lift; cbn [fst snd]; rewrite ftp_command_run, Hv2;
          reflexivity);
    cbn [fst snd]; eexists _, _; cbn;
    (split; [reflexivity|]);
    (split; [rewrite <- ?app_assoc; reflexivity|reflexivity]).
  erewrite try_catch_step
    by (unfold lift; cbn [fst snd]; rewrite ftp_command_run, Hv2;
        reflexivity).
  rewrite try_catch_run. cbn [ret fst snd].
  eexists _, _. cbn.
  split; [reflexivity|]. split; [rewrite <- ?app_assoc; reflexivity|].
  exists c, config. split; [reflexivity|]. split; [now left|reflexivity].
Qed.

Lemma ftp_unconfigured_rt w w' :
  rt w' = rt w -> ftp_unconfigured w' = ftp_unconfigured w.
Proof. intros H. unfold ftp_unconfigured. now rewrite H. Qed.

Lemma upload_each_run files folder : forall acc w,
  exists rs evs,
    fst (upload_each files folder acc w) = Returns (acc ++ rs)
    /\ length rs = length files
    /\ ftp_trace (snd (upload_each files folder acc w)) = ftp_trace w ++ evs
    /\ rt (snd (upload_each files folder acc w)) = rt w
    /\ length (List.filter is_connect evs)
       = (if ftp_unconfigured w then 0 else length files)%nat
    /\ length (List.filter is_stored evs)
       = length (List.filter success rs).
Proof.
  induction files as [|file rest IH]; intros acc w; cbn [upload_each].
  - exists [], []. rewrite !app_nil_r. repeat split.
    now destruct (ftp_unconfigured w).
  - rewrite bind_run.
    destruct (upload_run w file (Some folder))
      as (r & evs1 & H1 & H2 & H3 & H4 & H5).
    destruct (uploadFileToFTP file (Some folder) w) as [o w1].
    cbn [fst snd] in *. subst o.
    destruct (IH (acc ++ [r]) w1)
      as (rs & evs2 & I1 & I0 & I2 & I3 & I4 & I5).
    exists (r :: rs), (evs1 ++ evs2). repeat split.
    + rewrite I1, <- app_assoc. reflexivity.
    + cbn [length]. now rewrite I0.
    + rewrite I2, H2, app_assoc. reflexivity.
    + congruence.
    + rewrite List.filter_app, length_app, H4, I4.
      rewrite (ftp_unconfigured_rt w w1 H3).
      now destruct (ftp_unconfigured w).
    + rewrite List.filter_app, length_app, I5. cbn [List.filter].
      destruct (success r).
      * destruct H5 as (c & config & name & _ & _ & _ & _ & ->). reflexivity.
      * rewrite H5. reflexivity.
Qed.

(** X25: [uploadMultipleFilesToFTP] handles the files one after the
    other, each on a connection of its own: with the settings present it
    attempts exactly as many connections as there are files, with the
    settings missing none; a file that fails does not stop the files
    after it, and the server accepted exactly as many uploads as there
    are results with success true. *)
Theorem uploadMultiple_connects_once_per_file (w : World) (files : list File)
  (folder : option string) :
  exists rs evs,
    fst (uploadMultipleFilesToFTP files folder w) = Returns rs
    /\ length rs = length files
    /\ ftp_trace (snd (uploadMultipleFilesToFTP files folder w))
       = ftp_trace w ++ evs
    /\ length (List.filter is_connect evs)
       = (if ftp_unconfigured w then 0 else length files)%nat
    /\ length (List.filter is_stored evs) = length (List.filter success rs).
Proof.
  unfold uploadMultipleFilesToFTP.
  destruct (upload_each_run files (default "products" folder) [] w)
    as (rs & evs & H1 & H0 & H2 & _ & H4 & H5).
  exists rs, evs. repeat split; assumption.
Qed.

(** *** File names and settings *)

Lemma has_slash_cons c s :
  has_slash (String c s) = Ascii.eqb "/" c || has_slash s.
Proof. reflexivity. Qed.

Lemma after_last_slash_clean s : has_slash (after_last_slash s) = false.
Proof.
  induction s as [|c s IH]; [reflexivity|]. cbn [after_last_slash].
  fold (has_slash s). destruct (has_slash s) eqn:E; [exact IH|].
  destruct (Ascii.eqb c "/") eqn:Ec; [exact E|].
  rewrite has_slash_cons, E, Ascii.eqb_sym, Ec. reflexivity.
Qed.

Lemma has_slash_mid dir file : has_slash (dir +:+ "/" +:+ file) = true.
Proof.
  induction dir as [|c dir IH]; [reflexivity|].
  change ((String c dir) +:+ "/" +:+ file)
    with (String c (dir +:+ "/" +:+ file)).
  now rewrite has_slash_cons, IH, orb_true_r.
Qed.

Lemma after_last_slash_file dir file :
  has_slash file = false -> after_last_slash (dir +:+ "/" +:+ file) = file.
Proof.
  intros Hf. induction dir as [|c dir IH].
  - change ("" +:+ "/" +:+ file) with (String "/" file).
    cbn [after_last_slash]. fold (has_slash file). now rewrite Hf.
  - change ((String c dir) +:+ "/" +:+ file)
      with (String c (dir +:+ "/" +:+ file)).
    cbn [after_last_slash]. fold (has_slash (dir +:+ "/" +:+ file)).
    now rewrite has_slash_mid.
Qed.

(** X26: [extractFilenameFromUrl] never throws and changes nothing; the
    name it returns contains no slash; and it is the file name of the
    url: when the path of the url, or the url itself when it cannot be
    parsed, is a directory, a slash and a name without slashes, that
    name is returned. *)
Theorem extractFilenameFromUrl_last_segment (w : World) (u : string) :
  exists name,
    extractFilenameFromUrl u w = (Returns name, w)
    /\ has_slash name = false
    /\ forall dir file,
         has_slash file = false ->
         url_pathname (rt w) u = Some (dir +:+ "/" +:+ file)
         \/ url_pathname (rt w) u = None /\ u = dir +:+ "/" +:+ file ->
         name = file.
Proof.
  unfold extractFilenameFromUrl. rewrite try_catch_run, bind_run. cbn [gets].
  destruct (url_pathname (rt w) u) as [path|]; cbn [ret raise];
    eexists; (split; [reflexivity|]);
    (split; [apply after_last_slash_clean|]);
    intros dir file Hf [H|[H ->]]; try discriminate.
  - injection H as ->. now apply after_last_slash_file.
  - now apply after_last_slash_file.
Qed.

Lemma strip_trailing_slash_cases s :
  strip_trailing_slash s +:+ "/" = s \/ strip_trailing_slash s = s.
Proof.
  induction s as [|c s IH]; [now right|].
  destruct s as [|c' s].
  - cbn. destruct (Ascii.eqb_spec c "/") as [->|]; [now left|now right].
  - change (strip_trailing_slash (String c (String c' s)))
      with (String c (strip_trailing_slash (String c' s))).
    destruct IH as [IH|IH]; [left|right].
    + transitivity (String c (strip_trailing_slash (String c' s) +:+ "/"));
        [reflexivity|now rewrite IH].
    + now rewrite IH.
Qed.

(** X27: [getFTPConfig] returns settings exactly when host, user,
    password and base URL are all set and not empty; the settings carry
    these values as they are, the port 21 when no port is set, and the
    base URL with at most one slash taken off its end; otherwise it
    returns null and writes one warning to the console. *)
Theorem getFTPConfig_settings (w : World) :
  exists c w',
    getFTPConfig w = (Returns c, w')
    /\ tables w' = tables w /\ ftp_trace w' = ftp_trace w
    /\ match c with
       | None => ftp_unconfigured w = true
                 /\ length (console w') = S (length (console w))
       | Some cfg =>
           ftp_unconfigured w = false
           /\ w' = w
           /\ env (rt w) !! "NAMECHEAP_FTP_HOST" = Some (host cfg)
           /\ env (rt w) !! "NAMECHEAP_FTP_USER" = Some (user cfg)
           /\ env (rt w) !! "NAMECHEAP_FTP_PASSWORD" = Some (password cfg)
           /\ host cfg <> "" /\ user cfg <> "" /\ password cfg <> ""
           /\ (exists base,
                 env (rt w) !! "NAMECHEAP_FTP_BASE_URL" = Some base
                 /\ base <> ""
                 /\ (baseUrl cfg +:+ "/" = base \/ baseUrl cfg = base))
           /\ (unset (env (rt w) !! "NAMECHEAP_FTP_PORT") = true ->
               port cfg = Some 21%Z)
       end.
Proof.
  unfold getFTPConfig, ftp_unconfigured. rewrite bind_run. cbn [gets].
  destruct (unset _ || unset _ || unset _ || unset _) eqn:E.
  - eexists None, _. split; [reflexivity|]. repeat split.
    cbn. rewrite length_app. cbn. lia.
  - apply orb_false_iff in E as [E Hb]. apply orb_false_iff in E as [E Hp].
    apply orb_false_iff in E as [Hh Hu].
    unfold unset in Hh, Hu, Hp, Hb.
    destruct (env (rt w) !! "NAMECHEAP_FTP_HOST") as [h|]; [|discriminate].
    destruct (env (rt w) !! "NAMECHEAP_FTP_USER") as [us|]; [|discriminate].
    destruct (env (rt w) !! "NAMECHEAP_FTP_PASSWORD") as [pw|];
      [|discriminate].
    destruct (env (rt w) !! "NAMECHEAP_FTP_BASE_URL") as [b|]; [|discriminate].
    apply String.eqb_neq in Hh, Hu, Hp, Hb.
    eexists (Some _), w. split; [reflexivity|].
    cbn [host user password baseUrl port default from_option id].
    repeat split; try assumption.
    + exists b. repeat split; [exact Hb|apply strip_trailing_slash_cases].
    + intros Hport. unfold unset in Hport.
      destruct (env (rt w) !! "NAMECHEAP_FTP_PORT") as [pt|]; cbn [str_or].
      * rewrite Hport. reflexivity.
      * reflexivity.
Qed.

Lemma extractFilenameFromUrl_last_segment_witness :
  (has_slash "1700000000000-4fzyo8.png" = false
   /\ url_pathname (rt (shop None []))
        "https://files.jradianceco.com/products/1700000000000-4fzyo8.png"
      = None)
  /\ fst (extractFilenameFromUrl
            "https://files.jradianceco.com/products/1700000000000-4fzyo8.png"
            (shop None []))
     = Returns "1700000000000-4fzyo8.png".
Proof.
  assert (Hf : has_slash "1700000000000-4fzyo8.png" = false) by reflexivity.
  assert (Hu : url_pathname (rt (shop None []))
                 "https://files.jradianceco.com/products/1700000000000-4fzyo8.png"
               = None) by reflexivity.
  split; [auto|].
  destruct (extractFilenameFromUrl_last_segment (shop None [])
              "https://files.jradianceco.com/products/1700000000000-4fzyo8.png")
    as (name & E & _ & Hname).
  rewrite E. cbn [fst]. f_equal.
  apply (Hname "https://files.jradianceco.com/products" _ Hf).
  right. split; [exact Hu|reflexivity].
Defined.

Lemma getFTPConfig_settings_witness :
  unset (env (rt (shop None [])) !! "NAMECHEAP_FTP_PORT") = true
  /\ exists cfg,
       fst (getFTPConfig (shop None [])) = Returns (Some cfg)
       /\ port cfg = Some 21%Z
       /\ baseUrl cfg = "https://files.jradianceco.com".
Proof.
  assert (Hp : unset (env (rt (shop None [])) !! "NAMECHEAP_FTP_PORT") = true)
    by reflexivity.
  split; [exact Hp|].
  destruct (getFTPConfig_settings (shop None [])) as (c & w' & E & _ & _ & H).
  destruct c as [cfg|].
  - exists cfg. rewrite E. split; [reflexivity|].
    destruct H as (_ & _ & _ & _ & _ & _ & _ & _ & _ & Hport).
    split; [exact (Hport Hp)|].
    assert (E' : fst (getFTPConfig (shop None [])) = Returns (Some cfg))
      by now rewrite E.
    vm_compute in E'. now injection E' as <-.
  - destruct H as [H _]. discriminate H.
Defined.

(** ** The cart overlay *)

Lemma totalPrice_sum cart :
  Cart.totalPrice cart
  = foldr (fun item acc => (Cart.item_price item * Cart.quantity item + acc)%Z)
          0%Z cart.
Proof.
  unfold Cart.totalPrice.
  rewrite (fold_left_sum
             (fun item => Cart.item_price item * Cart.quantity item)%Z).
  induction cart as [|item cart IH]; [reflexivity|]. cbn. lia.
Qed.

Lemma totalItems_sum cart :
  Cart.totalItems cart = foldr (fun item acc => (Cart.quantity item + acc)%Z)
                               0%Z cart.
Proof.
  unfold Cart.totalItems. rewrite (fold_left_sum Cart.quantity).
  induction cart as [|item cart IH]; [reflexivity|]. cbn. lia.
Qed.

(** X28: the totals of the cart are taken item by item, in the order
    of the cart and in the arithmetic of the language: an item put at
    the end of a cart adds its price times its quantity to the total
    price, and its quantity to the item count.  The order of the items
    matters to the total price: three items of one piece each, priced
    0.1, 0.2 and 0.3, make 0.6000000000000001 in this order and 0.6 in
    the reverse order. *)
Theorem cart_totals_follow_order :
  (forall cart item,
      Doubles.totalPrice (cart ++ [item])
      = (Doubles.totalPrice cart
         + Doubles.item_price item * Doubles.quantity item)%float)
  /\ (forall cart item,
        Doubles.totalItems (cart ++ [item])
        = (Doubles.totalItems cart + Doubles.quantity item)%float)
  /\ Doubles.totalPrice coins = 0x1.3333333333334p-1%float
  /\ Doubles.totalPrice (reverse coins) = 0x1.3333333333333p-1%float
  /\ PrimFloat.eqb (Doubles.totalPrice coins)
                   (Doubles.totalPrice (reverse coins)) = false.
Proof.
  split; [exact totalPrice_snoc|]. split.
  - intros cart item. unfold Doubles.totalItems. now rewrite fold_left_app.
  - repeat split; reflexivity.
Qed.

Lemma lines_sum_total cart : lines_sum (map line cart) = Cart.totalPrice cart.
Proof.
  rewrite totalPrice_sum. unfold lines_sum.
  induction cart as [|item cart IH]; [reflexivity|].
  cbn [map foldr]. now rewrite IH.
Qed.


(** ** The robots file *)

(** X30: for every environment [robots] returns a file, changes
    nothing, and names a host that is not empty: the value of
    NEXT_PUBLIC_BASE_URL when that is set and not empty, and
    https://jradianceco.com otherwise; the single sitemap entry is that
    host followed by /sitemap.xml.  Every rule disallows /admin, and no
    rule allows a path under /admin or under /api. *)
Theorem robots_host_and_admin (w : World) :
  exists file,
    Robots.robots w = (Returns file, w)
    /\ Robots.robots_host file <> ""
    /\ Robots.sitemap file = [Robots.robots_host file +:+ "/sitemap.xml"]
    /\ match env (rt w) !! "NEXT_PUBLIC_BASE_URL" with
       | Some base => if String.eqb base ""
                      then Robots.robots_host file = "https://jradianceco.com"
                      else Robots.robots_host file = base
       | None => Robots.robots_host file = "https://jradianceco.com"
       end
    /\ Forall (fun rule =>
                 In "/admin" (Robots.disallow rule)
                 /\ Forall (fun path => startsWith path "/admin" = false
                                        /\ startsWith path "/api" = false)
                           (Robots.allow rule))
              (Robots.rules file).
Proof.
  unfold Robots.robots, Robots.getBaseUrl. rewrite bind_run. cbn [gets ret].
  eexists. split; [reflexivity|].
  cbn [Robots.robots_host Robots.sitemap Robots.rules].
  split; [|split; [reflexivity|split]].
  - unfold str_or. destruct (env (rt w) !! "NEXT_PUBLIC_BASE_URL") as [b|];
      [|discriminate].
    destruct (String.eqb_spec b ""); [discriminate|assumption].
  - unfold str_or. destruct (env (rt w) !! "NEXT_PUBLIC_BASE_URL") as [b|];
      [|reflexivity].
    now destruct (String.eqb b "").
  - repeat constructor.
Qed.

(** ** Failures of external calls become failure results *)

Import AdminActions.

Lemma at_pos_next skip w0 n s s' :
  at_pos skip w0 n s ->
  ~ counts skip n (hd NoFault (oracle s)) ->
  oracle s' = tail (oracle s) ->
  at_pos skip w0 (S n) s'.
Proof.
  intros [Ho Hk] Hv Ho'. split; [now rewrite Ho', Ho|].
  intros k f Hlt Hf. destruct (decide (k = n)) as [->|Hne].
  - apply verdict_tail in Hf. now rewrite Ho, Hf in Hv.
  - apply Hk; [lia|exact Hf].
Qed.

Lemma at_pos_same skip w0 n s s' :
  at_pos skip w0 n s -> oracle s' = oracle s -> at_pos skip w0 n s'.
Proof. intros [Ho Hk] E. split; [now rewrite E|exact Hk]. Qed.

Lemma length_iter_tail {A} n (l : list A) :
  length (Nat.iter n (@tail A) l) = (length l - n)%nat.
Proof.
  revert l. induction n as [|n IH]; intros l; [simpl; lia|].
  rewrite Nat.iter_succ_r, IH. destruct l; simpl; lia.
Qed.

(** A call that ends some calls after its start, none of which met a
    failure that counts, has met no fault. *)
Lemma at_pos_no_fault skip w0 n s :
  at_pos skip w0 n s -> ~ met_fault skip w0 s.
Proof.
  intros [Ho Hk] (k & f & Hc & Hf). unfold consumed in Hc.
  apply lookup_take_Some in Hc as [Hl Hlt].
  rewrite Ho, length_iter_tail in Hlt.
  apply (Hk k f); [lia|exact Hl|exact Hf].
Qed.

Section Guard.
Context {A : Type} (skip : Policy) (bad : A -> Prop) (w0 : World).

Lemma guarded_ret n (a : A) : guarded skip bad w0 n (ret a).
Proof. intros s Hs. right. now exists n. Qed.

Lemma guarded_bind_silent {B} (m : M B) (k : B -> M A) n :
  silent m -> (forall b, guarded skip bad w0 n (k b)) ->
  guarded skip bad w0 n (bind m k).
Proof.
  intros Hm Hk s Hs. rewrite bind_run. specialize (Hm s).
  destruct (m s) as [[b|e] s']; [|exact I].
  apply Hk. now apply at_pos_same with s.
Qed.

Lemma guarded_bind_external {B} (work : M B) (k : B -> M A) n :
  silent work -> (forall b, guarded skip bad w0 (S n) (k b)) ->
  guarded skip bad w0 n (bind (external work) k).
Proof.
  intros Hm Hk s Hs. rewrite bind_run, external_run.
  destruct (hd NoFault (oracle s)) eqn:Hv; [|exact I..].
  specialize (Hm (advance s)).
  destruct (work (advance s)) as [[b|e] s']; [|exact I].
  apply Hk. apply at_pos_next with s; [exact Hs|now rewrite Hv|exact Hm].
Qed.

Lemma guarded_bind_auth (k : option string -> M A) n :
  (forall u, guarded skip bad w0 (S n) (k u)) -> doomed bad (k None) ->
  guarded skip bad w0 n (bind auth_getUser k).
Proof.
  intros Hk Hd s Hs. rewrite bind_run, auth_getUser_run.
  destruct (hd NoFault (oracle s)) eqn:Hv; [| |exact I].
  - apply Hk. apply at_pos_next with s; [exact Hs|now rewrite Hv|reflexivity].
  - specialize (Hd (advance s)).
    destruct (k None (advance s)) as [[a|e'] s']; [now left|exact I].
Qed.

Lemma guarded_bind_await q (k : response -> M A) n :
  (forall r, guarded skip bad w0 (S n) (k r)) ->
  (forall e, skip n e = false -> doomed bad (k (failed e))) ->
  guarded skip bad w0 n (bind (await q) k).
Proof.
  intros Hk Hd s Hs. rewrite bind_run, await_run.
  destruct (hd NoFault (oracle s)) eqn:Hv; [| |exact I].
  - apply Hk. apply at_pos_next with s;
      [exact Hs|now rewrite Hv|apply run_query_oracle].
  - destruct (skip n e) eqn:He.
    + apply Hk. apply at_pos_next with s; [exact Hs| |reflexivity].
      rewrite Hv. cbn. now rewrite He.
    + specialize (Hd e He (advance s)).
      destruct (k (failed e) (advance s)) as [[a|e'] s']; [now left|exact I].
Qed.

Lemma guarded_assoc {B C} (m : M B) (k1 : B -> M C) (k2 : C -> M A) n :
  guarded skip bad w0 n (bind m (fun b => bind (k1 b) k2)) ->
  guarded skip bad w0 n (bind (bind m k1) k2).
Proof.
  intros H s Hs. specialize (H s Hs). rewrite !bind_run in *.
  destruct (m s) as [[b|e] s']; [|exact I]. now rewrite bind_run in H.
Qed.

Lemma doomed_ret (a : A) : bad a -> doomed bad (ret a).
Proof. intros H s. exact H. Qed.

Lemma doomed_bind_raise {B} e (k : B -> M A) : doomed bad (bind (raise e) k).
Proof. intros s. exact I. Qed.

(** A body that is guarded from its start, under a handler that answers
    with a failure, fails on every fault that counts. *)
Lemma guarded_try_catch (body : M A) (handler : JsErr -> M A) :
  guarded skip bad w0 0 body ->
  (forall e, answers (handler e) bad) ->
  met_fault skip w0 (snd (try_catch body handler w0)) ->
  exists a, fst (try_catch body handler w0) = Returns a /\ bad a.
Proof.
  intros Hb Hh. rewrite try_catch_run.
  assert (H0 : at_pos skip w0 0 w0) by (split; [reflexivity|lia]).
  specialize (Hb w0 H0). destruct (body w0) as [[a|e] s'].
  - cbn [fst snd]. intros Hm. destruct Hb as [Hbad|[n Hn]]; [eauto|].
    now apply at_pos_no_fault in Hn.
  - intros _. destruct (Hh e s') as (a & s'' & -> & Ha). eauto.
Qed.

End Guard.

Lemma silent_dateFilter period : silent (dateFilter period).
Proof.
  intros s. destruct (dateFilter_reads_only period s) as [text ->].
  reflexivity.
Qed.

(** Calls that use up no verdict. *)
Ltac hushed :=
  first [ apply silent_dateFilter
        | intros ?s; unfold throw_if_error, prop;
          repeat match goal with
                 | |- context [match ?x with _ => _ end] => destruct x
                 end;
          reflexivity ].

Ltac failing :=
  first [ reflexivity
        | split; [reflexivity|eexists; reflexivity] ].

(** What is left of a body once a call has failed. *)
Ltac sunk :=
  cbv zeta; unfold throw_if_error;
  cbn [resp_data resp_error failed opt_field is_str truthy negb];
  first [ apply doomed_bind_raise | apply doomed_ret; failing ].

(** Follows a body call by call; [excuse] is run on the hypothesis that
    the error of a call is one the code looks at. *)
Ltac follow_with excuse :=
  cbv zeta;
  repeat
    (lazymatch goal with
     | |- guarded _ _ _ _ (ret _) => apply guarded_ret
     | |- guarded _ _ _ _ (bind (bind _ _) _) => apply guarded_assoc
     | |- guarded _ _ _ _ (bind (external _) _) =>
         apply guarded_bind_external; [hushed|intros ?b]
     | |- guarded _ _ _ _ (bind auth_getUser _) =>
         apply guarded_bind_auth; [intros ?u|sunk]
     | |- guarded _ _ _ _ (bind (await _) _) =>
         apply guarded_bind_await;
           [ intros ?r
           | let He := fresh "He" in
             intros ?e He; try (vm_compute in He; discriminate He);
             excuse He; sunk ]
     | |- guarded _ _ _ _ (match negb ?x with _ => _ end) =>
         first [progress cbn [negb]|destruct x]
     | |- guarded _ _ _ _ (bind (match negb ?x with _ => _ end) _) =>
         first [progress cbn [negb]|destruct x]
     | |- guarded _ _ _ _ (match ?x with _ => _ end) => destruct x
     | |- guarded _ _ _ _ (bind (match ?x with _ => _ end) _) => destruct x
     | |- guarded _ _ _ _ (bind _ _) =>
         apply guarded_bind_silent; [hushed|intros ?b]
     end;
     cbv zeta).

Ltac faulty_with excuse :=
  intros w;
  apply guarded_try_catch;
    [ unfold createClient, createStaticClient, revalidatePath;
      follow_with excuse
    | intros e s; eexists _, _; split; [reflexivity|failing] ].

Ltac faulty := faulty_with ltac:(fun He => idtac).

Lemma checkPermission_faults r :
  fails_on_fault (unchecked []) (fun b => b = false) (checkPermission r).
Proof. unfold checkPermission. faulty. Qed.

Lemma getAdminPermissions_faults :
  fails_on_fault (unchecked []) (fun p => p = None) getAdminPermissions.
Proof. unfold getAdminPermissions. faulty. Qed.

Lemma getAllUsers_faults : fails_on_fault (unchecked []) is_failure getAllUsers.
Proof. unfold getAllUsers. faulty. Qed.

Lemma promoteUser_faults t r :
  fails_on_fault (promoteUser_policy r) is_failure (promoteUser t r).
Proof.
  unfold promoteUser. destruct (role_eqb r customer) eqn:Hr.
  - faulty_with ltac:(fun He =>
      unfold promoteUser_policy in He; rewrite Hr in He;
      try discriminate He).
  - faulty_with ltac:(fun He =>
      unfold promoteUser_policy in He; rewrite Hr in He;
      cbn [Nat.eqb andb orb] in He; rewrite ?orb_false_r in He;
      try discriminate He;
      cbv zeta; cbn [resp_error failed]; rewrite ?He; cbn [negb]).
Qed.

Lemma demoteUser_faults t :
  fails_on_fault (unchecked [3; 5; 6]) is_failure (demoteUser t).
Proof. unfold demoteUser. faulty. Qed.

Lemma deleteUser_faults t :
  fails_on_fault (unchecked [3; 5]) is_failure (deleteUser t).
Proof. unfold deleteUser. faulty. Qed.

Lemma toggleUserStatus_faults t :
  fails_on_fault (unchecked [3; 5]) is_failure (toggleUserStatus t).
Proof. unfold toggleUserStatus. faulty. Qed.

Lemma createProduct_faults p :
  fails_on_fault (unchecked [2; 4]) is_failure (createProduct p).
Proof. unfold createProduct. faulty. Qed.

Lemma updateProduct_faults i u :
  fails_on_fault (unchecked [3]) is_failure (updateProduct i u).
Proof. unfold updateProduct. faulty. Qed.

Lemma deleteProduct_faults i :
  fails_on_fault (unchecked [3]) is_failure (deleteProduct i).
Proof. unfold deleteProduct. faulty. Qed.

Lemma toggleProductStatus_faults i :
  fails_on_fault (unchecked [2; 4]) is_failure (toggleProductStatus i).
Proof. unfold toggleProductStatus. faulty. Qed.

Lemma getAllOrders_faults :
  fails_on_fault (unchecked []) is_failure getAllOrders.
Proof. unfold getAllOrders. faulty. Qed.

Lemma updateOrderStatus_faults i st :
  fails_on_fault (unchecked [3]) is_failure (updateOrderStatus i st).
Proof. unfold updateOrderStatus. faulty. Qed.

Lemma getActivityLogs_faults n :
  fails_on_fault (unchecked []) is_failure (getActivityLogs n).
Proof. unfold getActivityLogs. faulty. Qed.

Lemma getSalesStats_faults p :
  fails_on_fault (unchecked []) is_failure (getSalesStats p).
Proof. unfold getSalesStats. faulty. Qed.

Lemma getSystemIssues_faults :
  fails_on_fault (unchecked []) is_failure getSystemIssues.
Proof. unfold getSystemIssues. faulty. Qed.

Lemma getAllAgents_faults :
  fails_on_fault (unchecked []) is_failure getAllAgents.
Proof. unfold getAllAgents. faulty. Qed.

(** *** The FTP operations *)

Import Ftp.

Lemma refusal_dir_run c paths s s' evs :
  dir_run c paths s s' evs -> existsb is_refusal evs = false.
Proof.
  intros (_ & _ & Hall). induction Hall as [|ev evs [_ (p & Hp & _)] _ IH].
  - reflexivity.
  - cbn [existsb]. unfold is_refusal at 1. now rewrite Hp.
Qed.

Lemma quiet_two w :
  hd NoFault (oracle w) = NoFault ->
  hd NoFault (tail (oracle w)) = NoFault -> quiet 2 w.
Proof.
  unfold quiet. destruct (oracle w) as [|f [|g o]]; cbn; try reflexivity.
  - now intros ->.
  - now intros -> ->.
Qed.

(** One upload: a success has met no failure other than refused
    directory commands. *)
Lemma upload_checked (w : World) (file : File) (folder : option string) :
  exists r evs,
    fst (uploadFileToFTP file folder w) = Returns r
    /\ ftp_trace (snd (uploadFileToFTP file folder w)) = ftp_trace w ++ evs
    /\ rt (snd (uploadFileToFTP file folder w)) = rt w
    /\ (success r = true ->
        ftp_unconfigured w = false /\ quiet 2 w
        /\ existsb is_refusal evs = false)
    /\ (success r = false -> exists msg, error r = Some msg).
Proof.
  pose proof (getFTPConfig_configured w) as Hconf.
  destruct (getFTPConfig_run w) as (cfg & w1 & E & Hrt & Ho & Htr & _).
  rewrite E in Hconf. cbn [fst] in Hconf.
  unfold uploadFileToFTP. cbv zeta. rewrite bind_run, E, <- Htr, <- Hrt.
  destruct cfg as [config|]; rewrite Hconf.
  2:{ eexists _, []. split; [reflexivity|]. split; [now rewrite app_nil_r|].
      split; [reflexivity|]. split; [discriminate|]. eexists. reflexivity. }
  erewrite session_prelude by reflexivity.
  erewrite session_prelude by reflexivity. cbv zeta.
  unfold with_local, try_finally.
  set (c := length (List.filter is_connect (ftp_trace w1))).
  destruct (hd NoFault (oracle w1)) eqn:Hv.
  2,3: erewrite try_catch_abort
      by (unfold lift; cbn [fst snd]; rewrite connectFTP_run, Hv; reflexivity);
    cbn [fst snd]; fold c; eexists _, _; cbn;
    (split; [reflexivity|]);
    (split; [rewrite <- ?app_assoc; reflexivity|]);
    (split; [reflexivity|]);
    (split; [discriminate|eexists; reflexivity]).
  erewrite try_catch_step
    by (unfold lift; cbn [fst snd]; rewrite connectFTP_run, Hv; reflexivity).
  erewrite try_catch_step by reflexivity.
  cbn [fst snd]. fold c.
  set (s1 := after_command c (Connect config) true w1).
  destruct (hd NoFault (oracle s1)) eqn:Hv2.
  2,3: erewrite try_catch_abort
      by (unfold lift, arrayBuffer; cbn [fst snd]; rewrite external_run, Hv2;
          reflexivity);
    cbn [fst snd]; eexists _, _; cbn;
    (split; [reflexivity|]);
    (split; [rewrite <- ?app_assoc; reflexivity|]);
    (split; [reflexivity|]);
    (split; [discriminate|eexists; reflexivity]).
  erewrite try_catch_step
    by (unfold lift, arrayBuffer; cbn [fst snd]; rewrite external_run, Hv2;
        reflexivity).
  destruct (ensureDirectoryExists_steps c (default "products" folder)
              (advance s1)) as (s2 & devs & Ed & Hrun & _).
  erewrite try_catch_step
    by (unfold lift; cbn [fst snd]; rewrite Ed; reflexivity).
  cbn [fst snd].
  pose proof (refusal_dir_run _ _ _ _ _ Hrun) as Hnone.
  destruct Hrun as (Ht & Hr2 & _).
  destruct (hd NoFault (oracle s2)) eqn:Hv3.
  2,3: erewrite try_catch_abort
      by (unfold lift; cbn [fst snd]; rewrite ftp_command_run, Hv3;
          reflexivity);
    cbn [fst snd]; eexists _, _; cbn; rewrite Ht, Hr2; cbn;
    (split; [reflexivity|]);
    (split; [rewrite <- ?app_assoc; reflexivity|]);
    (split; [reflexivity|]);
    (split; [discriminate|eexists; reflexivity]).
  erewrite try_catch_step
    by (unfold lift; cbn [fst snd]; rewrite ftp_command_run, Hv3;
        reflexivity).
  rewrite try_catch_run. cbn [ret fst snd].
  eexists _, _. cbn. rewrite Ht, Hr2. cbn.
  split; [reflexivity|]. split; [rewrite <- ?app_assoc; reflexivity|].
  split; [reflexivity|]. split; [|discriminate].
  intros _. split; [reflexivity|]. split.
  - apply quiet_two; rewrite <- Ho; [exact Hv|exact Hv2].
  - cbn [existsb app is_refusal dir_path cmd accepted negb orb].
    rewrite existsb_app, Hnone. reflexivity.
Qed.

Lemma delete_checked (w : World) (name : string) (folder : option string) :
  exists r evs,
    fst (deleteFileFromFTP name folder w) = Returns r
    /\ ftp_trace (snd (deleteFileFromFTP name folder w)) = ftp_trace w ++ evs
    /\ (success r = true ->
        ftp_unconfigured w = false /\ quiet 2 w
        /\ existsb is_refusal evs = false)
    /\ (success r = false -> exists msg, error r = Some msg).
Proof.
  pose proof (getFTPConfig_configured w) as Hconf.
  destruct (getFTPConfig_run w) as (cfg & w1 & E & Hrt & Ho & Htr & _).
  rewrite E in Hconf. cbn [fst] in Hconf.
  unfold deleteFileFromFTP. cbv zeta. rewrite bind_run, E, <- Htr.
  destruct cfg as [config|]; rewrite Hconf.
  2:{ eexists _, []. split; [reflexivity|]. split; [now rewrite app_nil_r|].
      split; [discriminate|]. eexists. reflexivity. }
  unfold with_local, try_finally.
  set (c := length (List.filter is_connect (ftp_trace w1))).
  destruct (hd NoFault (oracle w1)) eqn:Hv.
  2,3: erewrite try_catch_abort
      by (unfold lift; cbn [fst snd]; rewrite connectFTP_run, Hv; reflexivity);
    cbn [fst snd]; fold c; eexists _, _; cbn;
    (split; [reflexivity|]);
    (split; [rewrite <- ?app_assoc; reflexivity|]);
    (split; [discriminate|eexists; reflexivity]).
  erewrite try_catch_step
    by (unfold lift; cbn [fst snd]; rewrite connectFTP_run, Hv; reflexivity).
  erewrite try_catch_step by reflexivity.
  cbn [fst snd]. fold c.
  set (s1 := after_command c (Connect config) true w1).
  destruct (hd NoFault (oracle s1)) eqn:Hv2.
  2,3: erewrite try_catch_abort
      by (unfold lift; cbn [fst snd]; rewrite ftp_command_run, Hv2;
          reflexivity);
    cbn [fst snd]; eexists _, _; cbn;
    (split; [reflexivity|]);
    (split; [rewrite <- ?app_assoc; reflexivity|]);
    (split; [discriminate|eexists; reflexivity]).
  erewrite try_catch_step
    by (unfold lift; cbn [fst snd]; rewrite ftp_command_run, Hv2;
        reflexivity).
  rewrite try_catch_run. cbn [ret fst snd].
  eexists _, _. cbn.
  split; [reflexivity|]. split; [rewrite <- ?app_assoc; reflexivity|].
  split; [|discriminate].
  intros _. split; [reflexivity|]. split; [|reflexivity].
  apply quiet_two; rewrite <- Ho; [exact Hv|exact Hv2].
Qed.

Lemma upload_each_checked files folder : forall acc w,
  exists rs evs,
    fst (upload_each files folder acc w) = Returns (acc ++ rs)
    /\ ftp_trace (snd (upload_each files folder acc w)) = ftp_trace w ++ evs
    /\ rt (snd (upload_each files folder acc w)) = rt w
    /\ (existsb is_refusal evs = true -> Exists is_upload_failure rs)
    /\ (ftp_unconfigured w = true -> Forall is_upload_failure rs).
Proof.
  induction files as [|file rest IH]; intros acc w; cbn [upload_each].
  - exists [], []. rewrite !app_nil_r. repeat split; [discriminate|].
    constructor.
  - rewrite bind_run.
    destruct (upload_checked w file (Some folder))
      as (r & evs1 & H1 & H2 & H3 & H4 & H5).
    destruct (uploadFileToFTP file (Some folder) w) as [o w1].
    cbn [fst snd] in *. subst o.
    destruct (IH (acc ++ [r]) w1) as (rs & evs2 & I1 & I2 & I3 & I4 & I5).
    exists (r :: rs), (evs1 ++ evs2).
    split; [rewrite I1, <- app_assoc; reflexivity|].
    split; [rewrite I2, H2, app_assoc; reflexivity|].
    split; [congruence|]. split.
    + rewrite existsb_app. intros Hx. apply orb_true_iff in Hx as [Hx|Hx].
      * left. split; [|apply H5]; destruct (success r); try reflexivity;
          destruct (H4 eq_refl) as (_ & _ & Hn); congruence.
      * right. apply I4, Hx.
    + intros Hu. constructor.
      * split; [|apply H5]; destruct (success r); try reflexivity;
          destruct (H4 eq_refl) as (Hc & _); congruence.
      * apply I5. now rewrite (ftp_unconfigured_rt w w1 H3).
Qed.

Lemma sent_app w w' evs :
  ftp_trace w' = ftp_trace w ++ evs -> sent w w' = evs.
Proof. intros H. unfold sent. rewrite H. apply drop_app_length. Qed.


